(** * Lead-generation backend: prospect identity, dedupe and lifecycle

    A shallow embedding of the prospect handlers of [index.js] (identity
    normalisers, [checkDuplicateProspect], [POST /prospects],
    [POST /sources/:sourceId/prospects/bulk], [GET /prospects],
    [PATCH /prospects/:id/archive], [DELETE /prospects/:id]) and of the
    tables of [db.js] they touch.

    Conventions of the model.
    - A JavaScript string is a [string]: a sequence of code units below 256
      (the Latin-1 range).  [trim], [toLowerCase] and the regular
      expressions [\s+] and [^www\.] are written out on that range.
    - Request bodies and query values are [JsValue]s, the values
      [express.json()] and the query parser produce, plus [undefined] for
      a missing property.  Numbers are integer valued; the handlers only
      test them for truthiness and print them.
    - The WHATWG [URL] parser is not part of the repository; it is a
      parameter [URL_hostname] of the development ([None] when
      [new URL(...)] throws).
    - A table is the list of its rows in storage order; [LIMIT 1] takes the
      first match.  A column of type TEXT holds [None] (NULL) or [Some s].
      A query with ORDER BY answers in that order, rows that tie in
      storage order; the function [datetime] of SQLite that one query
      orders by is a parameter of that query.
    - [datetime('now')] and [generateId] are supplied by the caller of the
      model ([now], and a generator [genId] indexed by the number of
      identifiers drawn so far).
    - The table [prospects] has the columns [index.js] reads and writes;
      [db.js] creates it without [normalizedEmail], [normalizedDomain],
      [normalizedContactName], [origin] and [suppressedAt].
    - Statements succeed unless a PRIMARY KEY is violated; the other
      [500] branches of the handlers (I/O failures of the storage engine)
      are not modelled. *)

From stdpp Require Import base strings list gmap.
From Stdlib Require Import Ascii ZArith DecimalString Lia.

Local Open Scope string_scope.

Set Warnings "-register-all".

(** ** JavaScript values *)

Inductive JsValue : Type :=
  | JUndefined
  | JNull
  | JBool (b : bool)
  | JNum (z : Z)
  | JStr (s : string)
  | JArr (items : list JsValue)
  | JObj (props : list (string * JsValue)).

(** [!!v] of JavaScript: [undefined], [null], [false], [0] and the empty
    string are falsy; every object and array is truthy. *)
Definition truthy (v : JsValue) : bool :=
  match v with
  | JUndefined | JNull => false
  | JBool b => b
  | JNum z => negb (Z.eqb z 0)
  | JStr s => negb (String.eqb s "")
  | JArr _ | JObj _ => true
  end.

Definition isString (v : JsValue) : bool :=
  match v with JStr _ => true | _ => false end.

(** [typeof v === 'object'] (which holds for [null] too). *)
Definition typeofObject (v : JsValue) : bool :=
  match v with JNull | JArr _ | JObj _ => true | _ => false end.

Definition isArray (v : JsValue) : bool :=
  match v with JArr _ => true | _ => false end.

(** Property read [o.k]: [undefined] when [o] has no such property. *)
Fixpoint assoc (k : string) (props : list (string * JsValue)) : JsValue :=
  match props with
  | [] => JUndefined
  | (k', v) :: rest => if String.eqb k k' then v else assoc k rest
  end.

Definition getProp (o : JsValue) (k : string) : JsValue :=
  match o with
  | JObj props => assoc k props
  | _ => JUndefined
  end.

(** [a || b] and [a ?? b]. *)
Definition jsOr (a b : JsValue) : JsValue := if truthy a then a else b.

Definition jsNullish (a b : JsValue) : JsValue :=
  match a with JUndefined | JNull => b | _ => a end.

Definition string_of_Z (z : Z) : string := NilZero.string_of_int (Z.to_int z).

Fixpoint join (sep : string) (parts : list string) : string :=
  match parts with
  | [] => ""
  | [p] => p
  | p :: rest => p +:+ sep +:+ join sep rest
  end.

(** [String(v)].  An array prints its elements joined by commas, [null] and
    [undefined] elements as the empty string; a plain object prints as
    [[object Object]]. *)
Fixpoint String_ (v : JsValue) : string :=
  match v with
  | JUndefined => "undefined"
  | JNull => "null"
  | JBool true => "true"
  | JBool false => "false"
  | JNum z => string_of_Z z
  | JStr s => s
  | JArr items =>
      join ","
        ((fix elems (l : list JsValue) : list string :=
            match l with
            | [] => []
            | JUndefined :: l' => "" :: elems l'
            | JNull :: l' => "" :: elems l'
            | x :: l' => String_ x :: elems l'
            end) items)
  | JObj _ => "[object Object]"
  end.

(** ** String built-ins *)

(** White space of [String.prototype.trim] and of [\s], below 256:
    TAB, LF, VT, FF, CR, SPACE and NBSP. *)
Definition isWhiteSpace (c : ascii) : bool :=
  let n := nat_of_ascii c in
  (Nat.leb 9 n && Nat.leb n 13) || Nat.eqb n 32 || Nat.eqb n 160.

(** Lower-case mapping below 256: A-Z, and the Latin-1 capitals
    U+00C0-U+00DE except the multiplication sign U+00D7. *)
Definition toLowerChar (c : ascii) : ascii :=
  let n := nat_of_ascii c in
  if (Nat.leb 65 n && Nat.leb n 90)
     || (Nat.leb 192 n && Nat.leb n 222 && negb (Nat.eqb n 215))
  then ascii_of_nat (n + 32)
  else c.

Fixpoint toLowerCase (s : string) : string :=
  match s with
  | EmptyString => EmptyString
  | String c s' => String (toLowerChar c) (toLowerCase s')
  end.

Fixpoint trimStart (s : string) : string :=
  match s with
  | EmptyString => EmptyString
  | String c s' => if isWhiteSpace c then trimStart s' else s
  end.

Fixpoint trimEnd (s : string) : string :=
  match s with
  | EmptyString => EmptyString
  | String c s' =>
      match trimEnd s' with
      | EmptyString => if isWhiteSpace c then EmptyString else String c EmptyString
      | r => String c r
      end
  end.

Definition trim (s : string) : string := trimEnd (trimStart s).

(** [s.replace(/\s+/g, ' ')]: [inRun] tells that the previous character
    was white space, so that a run is replaced once. *)
Fixpoint replaceWsRuns (inRun : bool) (s : string) : string :=
  match s with
  | EmptyString => EmptyString
  | String c s' =>
      if isWhiteSpace c
      then if inRun then replaceWsRuns true s'
           else String " "%char (replaceWsRuns true s')
      else String c (replaceWsRuns false s')
  end.

Definition collapseWhitespace (s : string) : string := replaceWsRuns false s.

Definition startsWith (s p : string) : bool := String.prefix p s.

Fixpoint includesChar (c : ascii) (s : string) : bool :=
  match s with
  | EmptyString => false
  | String d s' => Ascii.eqb c d || includesChar c s'
  end.

(** The characters before the first [c], and what follows it if there is
    one: the two steps of [s.split(c)]. *)
Fixpoint beforeChar (c : ascii) (s : string) : string :=
  match s with
  | EmptyString => EmptyString
  | String d s' => if Ascii.eqb c d then EmptyString else String d (beforeChar c s')
  end.

Fixpoint afterChar (c : ascii) (s : string) : option string :=
  match s with
  | EmptyString => None
  | String d s' => if Ascii.eqb c d then Some s' else afterChar c s'
  end.

(** [s.split('@')[1]]: [undefined] ([None]) when [s] has no [@]. *)
Definition splitAt1 (s : string) : option string :=
  match afterChar "@"%char s with
  | None => None
  | Some rest => Some (beforeChar "@"%char rest)
  end.

(** [h.replace(/^www\./i, '')]. *)
Definition stripWww (h : string) : string :=
  match h with
  | String a (String b (String c (String d rest))) =>
      if Ascii.eqb (toLowerChar a) "w" && Ascii.eqb (toLowerChar b) "w"
         && Ascii.eqb (toLowerChar c) "w" && Ascii.eqb d "."
      then rest else h
  | _ => h
  end.

(** The characters of a string value (used once [typeof v === 'string']
    has been tested). *)
Definition asString (v : JsValue) : string :=
  match v with JStr s => s | _ => "" end.

Definition nonEmpty (s : string) : bool := negb (String.eqb s "").

(** ** Identity normaliser *)

Definition normalizeEmail (email : JsValue) : JsValue :=
  if negb (truthy email) || negb (isString email) then JNull
  else
    let trimmed := toLowerCase (trim (asString email)) in
    jsOr (JStr trimmed) JNull.

Definition normalizeName (name : JsValue) : JsValue :=
  if negb (truthy name) || negb (isString name) then JNull
  else
    let trimmed := collapseWhitespace (toLowerCase (trim (asString name))) in
    jsOr (JStr trimmed) JNull.

Section WithUrlParser.

(** [new URL(url).hostname]; [None] when the constructor throws. *)
Variable URL_hostname : string -> option string.

Definition extractDomainFromWebsiteOrEmail (website email : JsValue) : JsValue :=
  let fromEmail :=
    if truthy email && isString email && includesChar "@" (asString email)
    then
      match splitAt1 (asString email) with
      | Some part =>
          let domainPart := trim part in
          if nonEmpty domainPart
          then JStr (toLowerCase (stripWww domainPart))
          else JNull
      | None => JNull
      end
    else JNull in
  if truthy website && isString website then
    let value := trim (asString website) in
    if nonEmpty value then
      let url := if startsWith value "http" then value else "https://" +:+ value in
      match URL_hostname url with
      | Some hostname =>
          let host := stripWww hostname in
          if nonEmpty host then JStr (toLowerCase host) else fromEmail
      | None => fromEmail
      end
    else fromEmail
  else fromEmail.

(** ** Storage *)

(** A row of [prospects], with the columns [index.js] reads and writes. *)
Record Prospect : Type := mkProspect {
  pr_id : string;
  pr_sourceId : option string;
  pr_companyName : option string;
  pr_contactName : option string;
  pr_role : option string;
  pr_email : option string;
  pr_phone : option string;
  pr_website : option string;
  pr_tags : option string;
  pr_status : option string;
  pr_ownerName : option string;
  pr_archivedAt : option string;
  pr_normalizedEmail : option string;
  pr_normalizedDomain : option string;
  pr_normalizedContactName : option string;
  pr_origin : option string;
  pr_suppressedAt : option string;
  pr_createdAt : string;
  pr_updatedAt : option string;
  pr_lastContactedAt : option string
}.

(** A row of [prospect_notes]; [prospectId] REFERENCES [prospects(id)]
    ON DELETE CASCADE. *)
Record ProspectNote : Type := mkNote {
  note_id : string;
  note_prospectId : string;
  note_type : option string;
  note_note : string;
  note_createdAt : string
}.

Record Db : Type := mkDb {
  prospects : list Prospect;
  prospect_notes : list ProspectNote
}.

(** The setting [foreign_keys] of the connection.  [getDb] opens the
    database file with [new sqlite3.Database(dbPath)] and neither [db.js]
    nor [index.js] issues [PRAGMA foreign_keys = ON]; SQLite then leaves
    the FOREIGN KEY clauses of the schema unenforced. *)
Definition foreign_keys : bool := false.

(** The numbers the driver binds as INTEGER: those [Int32Value] gives
    back unchanged. *)
Definition isInt32 (z : Z) : bool :=
  ((-2147483648 <=? z) && (z <=? 2147483647))%Z.

Fixpoint dropTrailingZeros (s : string) : string :=
  match s with
  | EmptyString => EmptyString
  | String c rest =>
      match dropTrailingZeros rest with
      | EmptyString => if Ascii.eqb c "0" then EmptyString else String c EmptyString
      | rest' => String c rest'
      end
  end.

(** A REAL of integer value as a TEXT column stores it, the conversion
    [%!.15g] of SQLite: the digits and [.0] up to fifteen digits, beyond
    that fifteen significant digits (trailing zeros dropped) and the
    exponent. *)
Definition textOfReal (z : Z) : string :=
  let sign := if (z <? 0)%Z then "-" else "" in
  let digits := string_of_Z (Z.abs z) in
  let n := Z.of_nat (String.length digits) in
  if (n <=? 15)%Z
  then sign +:+ digits +:+ ".0"
  else
    let scale := (10 ^ (n - 15))%Z in
    let rounded := ((Z.abs z + scale / 2) / scale)%Z in
    let carry := (10 ^ 15 <=? rounded)%Z in
    let mantissa := if carry then (rounded / 10)%Z else rounded in
    let exponent := if carry then n else (n - 1)%Z in
    match string_of_Z mantissa with
    | String d frac =>
        sign +:+ String d "."
        +:+ (match dropTrailingZeros frac with EmptyString => "0" | f => f end)
        +:+ "e+" +:+ string_of_Z exponent
    | EmptyString => sign
    end.

(** The value the driver binds for a statement parameter, as a TEXT
    column stores it.  The driver binds a string as TEXT, a number as
    INTEGER when it is an int32 and as REAL otherwise, a boolean as the
    INTEGER 1 or 0, [null] as NULL, any other object (arrays included) as
    the TEXT [[object Object]], and leaves the parameter unbound (NULL) for
    [undefined]; the column then converts INTEGER and REAL to TEXT. *)
Definition sqlBind (v : JsValue) : option string :=
  match v with
  | JUndefined | JNull => None
  | JStr s => Some s
  | JBool true => Some "1"
  | JBool false => Some "0"
  | JNum z => Some (if isInt32 z then string_of_Z z else textOfReal z)
  | JArr _ | JObj _ => Some "[object Object]"
  end.

(** [column = ?]: never true on NULL. *)
Definition sqlEq (column : option string) (param : option string) : bool :=
  match column, param with
  | Some a, Some b => String.eqb a b
  | _, _ => false
  end.

(** Truthiness of a column value read back into JavaScript. *)
Definition truthyText (column : option string) : bool :=
  match column with
  | Some s => nonEmpty s
  | None => false
  end.

Definition hasId (i : string) (r : Prospect) : bool := String.eqb (pr_id r) i.

(** [SELECT * FROM prospects WHERE id = ?] *)
Definition getProspectById (db : Db) (i : string) : option Prospect :=
  List.find (hasId i) (prospects db).

(** [INSERT INTO prospects ...]: [None] when the PRIMARY KEY is taken. *)
Definition insertProspect (r : Prospect) (db : Db) : option Db :=
  match getProspectById db (pr_id r) with
  | Some _ => None
  | None => Some (mkDb (prospects db ++ [r]) (prospect_notes db))
  end.

(** [DELETE FROM prospects WHERE id = ?], with the number of rows changed.
    Under [fk] the ON DELETE CASCADE of [prospect_notes] removes the notes
    of the deleted rows. *)
Definition deleteProspectRows (fk : bool) (i : string) (db : Db) : Db * nat :=
  let kept := List.filter (fun r => negb (hasId i r)) (prospects db) in
  let changes := length (prospects db) - length kept in
  let notes :=
    if fk && negb (Nat.eqb changes 0)
    then List.filter (fun n => negb (String.eqb (note_prospectId n) i)) (prospect_notes db)
    else prospect_notes db in
  (mkDb kept notes, changes).

(** ** Responses *)

Inductive Body : Type :=
  | BError (error : string)
  | BDuplicate (existingId : string)
  | BRow (row : option Prospect)
  | BRows (rows : list Prospect)
  | BDeleted (deletedId : string).

(** [res_headers] are the headers the handler itself sets with [res.set]
    or [res.setHeader]. *)
Record Response : Type := mkResponse {
  res_status : nat;
  res_headers : list (string * string);
  res_body : Body
}.

Definition respond (code : nat) (b : Body) : Response := mkResponse code [] b.

(** ** Duplicate resolver *)

(** The columns [id, suppressedAt] of the first row the query selects. *)
Definition selectByEmail (db : Db) (e : JsValue) : option (string * option string) :=
  match List.find (fun r => sqlEq (pr_normalizedEmail r) (sqlBind e)) (prospects db) with
  | Some r => Some (pr_id r, pr_suppressedAt r)
  | None => None
  end.

Definition selectByDomainName (db : Db) (d n : JsValue) : option (string * option string) :=
  match List.find (fun r => sqlEq (pr_normalizedDomain r) (sqlBind d)
                            && sqlEq (pr_normalizedContactName r) (sqlBind n))
                  (prospects db) with
  | Some r => Some (pr_id r, pr_suppressedAt r)
  | None => None
  end.

Definition checkDuplicateProspect (db : Db)
    (normalizedEmail normalizedDomain normalizedContactName : JsValue)
    : option (string * option string) :=
  if truthy normalizedEmail then
    match selectByEmail db normalizedEmail with
    | Some row => Some row
    | None =>
        if truthy normalizedDomain && truthy normalizedContactName
        then selectByDomainName db normalizedDomain normalizedContactName
        else None
    end
  else if truthy normalizedDomain && truthy normalizedContactName
  then selectByDomainName db normalizedDomain normalizedContactName
  else None.

(** ** POST /prospects *)

Definition originOr (origin : JsValue) (dflt : string) : string :=
  if truthy origin && isString origin && nonEmpty (trim (asString origin))
  then trim (asString origin) else dflt.

Definition postProspect (id now : string) (body : JsValue) (db : Db) : Response * Db :=
  let b := jsOr body (JObj []) in
  let sourceId := getProp b "sourceId" in
  let companyName := getProp b "companyName" in
  let contactName := getProp b "contactName" in
  let role := getProp b "role" in
  let email := getProp b "email" in
  let phone := getProp b "phone" in
  let website := getProp b "website" in
  let tags := getProp b "tags" in
  let status := getProp b "status" in
  let ownerName := getProp b "ownerName" in
  let origin := getProp b "origin" in
  let tagsValue := if isArray tags then JStr (String_ tags) else jsOr tags JNull in
  let statusValue := jsOr status (JStr "uncontacted") in
  let normalizedEmail := normalizeEmail email in
  let normalizedDomain := extractDomainFromWebsiteOrEmail website email in
  let normalizedContactName := normalizeName contactName in
  let originValue := originOr origin "manual" in
  match checkDuplicateProspect db normalizedEmail normalizedDomain normalizedContactName with
  | Some existing => (respond 409 (BDuplicate (fst existing)), db)
  | None =>
      let row := {|
        pr_id := id;
        pr_sourceId := sqlBind (jsOr sourceId JNull);
        pr_companyName := sqlBind (jsOr companyName JNull);
        pr_contactName := sqlBind (jsOr contactName JNull);
        pr_role := sqlBind (jsOr role JNull);
        pr_email := sqlBind (jsOr email JNull);
        pr_phone := sqlBind (jsOr phone JNull);
        pr_website := sqlBind (jsOr website JNull);
        pr_tags := sqlBind tagsValue;
        pr_status := sqlBind statusValue;
        pr_ownerName := sqlBind (jsOr ownerName JNull);
        pr_archivedAt := None;
        pr_normalizedEmail := sqlBind normalizedEmail;
        pr_normalizedDomain := sqlBind normalizedDomain;
        pr_normalizedContactName := sqlBind normalizedContactName;
        pr_origin := Some originValue;
        pr_suppressedAt := None;
        pr_createdAt := now;
        pr_updatedAt := None;
        pr_lastContactedAt := None |} in
      match insertProspect row db with
      | None => (respond 500 (BError "Failed to create prospect"), db)
      | Some db' => (respond 201 (BRow (getProspectById db' id)), db')
      end
  end.

(** ** POST /sources/:sourceId/prospects/bulk *)

(** The text a template literal interpolates for a column value. *)
Definition textOf (column : option string) : string :=
  match column with Some s => s | None => "null" end.

Definition emailKey (e : string) : string := "email:" +:+ e.
Definition dnKey (d n : string) : string := "dn:" +:+ d +:+ ":" +:+ n.

(** One iteration of the loop over the rows of the snapshot query. *)
Definition snapshotRow (acc : gmap string string * gset string) (row : Prospect)
    : gmap string string * gset string :=
  let '(existingLookup, suppressedLookup) := acc in
  let '(existingLookup, suppressedLookup) :=
    if truthyText (pr_normalizedEmail row) then
      let key := emailKey (textOf (pr_normalizedEmail row)) in
      (<[key := pr_id row]> existingLookup,
       if truthyText (pr_suppressedAt row)
       then {[key]} ∪ suppressedLookup else suppressedLookup)
    else (existingLookup, suppressedLookup) in
  if truthyText (pr_normalizedDomain row) && truthyText (pr_normalizedContactName row)
  then
    let key := dnKey (textOf (pr_normalizedDomain row))
                     (textOf (pr_normalizedContactName row)) in
    (<[key := pr_id row]> existingLookup,
     if truthyText (pr_suppressedAt row)
     then {[key]} ∪ suppressedLookup else suppressedLookup)
  else (existingLookup, suppressedLookup).

Definition loadSnapshot (rows : list Prospect) : gmap string string * gset string :=
  fold_left snapshotRow rows (∅, ∅).

(** An element of [validProspects]. *)
Record ValidProspect : Type := mkValid {
  vp_id : string;
  vp_sourceId : JsValue;
  vp_companyName : JsValue;
  vp_contactName : JsValue;
  vp_role : JsValue;
  vp_email : JsValue;
  vp_phone : JsValue;
  vp_website : JsValue;
  vp_tags : JsValue;
  vp_status : JsValue;
  vp_ownerName : JsValue;
  vp_normalizedEmail : JsValue;
  vp_normalizedDomain : JsValue;
  vp_normalizedContactName : JsValue;
  vp_origin : JsValue
}.

Definition hasIdentifier (raw : JsValue) : bool :=
  let companyName := getProp raw "companyName" in
  let contactName := getProp raw "contactName" in
  let email := getProp raw "email" in
  (truthy companyName && nonEmpty (trim (String_ companyName)))
  || (truthy contactName && nonEmpty (trim (String_ contactName)))
  || (truthy email && nonEmpty (trim (String_ email))).

(** [normalizedEmail ? `email:${normalizedEmail}` : null] *)
Definition keyEmailOf (normalizedEmail : JsValue) : option string :=
  if truthy normalizedEmail then Some (emailKey (String_ normalizedEmail)) else None.

Definition keyDomainOf (normalizedDomain normalizedContactName : JsValue) : option string :=
  if truthy normalizedDomain && truthy normalizedContactName
  then Some (dnKey (String_ normalizedDomain) (String_ normalizedContactName))
  else None.

Definition keyEmail (raw : JsValue) : option string :=
  keyEmailOf (normalizeEmail (getProp raw "email")).

Definition keyDomain (raw : JsValue) : option string :=
  keyDomainOf
    (extractDomainFromWebsiteOrEmail (getProp raw "website") (getProp raw "email"))
    (normalizeName (getProp raw "contactName")).

(** [key && lookup.has(key)] for a Map and for a Set. *)
Definition mapHas (key : option string) (m : gmap string string) : bool :=
  match key with
  | Some k => bool_decide (is_Some (m !! k))
  | None => false
  end.

Definition setHas (key : option string) (s : gset string) : bool :=
  match key with
  | Some k => bool_decide (k ∈ s)
  | None => false
  end.

Definition setAdd (key : option string) (s : gset string) : gset string :=
  match key with
  | Some k => {[k]} ∪ s
  | None => s
  end.

Definition duplicateKey (existingLookup : gmap string string) (seen : gset string)
    (raw : JsValue) : bool :=
  mapHas (keyEmail raw) existingLookup
  || mapHas (keyDomain raw) existingLookup
  || setHas (keyEmail raw) seen
  || setHas (keyDomain raw) seen.

Definition suppressedHit (suppressedLookup : gset string) (raw : JsValue) : bool :=
  setHas (keyEmail raw) suppressedLookup
  || setHas (keyDomain raw) suppressedLookup.

(** The object pushed on [validProspects] for an admitted row. *)
Definition buildValid (id : string) (sourceId : string) (raw : JsValue) : ValidProspect :=
  let tags := getProp raw "tags" in
  let status := getProp raw "status" in
  let tagsString :=
    if isArray tags then JStr (String_ tags)
    else if isString tags then tags
    else JNull in
  let finalStatus :=
    if isString status && nonEmpty (trim (asString status))
    then trim (asString status) else "uncontacted" in
  {| vp_id := id;
     vp_sourceId := jsOr (JStr sourceId) JNull;
     vp_companyName := jsNullish (getProp raw "companyName") JNull;
     vp_contactName := jsNullish (getProp raw "contactName") JNull;
     vp_role := jsNullish (getProp raw "role") JNull;
     vp_email := jsNullish (getProp raw "email") JNull;
     vp_phone := jsNullish (getProp raw "phone") JNull;
     vp_website := jsNullish (getProp raw "website") JNull;
     vp_tags := tagsString;
     vp_status := JStr finalStatus;
     vp_ownerName := jsNullish (getProp raw "ownerName") JNull;
     vp_normalizedEmail := normalizeEmail (getProp raw "email");
     vp_normalizedDomain :=
       extractDomainFromWebsiteOrEmail (getProp raw "website") (getProp raw "email");
     vp_normalizedContactName := normalizeName (getProp raw "contactName");
     vp_origin := JStr (originOr (getProp raw "origin") "purchased") |}.

(** Whether the body of the loop reaches [validProspects.push] for [raw]. *)
Definition admits (existingLookup : gmap string string) (suppressedLookup : gset string)
    (seen : gset string) (raw : JsValue) : bool :=
  if negb (truthy raw) || negb (typeofObject raw) then false
  else if negb (hasIdentifier raw) then false
  else if duplicateKey existingLookup seen raw || suppressedHit suppressedLookup raw
  then false
  else true.

(** One iteration of [for (const raw of prospects)], on the pair
    ([seen], [validProspects]); [genId k] is the identifier drawn after [k]
    earlier draws. *)
Definition bulkStep (genId : nat -> string) (sourceId : string)
    (existingLookup : gmap string string) (suppressedLookup : gset string)
    (st : gset string * list ValidProspect) (raw : JsValue)
    : gset string * list ValidProspect :=
  let '(seen, validProspects) := st in
  if admits existingLookup suppressedLookup seen raw then
    let seen := setAdd (keyEmail raw) seen in
    let seen := setAdd (keyDomain raw) seen in
    let id := genId (List.length validProspects) in
    (seen, (validProspects ++ [buildValid id sourceId raw])%list)
  else st.

Definition bulkLoop (genId : nat -> string) (sourceId : string)
    (existingLookup : gmap string string) (suppressedLookup : gset string)
    (rows : list JsValue) : gset string * list ValidProspect :=
  fold_left (bulkStep genId sourceId existingLookup suppressedLookup) rows (∅, []).

(** The row [stmt.run] inserts for an element of [validProspects]. *)
Definition rowOfValid (now : string) (p : ValidProspect) : Prospect :=
  {| pr_id := vp_id p;
     pr_sourceId := sqlBind (vp_sourceId p);
     pr_companyName := sqlBind (vp_companyName p);
     pr_contactName := sqlBind (vp_contactName p);
     pr_role := sqlBind (vp_role p);
     pr_email := sqlBind (vp_email p);
     pr_phone := sqlBind (vp_phone p);
     pr_website := sqlBind (vp_website p);
     pr_tags := sqlBind (vp_tags p);
     pr_status := sqlBind (vp_status p);
     pr_ownerName := sqlBind (vp_ownerName p);
     pr_archivedAt := None;
     pr_normalizedEmail := sqlBind (vp_normalizedEmail p);
     pr_normalizedDomain := sqlBind (vp_normalizedDomain p);
     pr_normalizedContactName := sqlBind (vp_normalizedContactName p);
     pr_origin := sqlBind (vp_origin p);
     pr_suppressedAt := None;
     pr_createdAt := now;
     pr_updatedAt := None;
     pr_lastContactedAt := None |}.

(** [stmt.run(...)] is called without a callback: a failed insert changes
    nothing and does not reach the response. *)
Definition stmtRun (now : string) (db : Db) (p : ValidProspect) : Db :=
  match insertProspect (rowOfValid now p) db with
  | Some db' => db'
  | None => db
  end.

(** The order of a query result, as an insertion sort over the rows in
    storage order: [r] goes behind the rows it [follows] and in front of
    all others, so rows that tie stay in storage order. *)
Fixpoint insertBy {A : Type} (follows : A -> A -> bool) (r : A) (sorted : list A)
    : list A :=
  match sorted with
  | [] => [r]
  | x :: rest => if follows r x then x :: insertBy follows r rest else r :: sorted
  end.

Definition sortBy {A : Type} (follows : A -> A -> bool) (rows : list A) : list A :=
  fold_right (insertBy follows) [] rows.

(** [SELECT * FROM prospects WHERE id IN (...)].  The statement has no
    ORDER BY; SQLite looks the identifiers up in the index of the primary
    key and answers in the order of that index, by ascending [id]. *)
Definition selectByIds (ids : list string) (db : Db) : list Prospect :=
  sortBy (fun r x => String.ltb (pr_id x) (pr_id r))
         (List.filter (fun r => existsb (String.eqb (pr_id r)) ids) (prospects db)).

(** [validProspects] at the end of the loop, for a request that passes the
    array check. *)
Definition validProspectsOf (genId : nat -> string) (sourceId : string)
    (rows : list JsValue) (db : Db) : list ValidProspect :=
  let '(existingLookup, suppressedLookup) := loadSnapshot (prospects db) in
  snd (bulkLoop genId sourceId existingLookup suppressedLookup rows).

Definition postBulk (genId : nat -> string) (now : string) (sourceId : string)
    (body : JsValue) (db : Db) : Response * Db :=
  match getProp (jsOr body (JObj [])) "prospects" with
  | JArr [] => (respond 400 (BError "prospects array is required"), db)
  | JArr rows =>
      let validProspects := validProspectsOf genId sourceId rows db in
      match validProspects with
      | [] => (respond 400 (BError "No valid prospects to import"), db)
      | _ =>
          let db' := fold_left (stmtRun now) validProspects db in
          let ids := map vp_id validProspects in
          (respond 201 (BRows (selectByIds ids db')), db')
      end
  | _ => (respond 400 (BError "prospects array is required"), db)
  end.

End WithUrlParser.

(** ** GET /prospects *)

(** [v === '1'] *)
Definition isOne (v : JsValue) : bool :=
  match v with JStr s => String.eqb s "1" | _ => false end.

(** SQLite's LIKE folds the case of the ASCII letters only. *)
Definition likeFold (c : ascii) : ascii :=
  let n := nat_of_ascii c in
  if Nat.leb 65 n && Nat.leb n 90 then ascii_of_nat (n + 32) else c.

(** [text LIKE pattern]: [%] matches any run of characters, [_] any one. *)
Fixpoint likeMatch (pattern : string) : string -> bool :=
  match pattern with
  | EmptyString => fun text => String.eqb text ""
  | String c pattern' =>
      if Ascii.eqb c "%" then
        fix skip (text : string) : bool :=
          likeMatch pattern' text
          || match text with
             | EmptyString => false
             | String _ text' => skip text'
             end
      else fun text =>
        match text with
        | EmptyString => false
        | String d text' =>
            (Ascii.eqb c "_" || Ascii.eqb (likeFold c) (likeFold d))
            && likeMatch pattern' text'
        end
  end.

Definition sqlLike (column : option string) (pattern : string) : bool :=
  match column with
  | Some text => likeMatch pattern text
  | None => false
  end.

Definition isNull (column : option string) : bool :=
  match column with None => true | Some _ => false end.

(** A query value that is a string with a non-blank [trim()]. *)
Definition usable (v : JsValue) : bool :=
  truthy v && isString v && nonEmpty (trim (asString v)).

(** The conjunction of [whereClauses] for the query [q], on one row. *)
Definition whereClauses (q : JsValue) (r : Prospect) : bool :=
  let status := getProp q "status" in
  let sourceId := getProp q "sourceId" in
  let ownerName := getProp q "ownerName" in
  let search := getProp q "search" in
  let includeSuppressed := isOne (getProp q "suppressed") in
  let includeArchived := isOne (getProp q "archived") in
  (if includeArchived then negb (isNull (pr_archivedAt r)) else isNull (pr_archivedAt r))
  && (if includeSuppressed then negb (isNull (pr_suppressedAt r))
      else isNull (pr_suppressedAt r))
  && (if usable status
      then sqlEq (pr_status r) (Some (trim (asString status))) else true)
  && (if usable sourceId
      then sqlEq (pr_sourceId r) (Some (trim (asString sourceId))) else true)
  && (if usable ownerName
      then sqlEq (pr_ownerName r) (Some (trim (asString ownerName))) else true)
  && (if usable search
      then
        let like := "%" +:+ trim (asString search) +:+ "%" in
        sqlLike (pr_companyName r) like
        || sqlLike (pr_contactName r) like
        || sqlLike (pr_email r) like
      else true).

(** [ORDER BY createdAt DESC], as a stable insertion sort: [r], which
    comes before the rows of [sorted] in storage order, goes behind the
    rows that are newer and in front of those of the same [createdAt]. *)
Fixpoint insertDesc (r : Prospect) (sorted : list Prospect) : list Prospect :=
  match sorted with
  | [] => [r]
  | x :: rest =>
      if String.ltb (pr_createdAt r) (pr_createdAt x)
      then x :: insertDesc r rest
      else r :: sorted
  end.

Definition orderByCreatedAtDesc (rows : list Prospect) : list Prospect :=
  fold_right insertDesc [] rows.

Definition listProspects (q : JsValue) (db : Db) : list Prospect :=
  orderByCreatedAtDesc (List.filter (whereClauses q) (prospects db)).

Definition getProspects (q : JsValue) (db : Db) : Response :=
  respond 200 (BRows (listProspects q db)).

(** ** PATCH /prospects/:id/archive *)

Definition setArchivedAt (now : string) (r : Prospect) : Prospect :=
  {| pr_id := pr_id r;
     pr_sourceId := pr_sourceId r;
     pr_companyName := pr_companyName r;
     pr_contactName := pr_contactName r;
     pr_role := pr_role r;
     pr_email := pr_email r;
     pr_phone := pr_phone r;
     pr_website := pr_website r;
     pr_tags := pr_tags r;
     pr_status := pr_status r;
     pr_ownerName := pr_ownerName r;
     pr_archivedAt := Some now;
     pr_normalizedEmail := pr_normalizedEmail r;
     pr_normalizedDomain := pr_normalizedDomain r;
     pr_normalizedContactName := pr_normalizedContactName r;
     pr_origin := pr_origin r;
     pr_suppressedAt := pr_suppressedAt r;
     pr_createdAt := pr_createdAt r;
     pr_updatedAt := pr_updatedAt r;
     pr_lastContactedAt := pr_lastContactedAt r |}.

(** [UPDATE prospects SET archivedAt = datetime('now') WHERE id = ?] *)
Definition updateArchivedAt (now i : string) (db : Db) : Db * nat :=
  (mkDb (map (fun r => if hasId i r then setArchivedAt now r else r) (prospects db))
        (prospect_notes db),
   List.length (List.filter (hasId i) (prospects db))).

Definition patchArchive (now i : string) (db : Db) : Response * Db :=
  let '(db', changes) := updateArchivedAt now i db in
  if Nat.eqb changes 0
  then (respond 404 (BError "Prospect not found"), db')
  else (respond 200 (BRow (getProspectById db' i)), db').

(** ** DELETE /prospects/:id *)

Definition deleteProspect (i : string) (db : Db) : Response * Db :=
  match getProspectById db i with
  | None => (respond 404 (BError "Prospect not found"), db)
  | Some prospect =>
      if negb (truthyText (pr_archivedAt prospect))
      then (respond 400 (BError "Prospect must be archived before deletion"), db)
      else
        let '(db', changes) := deleteProspectRows foreign_keys i db in
        if Nat.eqb changes 0
        then (respond 404 (BError "Prospect not found"), db')
        else (respond 200 (BDeleted i), db')
  end.

(** The order of two sort keys, NULL below every value. *)
Definition keyLt (a b : option string) : bool :=
  match a, b with
  | None, Some _ => true
  | Some x, Some y => String.ltb x y
  | _, None => false
  end.

(** [getProspectNotes]: the notes of a prospect ([SELECT ... FROM
    prospect_notes WHERE prospectId = ? ORDER BY datetime(createdAt)
    DESC]).  The function [datetime] of SQLite is a parameter: the time
    value in the form [YYYY-MM-DD HH:MM:SS], [None] (NULL) for a text that
    is no time value. *)
Definition getProspectNotes (datetime : string -> option string) (db : Db)
    (prospectId : string) : list ProspectNote :=
  sortBy (fun n x => keyLt (datetime (note_createdAt n)) (datetime (note_createdAt x)))
         (List.filter (fun n => String.eqb (note_prospectId n) prospectId)
                      (prospect_notes db)).

(** ** A URL parser to run the model on examples

    The hostname of a URL of the shape [scheme://host] or
    [scheme://host/...], in lower case as the WHATWG parser returns it;
    [None] for any other input.  It instantiates [URL_hostname] in the
    examples of this file. *)
Fixpoint afterScheme (s : string) : option string :=
  match s with
  | EmptyString => None
  | String c s' =>
      match c, s' with
      | ":"%char, String "/" (String "/" rest) => Some rest
      | _, _ => afterScheme s'
      end
  end.

Definition hostnameOfSimpleUrl (url : string) : option string :=
  match afterScheme url with
  | Some rest =>
      let host := toLowerCase (beforeChar "/" rest) in
      if nonEmpty host then Some host else None
  | None => None
  end.

(** * Other handlers of [index.js] and helpers of [db.js] *)

(** ** PATCH /prospects/:id/restore, /suppress, /unsuppress *)

Definition withArchivedAt (v : option string) (r : Prospect) : Prospect :=
  {| pr_id := pr_id r;
     pr_sourceId := pr_sourceId r;
     pr_companyName := pr_companyName r;
     pr_contactName := pr_contactName r;
     pr_role := pr_role r;
     pr_email := pr_email r;
     pr_phone := pr_phone r;
     pr_website := pr_website r;
     pr_tags := pr_tags r;
     pr_status := pr_status r;
     pr_ownerName := pr_ownerName r;
     pr_archivedAt := v;
     pr_normalizedEmail := pr_normalizedEmail r;
     pr_normalizedDomain := pr_normalizedDomain r;
     pr_normalizedContactName := pr_normalizedContactName r;
     pr_origin := pr_origin r;
     pr_suppressedAt := pr_suppressedAt r;
     pr_createdAt := pr_createdAt r;
     pr_updatedAt := pr_updatedAt r;
     pr_lastContactedAt := pr_lastContactedAt r |}.

Definition withSuppressedAt (v : option string) (r : Prospect) : Prospect :=
  {| pr_id := pr_id r;
     pr_sourceId := pr_sourceId r;
     pr_companyName := pr_companyName r;
     pr_contactName := pr_contactName r;
     pr_role := pr_role r;
     pr_email := pr_email r;
     pr_phone := pr_phone r;
     pr_website := pr_website r;
     pr_tags := pr_tags r;
     pr_status := pr_status r;
     pr_ownerName := pr_ownerName r;
     pr_archivedAt := pr_archivedAt r;
     pr_normalizedEmail := pr_normalizedEmail r;
     pr_normalizedDomain := pr_normalizedDomain r;
     pr_normalizedContactName := pr_normalizedContactName r;
     pr_origin := pr_origin r;
     pr_suppressedAt := v;
     pr_createdAt := pr_createdAt r;
     pr_updatedAt := pr_updatedAt r;
     pr_lastContactedAt := pr_lastContactedAt r |}.

Definition withStatus (v : option string) (r : Prospect) : Prospect :=
  {| pr_id := pr_id r;
     pr_sourceId := pr_sourceId r;
     pr_companyName := pr_companyName r;
     pr_contactName := pr_contactName r;
     pr_role := pr_role r;
     pr_email := pr_email r;
     pr_phone := pr_phone r;
     pr_website := pr_website r;
     pr_tags := pr_tags r;
     pr_status := v;
     pr_ownerName := pr_ownerName r;
     pr_archivedAt := pr_archivedAt r;
     pr_normalizedEmail := pr_normalizedEmail r;
     pr_normalizedDomain := pr_normalizedDomain r;
     pr_normalizedContactName := pr_normalizedContactName r;
     pr_origin := pr_origin r;
     pr_suppressedAt := pr_suppressedAt r;
     pr_createdAt := pr_createdAt r;
     pr_updatedAt := pr_updatedAt r;
     pr_lastContactedAt := pr_lastContactedAt r |}.

(** [UPDATE prospects SET ... WHERE id = ?], with the number of rows
    changed. *)
Definition updateProspects (set : Prospect -> Prospect) (i : string) (db : Db) : Db * nat :=
  (mkDb (map (fun r => if hasId i r then set r else r) (prospects db))
        (prospect_notes db),
   List.length (List.filter (hasId i) (prospects db))).

(** The common end of the four PATCH handlers: 404 when no row changed,
    else the row read back with [getProspectById]. *)
Definition patchFlag (set : Prospect -> Prospect) (i : string) (db : Db) : Response * Db :=
  let '(db', changes) := updateProspects set i db in
  if Nat.eqb changes 0
  then (respond 404 (BError "Prospect not found"), db')
  else (respond 200 (BRow (getProspectById db' i)), db').

Definition patchRestore (i : string) (db : Db) : Response * Db :=
  patchFlag (withArchivedAt None) i db.

Definition patchSuppress (now i : string) (db : Db) : Response * Db :=
  patchFlag (withSuppressedAt (Some now)) i db.

Definition patchUnsuppress (i : string) (db : Db) : Response * Db :=
  patchFlag (withSuppressedAt None) i db.

(** ** PATCH /prospects/:id *)

Definition allowedStatuses : list string :=
  ["uncontacted"; "contacted"; "qualified"; "bad-fit"].

(** [list.includes(v)] for a list of strings: strict equality. *)
Definition includesValue (l : list string) (v : JsValue) : bool :=
  match v with
  | JStr s => existsb (String.eqb s) l
  | _ => false
  end.

(** [updateProspectStatus] of [db.js]: the updated row, or [null]. *)
Definition updateProspectStatus (i : string) (status : JsValue) (db : Db)
    : option Prospect * Db :=
  let '(db', changes) := updateProspects (withStatus (sqlBind status)) i db in
  if Nat.eqb changes 0 then (None, db')
  else (getProspectById db' i, db').

Definition patchProspect (i : string) (body : JsValue) (db : Db) : Response * Db :=
  let status := getProp (jsOr body (JObj [])) "status" in
  if negb (truthy status) || negb (isString status)
  then (respond 400 (BError "status is required"), db)
  else if negb (includesValue allowedStatuses status)
  then (respond 400 (BError "Invalid status value"), db)
  else
    match updateProspectStatus i status db with
    | (None, db') => (respond 404 (BError "Prospect not found"), db')
    | (Some updated, db') => (respond 200 (BRow (Some updated)), db')
    end.

(** ** Notes *)

(** A reply of a handler whose body is not a prospect. *)
Inductive Reply (A : Type) : Type :=
  | Json (code : nat) (value : A)
  | Failed (code : nat) (error : string).

Arguments Json {A} code value.
Arguments Failed {A} code error.

(** The columns [addProspectNote] and [getProspectNotes] select:
    [id, prospectId, note AS content, createdAt]. *)
Record NoteView : Type := mkNoteView {
  nv_id : string;
  nv_prospectId : string;
  nv_content : string;
  nv_createdAt : string
}.

Definition viewOfNote (n : ProspectNote) : NoteView :=
  mkNoteView (note_id n) (note_prospectId n) (note_note n) (note_createdAt n).

(** [addProspectNote] of [db.js]; [id] is the identifier it generates and
    [now] the default of [createdAt].  [None] when the INSERT is rejected
    (the PRIMARY KEY is taken); nothing looks the prospect up. *)
Definition addProspectNote (id now : string) (prospectId content : string) (db : Db)
    : option (option NoteView * Db) :=
  if existsb (fun n => String.eqb (note_id n) id) (prospect_notes db) then None
  else
    let n := mkNote id prospectId None content now in
    let db' := mkDb (prospects db) (prospect_notes db ++ [n]) in
    Some (option_map viewOfNote
            (List.find (fun m => String.eqb (note_id m) id) (prospect_notes db')),
          db').

(** [POST /prospects/:id/notes] *)
Definition postNote (id now : string) (prospectId : string) (body : JsValue) (db : Db)
    : Reply (option NoteView) * Db :=
  let content := getProp (jsOr body (JObj [])) "content" in
  if negb (truthy content) || negb (isString content)
     || negb (nonEmpty (trim (asString content)))
  then (Failed 400 "content is required", db)
  else
    match addProspectNote id now prospectId (trim (asString content)) db with
    | Some (note, db') => (Json 201 note, db')
    | None => (Failed 500 "Internal server error", db)
    end.

(** ** Social posts ([updateSocialPostStatus] of [db.js])

    The function reads and writes a column [sentAt]; the table
    [social_posts] as [db.js] creates it has [publishedAt] and no [sentAt].
    [sentAtColumn] says whether the table in use carries the column.
    Without it [existing.sentAt] is [undefined] and the UPDATE statement
    fails (no such column), which rejects the promise. *)

Record SocialPost : Type := mkSocialPost {
  sp_id : string;
  sp_campaignId : option string;
  sp_channel : option string;
  sp_content : string;
  sp_tone : option string;
  sp_scheduledFor : option string;
  sp_status : string;
  sp_publishedAt : option string;
  sp_createdAt : string;
  sp_sentAt : option string
}.

Definition validStatuses : list string := ["draft"; "scheduled"; "sent"; "archived"].

Definition setPostStatus (status : string) (sentAt : option string) (p : SocialPost)
    : SocialPost :=
  {| sp_id := sp_id p;
     sp_campaignId := sp_campaignId p;
     sp_channel := sp_channel p;
     sp_content := sp_content p;
     sp_tone := sp_tone p;
     sp_scheduledFor := sp_scheduledFor p;
     sp_status := status;
     sp_publishedAt := sp_publishedAt p;
     sp_createdAt := sp_createdAt p;
     sp_sentAt := sentAt |}.

Definition postHasId (i : string) (p : SocialPost) : bool := String.eqb (sp_id p) i.

(** The promise [updateSocialPostStatus] returns. *)
Inductive StatusUpdate : Type :=
  | RejectedInvalidStatus
  | RejectedUpdateErr
  | Resolved (row : option SocialPost).

Definition updateSocialPostStatus (sentAtColumn : bool) (nowIso : string) (i : string)
    (status : string) (posts : list SocialPost) : StatusUpdate * list SocialPost :=
  if negb (existsb (String.eqb status) validStatuses)
  then (RejectedInvalidStatus, posts)
  else
    match List.find (postHasId i) posts with
    | None => (Resolved None, posts)
    | Some existing =>
        let existingSentAt := if sentAtColumn then sp_sentAt existing else None in
        let nextSentAt :=
          if String.eqb status "sent" && negb (truthyText existingSentAt)
          then Some nowIso
          else if truthyText existingSentAt then existingSentAt else None in
        if negb sentAtColumn
        then (RejectedUpdateErr, posts)
        else
          let posts' :=
            map (fun p => if postHasId i p then setPostStatus status nextSentAt p else p)
                posts in
          (Resolved (List.find (postHasId i) posts'), posts')
    end.

(** [PATCH /social-posts/:id] *)
Definition patchSocialPost (sentAtColumn : bool) (nowIso : string) (i : string)
    (body : JsValue) (posts : list SocialPost) : Reply SocialPost * list SocialPost :=
  let status := getProp (jsOr body (JObj [])) "status" in
  if negb (truthy status) || negb (isString status)
  then (Failed 400 "status is required", posts)
  else
    match updateSocialPostStatus sentAtColumn nowIso i (asString status) posts with
    | (RejectedInvalidStatus, posts') =>
        (Failed 400 "Invalid status value for social post", posts')
    | (RejectedUpdateErr, posts') => (Failed 500 "Internal server error", posts')
    | (Resolved None, posts') => (Failed 404 "Social post not found", posts')
    | (Resolved (Some updated), posts') => (Json 200 updated, posts')
    end.

(** ** Sources ([updateSourceIcp] of [db.js], PATCH /sources/:id) *)

Record Source : Type := mkSource {
  src_id : string;
  src_name : string;
  src_type : option string;
  src_description : option string;
  src_metadata : option string;
  src_createdAt : string;
  src_targetIndustry : option string;
  src_companySize : option string;
  src_roleFocus : option string;
  src_mainAngle : option string
}.

(** [Object.prototype.hasOwnProperty.call(o, k)] *)
Definition hasOwn (o : JsValue) (k : string) : bool :=
  match o with
  | JObj props => existsb (fun kv => String.eqb k (fst kv)) props
  | _ => false
  end.

(** The value of one column after the UPDATE: [icpFields.k ?? null] when
    [icpFields] has the property, the old value otherwise. *)
Definition icpColumn (icpFields : JsValue) (k : string) (old : option string)
    : option string :=
  if hasOwn icpFields k then sqlBind (jsNullish (getProp icpFields k) JNull) else old.

Definition setIcp (icpFields : JsValue) (s : Source) : Source :=
  {| src_id := src_id s;
     src_name := src_name s;
     src_type := src_type s;
     src_description := src_description s;
     src_metadata := src_metadata s;
     src_createdAt := src_createdAt s;
     src_targetIndustry := icpColumn icpFields "targetIndustry" (src_targetIndustry s);
     src_companySize := icpColumn icpFields "companySize" (src_companySize s);
     src_roleFocus := icpColumn icpFields "roleFocus" (src_roleFocus s);
     src_mainAngle := icpColumn icpFields "mainAngle" (src_mainAngle s) |}.

Definition sourceHasId (i : string) (s : Source) : bool := String.eqb (src_id s) i.

Definition icpKeys : list string :=
  ["targetIndustry"; "companySize"; "roleFocus"; "mainAngle"].

(** The row the callback receives, or [null]. *)
Definition updateSourceIcp (i : string) (icpFields : JsValue) (sources : list Source)
    : option Source * list Source :=
  if negb (existsb (hasOwn icpFields) icpKeys) then (None, sources)
  else
    let sources' :=
      map (fun s => if sourceHasId i s then setIcp icpFields s else s) sources in
    if Nat.eqb (List.length (List.filter (sourceHasId i) sources)) 0
    then (None, sources')
    else (List.find (sourceHasId i) sources', sources').

(** The object [icpFields] the handler builds from the body. *)
Definition icpFieldsOf (body : JsValue) : JsValue :=
  let b := jsOr body (JObj []) in
  JObj (omap (fun k => if hasOwn b k then Some (k, getProp b k) else None) icpKeys).

Definition patchSource (i : string) (body : JsValue) (sources : list Source)
    : Reply Source * list Source :=
  let icpFields := icpFieldsOf body in
  match icpFields with
  | JObj [] => (Failed 400 "No ICP fields provided", sources)
  | _ =>
      match updateSourceIcp i icpFields sources with
      | (None, sources') => (Failed 404 "Source not found", sources')
      | (Some updated, sources') => (Json 200 updated, sources')
      end
  end.

(** ** Enrichment preview ([buildHeuristicPreview], the branch without an
    OpenAI client, and the merge of an AI answer) *)

Fixpoint includes (s needle : string) : bool :=
  String.prefix needle s
  || match s with
     | EmptyString => false
     | String _ s' => includes s' needle
     end.

(** [column || null] and [column || ''] *)
Definition orNull (column : option string) : option string :=
  if truthyText column then column else None.

Definition orEmpty (column : option string) : string :=
  if truthyText column then textOf column else "".

(** [v && String(v).trim() !== ''] for a column value. *)
Definition nonBlank (column : option string) : bool :=
  truthyText column && nonEmpty (trim (textOf column)).

Record Preview : Type := mkPreview {
  pv_prospectId : string;
  pv_companyName : option string;
  pv_contactName : option string;
  pv_email : option string;
  pv_website : option string;
  pv_status : option string;
  pv_fitScore : Z;
  pv_fitLabel : string;
  pv_primaryPain : string;
  pv_summary : string
}.

Definition loweredTags (p : Prospect) : string :=
  toLowerCase (orEmpty (pr_tags p) +:+ " " +:+ orEmpty (pr_companyName p)
               +:+ " " +:+ orEmpty (pr_role p)).

Definition heuristicScore (p : Prospect) : Z :=
  let lower := loweredTags p in
  let fitScore := 40%Z in
  let fitScore := if nonBlank (orNull (pr_email p)) then (fitScore + 20)%Z else fitScore in
  let fitScore := if nonBlank (pr_phone p) then (fitScore + 10)%Z else fitScore in
  let fitScore := if nonBlank (orNull (pr_website p)) then (fitScore + 10)%Z else fitScore in
  let fitScore :=
    if includes lower "agency" || includes lower "marketing" then (fitScore + 10)%Z
    else if includes lower "consult" || includes lower "advisory" then (fitScore + 10)%Z
    else if includes lower "account" || includes lower "finance" then (fitScore + 10)%Z
    else fitScore in
  let fitScore := if (fitScore <? 0)%Z then 0%Z else fitScore in
  if (100 <? fitScore)%Z then 100%Z else fitScore.

Definition labelOfScore (fitScore : Z) : string :=
  if (80 <=? fitScore)%Z then "hot"
  else if (60 <=? fitScore)%Z then "warm"
  else if (fitScore <? 40)%Z then "cold"
  else "cool".

Definition heuristicPain (p : Prospect) : string :=
  let lower := loweredTags p in
  if includes lower "agency" || includes lower "marketing"
  then "Juggling too many clients and campaigns manually."
  else if includes lower "account" || includes lower "finance"
  then "Heavy admin around invoices, statements, and reconciliations."
  else if includes lower "consult" || includes lower "advisory"
  then "Lots of meetings and follow-ups that don't turn into structured actions."
  else "Too much manual work in sales, operations, and follow-up.".

Definition buildHeuristicPreview (p : Prospect) : Preview :=
  let fitScore := heuristicScore p in
  let fitLabel := labelOfScore fitScore in
  let primaryPain := heuristicPain p in
  let nameForSummary :=
    if truthyText (orNull (pr_companyName p))
    then textOf (pr_companyName p) else "This company" in
  {| pv_prospectId := pr_id p;
     pv_companyName := orNull (pr_companyName p);
     pv_contactName := orNull (pr_contactName p);
     pv_email := orNull (pr_email p);
     pv_website := orNull (pr_website p);
     pv_status := orNull (pr_status p);
     pv_fitScore := fitScore;
     pv_fitLabel := fitLabel;
     pv_primaryPain := primaryPain;
     pv_summary :=
       nameForSummary +:+ " looks like a " +:+ fitLabel +:+ " fit. "
       +:+ "They likely suffer from: " +:+ primaryPain +:+ " "
       +:+ "AI-led automation and better workflows could free time and create cleaner follow-up." |}.

(** [SELECT * FROM prospects WHERE sourceId = ? AND suppressedAt IS NULL
    ORDER BY createdAt DESC] *)
Definition enrichmentProspects (sourceId : string) (db : Db) : list Prospect :=
  orderByCreatedAtDesc
    (List.filter (fun r => sqlEq (pr_sourceId r) (Some sourceId) && isNull (pr_suppressedAt r))
                 (prospects db)).

(** [POST /ai/sources/:sourceId/enrich-preview] when no OpenAI client is
    configured. *)
Definition enrichPreviewHeuristic (sourceId : string) (db : Db) : list Preview :=
  map buildHeuristicPreview (enrichmentProspects sourceId db).

(** A preview after the merge with the parsed answer of the model, whose
    label, pain and summary are whatever JSON values the answer carries. *)
Record MergedPreview : Type := mkMerged {
  mp_prospectId : string;
  mp_companyName : option string;
  mp_contactName : option string;
  mp_email : option string;
  mp_website : option string;
  mp_status : option string;
  mp_fitScore : Z;
  mp_fitLabel : JsValue;
  mp_primaryPain : JsValue;
  mp_summary : JsValue
}.

(** [item && item.prospectId === id] *)
Definition aiItemFor (i : string) (item : JsValue) : bool :=
  truthy item
  && match getProp item "prospectId" with
     | JStr s => String.eqb s i
     | _ => false
     end.

Definition mergePreview (aiPreviews : list JsValue) (p : Prospect) : MergedPreview :=
  let fallback := buildHeuristicPreview p in
  match List.find (aiItemFor (pr_id p)) aiPreviews with
  | None =>
      mkMerged (pv_prospectId fallback) (pv_companyName fallback) (pv_contactName fallback)
        (pv_email fallback) (pv_website fallback) (pv_status fallback)
        (pv_fitScore fallback) (JStr (pv_fitLabel fallback))
        (JStr (pv_primaryPain fallback)) (JStr (pv_summary fallback))
  | Some ai =>
      let fitScore :=
        match getProp ai "fitScore" with
        | JNum z => Z.min (Z.max z 0) 100
        | _ => pv_fitScore fallback
        end in
      mkMerged (pr_id p) (orNull (pr_companyName p)) (orNull (pr_contactName p))
        (orNull (pr_email p)) (orNull (pr_website p)) (orNull (pr_status p))
        fitScore
        (jsOr (getProp ai "fitLabel") (JStr (pv_fitLabel fallback)))
        (jsOr (getProp ai "primaryPain") (JStr (pv_primaryPain fallback)))
        (jsOr (getProp ai "summary") (JStr (pv_summary fallback)))
  end.

Definition mergeAiPreviews (aiPreviews : list JsValue) (prospects : list Prospect)
    : list MergedPreview :=
  map (mergePreview aiPreviews) prospects.

(** ** [buildUrlFromDomain] *)

(** [/^https?:\/\//i.test(d)] *)
Definition hasHttpScheme (d : string) : bool :=
  String.prefix "http://" (toLowerCase d) || String.prefix "https://" (toLowerCase d).

(** [None] when [domain.trim] is not a function (a truthy value that is not
    a string). *)
Definition buildUrlFromDomain (domain : JsValue) : option JsValue :=
  if negb (truthy domain) then Some JNull
  else
    match domain with
    | JStr s =>
        let d := trim s in
        if negb (nonEmpty d) then Some JNull
        else if negb (hasHttpScheme d) then Some (JStr ("https://" +:+ d))
        else Some (JStr d)
    | _ => None
    end.

(** * Vocabulary of the properties

    Predicates in which the properties below are stated, and the tables and
    requests of the examples. *)

(** A string that does not begin, respectively end, with white space. *)
Definition headOk (s : string) : bool :=
  match s with
  | EmptyString => true
  | String c _ => negb (isWhiteSpace c)
  end.

Fixpoint lastOk (s : string) : bool :=
  match s with
  | EmptyString => true
  | String c s' =>
      match s' with
      | EmptyString => negb (isWhiteSpace c)
      | String _ _ => lastOk s'
      end
  end.

(** Every white-space character of [s] is a single SPACE that follows a
    character which is not white space ([prevWs] stands for the character
    before [s]). *)
Fixpoint singleSpaces (prevWs : bool) (s : string) : bool :=
  match s with
  | EmptyString => true
  | String c s' =>
      if isWhiteSpace c
      then Ascii.eqb c " " && negb prevWs && singleSpaces true s'
      else singleSpaces false s'
  end.

(** The match of the specification between the identity key material of a
    candidate and an existing row: the normalized email is present and
    equal to the row's, or the normalized domain and contact name are both
    present and equal to the row's pair. *)
Definition emailMatches (normalizedEmail : JsValue) (r : Prospect) : bool :=
  truthy normalizedEmail && sqlEq (pr_normalizedEmail r) (sqlBind normalizedEmail).

Definition domainNameMatches (normalizedDomain normalizedContactName : JsValue)
    (r : Prospect) : bool :=
  truthy normalizedDomain && truthy normalizedContactName
  && sqlEq (pr_normalizedDomain r) (sqlBind normalizedDomain)
  && sqlEq (pr_normalizedContactName r) (sqlBind normalizedContactName).

Definition identityMatches (normalizedEmail normalizedDomain normalizedContactName : JsValue)
    (r : Prospect) : bool :=
  emailMatches normalizedEmail r
  || domainNameMatches normalizedDomain normalizedContactName r.

Section Candidate.

Variable URL_hostname : string -> option string.

(** The identity key material [POST /prospects] computes from a body. *)
Definition bodyEmail (body : JsValue) : JsValue :=
  normalizeEmail (getProp (jsOr body (JObj [])) "email").

Definition bodyDomain (body : JsValue) : JsValue :=
  extractDomainFromWebsiteOrEmail URL_hostname
    (getProp (jsOr body (JObj [])) "website") (getProp (jsOr body (JObj [])) "email").

Definition bodyContactName (body : JsValue) : JsValue :=
  normalizeName (getProp (jsOr body (JObj [])) "contactName").

Definition candidateMatches (body : JsValue) (r : Prospect) : bool :=
  identityMatches (bodyEmail body) (bodyDomain body) (bodyContactName body) r.

End Candidate.

(** A field that is absent ([undefined]), [null] or the empty string. *)
Definition absentOrEmpty (v : JsValue) : bool :=
  match v with
  | JUndefined | JNull => true
  | JStr s => String.eqb s ""
  | _ => false
  end.

(** The row [POST /prospects] inserts for a body without identity
    material. *)
Definition anonymousRow (id now : string) (body : JsValue) : Prospect :=
  let b := jsOr body (JObj []) in
  let tags := getProp b "tags" in
  {| pr_id := id;
     pr_sourceId := sqlBind (jsOr (getProp b "sourceId") JNull);
     pr_companyName := sqlBind (jsOr (getProp b "companyName") JNull);
     pr_contactName := None;
     pr_role := sqlBind (jsOr (getProp b "role") JNull);
     pr_email := None;
     pr_phone := sqlBind (jsOr (getProp b "phone") JNull);
     pr_website := None;
     pr_tags := sqlBind (if isArray tags then JStr (String_ tags) else jsOr tags JNull);
     pr_status := sqlBind (jsOr (getProp b "status") (JStr "uncontacted"));
     pr_ownerName := sqlBind (jsOr (getProp b "ownerName") JNull);
     pr_archivedAt := None;
     pr_normalizedEmail := None;
     pr_normalizedDomain := None;
     pr_normalizedContactName := None;
     pr_origin := Some (originOr (getProp b "origin") "manual");
     pr_suppressedAt := None;
     pr_createdAt := now;
     pr_updatedAt := None;
     pr_lastContactedAt := None |}.

(** A table with one prospect, Jane Doe of acme.com, not suppressed and not
    archived. *)
Definition janeRow : Prospect :=
  {| pr_id := "pros_jane";
     pr_sourceId := None;
     pr_companyName := Some "Acme";
     pr_contactName := Some "Jane Doe";
     pr_role := None;
     pr_email := Some "jane@acme.com";
     pr_phone := None;
     pr_website := None;
     pr_tags := None;
     pr_status := Some "uncontacted";
     pr_ownerName := None;
     pr_archivedAt := None;
     pr_normalizedEmail := Some "jane@acme.com";
     pr_normalizedDomain := Some "acme.com";
     pr_normalizedContactName := Some "jane doe";
     pr_origin := Some "manual";
     pr_suppressedAt := None;
     pr_createdAt := "2025-01-01 09:00:00";
     pr_updatedAt := None;
     pr_lastContactedAt := None |}.

Definition janeDb : Db := mkDb [janeRow] [].

(** A second Jane Doe of acme.com, with an email of her own. *)
Definition otherJane : JsValue :=
  JObj [("contactName", JStr "Jane Doe"); ("email", JStr "j.doe@acme.com")].

(** The keys under which the snapshot loop files a row. *)
Definition rowKeyEmail (r : Prospect) : option string :=
  if truthyText (pr_normalizedEmail r)
  then Some (emailKey (textOf (pr_normalizedEmail r))) else None.

Definition rowKeyDomain (r : Prospect) : option string :=
  if truthyText (pr_normalizedDomain r) && truthyText (pr_normalizedContactName r)
  then Some (dnKey (textOf (pr_normalizedDomain r)) (textOf (pr_normalizedContactName r)))
  else None.

Definition addKey (key : option string) (i : string) (m : gmap string string)
    : gmap string string :=
  match key with Some k => <[k := i]> m | None => m end.

(** The shape of the values the normalisers return. *)
Definition isNormalized (v : JsValue) : bool :=
  match v with JNull | JStr _ => true | _ => false end.

Definition vpKeyEmail (p : ValidProspect) : option string :=
  keyEmailOf (vp_normalizedEmail p).

Definition vpKeyDomain (p : ValidProspect) : option string :=
  keyDomainOf (vp_normalizedDomain p) (vp_normalizedContactName p).

Definition vpHasKey (p : ValidProspect) (k : string) : Prop :=
  vpKeyEmail p = Some k \/ vpKeyDomain p = Some k.

Definition vpNormalized (p : ValidProspect) : Prop :=
  isNormalized (vp_normalizedEmail p) = true
  /\ isNormalized (vp_normalizedDomain p) = true
  /\ isNormalized (vp_normalizedContactName p) = true.

(** What the loop maintains between [seen] and [validProspects]. *)
Record LoopInv (genId : nat -> string) (existingLookup : gmap string string)
    (suppressedLookup : gset string) (st : gset string * list ValidProspect) : Prop := {
  inv_seen : forall p k, In p (snd st) -> vpHasKey p k -> k ∈ fst st;
  inv_free : forall p k, In p (snd st) -> vpHasKey p k ->
    existingLookup !! k = None /\ (k ∉ suppressedLookup);
  inv_distinct : forall i j p q k,
    i < j -> (snd st) !! i = Some p -> (snd st) !! j = Some q ->
    vpHasKey p k -> vpHasKey q k -> False;
  inv_shape : forall p, In p (snd st) -> vpNormalized p;
  inv_ids : forall i p, (snd st) !! i = Some p -> vp_id p = genId i
}.

Definition rowHasKey (r : Prospect) (k : string) : Prop :=
  rowKeyEmail r = Some k \/ rowKeyDomain r = Some k.

(** Two rows share an identity key: an email key or a domain+name key, in
    the shapes of the snapshot. *)
Definition sharesKey (r1 r2 : Prospect) : Prop :=
  exists k, rowHasKey r1 k /\ rowHasKey r2 k.

(** The rows a batch inserts. *)
Definition admittedRows (URL_hostname : string -> option string) (genId : nat -> string)
    (now sourceId : string) (rows : list JsValue) (db : Db) : list Prospect :=
  map (rowOfValid now) (validProspectsOf URL_hostname genId sourceId rows db).


(** A table with one suppressed prospect, Jane Doe of acme.com. *)
Definition suppressedJane : Prospect :=
  {| pr_id := "pros_jane";
     pr_sourceId := None;
     pr_companyName := Some "Acme";
     pr_contactName := Some "Jane Doe";
     pr_role := None;
     pr_email := None;
     pr_phone := None;
     pr_website := Some "acme.com";
     pr_tags := None;
     pr_status := Some "uncontacted";
     pr_ownerName := None;
     pr_archivedAt := None;
     pr_normalizedEmail := None;
     pr_normalizedDomain := Some "acme.com";
     pr_normalizedContactName := Some "jane doe";
     pr_origin := Some "manual";
     pr_suppressedAt := Some "2025-02-01 10:00:00";
     pr_createdAt := "2025-01-01 09:00:00";
     pr_updatedAt := None;
     pr_lastContactedAt := None |}.

Definition acmeRow : JsValue :=
  JObj [("website", JStr "https://www.ACME.com"); ("contactName", JStr "Jane   Doe")].

(** Three prospects: one active, one archived, one suppressed. *)
Definition plainRow (i createdAt : string) (archivedAt suppressedAt : option string)
    : Prospect :=
  {| pr_id := i;
     pr_sourceId := None;
     pr_companyName := None;
     pr_contactName := None;
     pr_role := None;
     pr_email := None;
     pr_phone := None;
     pr_website := None;
     pr_tags := None;
     pr_status := Some "uncontacted";
     pr_ownerName := None;
     pr_archivedAt := archivedAt;
     pr_normalizedEmail := None;
     pr_normalizedDomain := None;
     pr_normalizedContactName := None;
     pr_origin := Some "manual";
     pr_suppressedAt := suppressedAt;
     pr_createdAt := createdAt;
     pr_updatedAt := None;
     pr_lastContactedAt := None |}.

Definition mixedDb : Db :=
  mkDb [plainRow "pros_1" "2025-01-01 09:00:00" None None;
        plainRow "pros_2" "2025-01-02 09:00:00" (Some "2025-01-05 09:00:00") None;
        plainRow "pros_3" "2025-01-03 09:00:00" None (Some "2025-01-06 09:00:00")]
       [].

(** Jane Doe with one note. *)
Definition janeNote : ProspectNote :=
  {| note_id := "note_1";
     note_prospectId := "pros_jane";
     note_type := None;
     note_note := "Called, no answer";
     note_createdAt := "2025-01-02 09:00:00" |}.

Definition notedDb : Db := mkDb [janeRow] [janeNote].

(** A string made of white space only. *)
Fixpoint allWhite (s : string) : bool :=
  match s with
  | EmptyString => true
  | String c s' => isWhiteSpace c && allWhite s'
  end.

(** A string without the character [:]. *)
Definition colonFree (s : string) : bool := negb (includesChar ":" s).

(** A change of a prospect row that keeps its identifier and its three
    identity columns, as the lifecycle handlers make. *)
Definition keepsIdentity (f : Prospect -> Prospect) : Prop :=
  forall r, pr_id (f r) = pr_id r
            /\ pr_normalizedEmail (f r) = pr_normalizedEmail r
            /\ pr_normalizedDomain (f r) = pr_normalizedDomain r
            /\ pr_normalizedContactName (f r) = pr_normalizedContactName r.

(** The table after one of the four lifecycle actions on the prospect
    [i]. *)
Inductive Lifecycle : Type :=
  | Archive (now : string)
  | Restore
  | Suppress (now : string)
  | Unsuppress.

Definition applyLifecycle (a : Lifecycle) (i : string) (db : Db) : Response * Db :=
  match a with
  | Archive now => patchArchive now i db
  | Restore => patchRestore i db
  | Suppress now => patchSuppress now i db
  | Unsuppress => patchUnsuppress i db
  end.

Definition lifecycleSet (a : Lifecycle) : Prospect -> Prospect :=
  match a with
  | Archive now => setArchivedAt now
  | Restore => withArchivedAt None
  | Suppress now => withSuppressedAt (Some now)
  | Unsuppress => withSuppressedAt None
  end.

(** A sequence of calls [updateSocialPostStatus(id, status)], each with the
    time [nowIso] it reads. *)
Definition runStatusUpdates (sentAtColumn : bool)
    (updates : list (string * string * string)) (posts : list SocialPost)
    : list SocialPost :=
  fold_left (fun ps u => snd (updateSocialPostStatus sentAtColumn
                                (fst (fst u)) (snd (fst u)) (snd u) ps))
            updates posts.

(** A post that was sent. *)
Definition sentPost : SocialPost :=
  mkSocialPost "post_1" None (Some "linkedin") "Hello" None None "sent" None
               "2025-01-01 09:00:00" (Some "2025-01-02T10:00:00.000Z").

(** A list in which no element [follows] the one after it. *)
Fixpoint orderedBy {A : Type} (follows : A -> A -> bool) (l : list A) : bool :=
  match l with
  | x :: (y :: _) as rest => negb (follows x y) && orderedBy follows rest
  | _ => true
  end.



(** * Properties *)



(** ** Characters and strings *)

Lemma toLowerChar_idem (c : ascii) : toLowerChar (toLowerChar c) = toLowerChar c.
Proof. destruct c as [[] [] [] [] [] [] [] []]; reflexivity. Qed.

Lemma isWhiteSpace_toLowerChar (c : ascii) :
  isWhiteSpace (toLowerChar c) = isWhiteSpace c.
Proof. destruct c as [[] [] [] [] [] [] [] []]; reflexivity. Qed.

Lemma toLowerCase_idem (s : string) : toLowerCase (toLowerCase s) = toLowerCase s.
Proof.
  induction s as [|c s IH]; simpl; [reflexivity|].
  now rewrite toLowerChar_idem, IH.
Qed.

Lemma trimStart_toLowerCase (s : string) :
  trimStart (toLowerCase s) = toLowerCase (trimStart s).
Proof.
  induction s as [|c s IH]; simpl; [reflexivity|].
  rewrite isWhiteSpace_toLowerChar.
  destruct (isWhiteSpace c); [exact IH | reflexivity].
Qed.

Lemma trimEnd_toLowerCase (s : string) :
  trimEnd (toLowerCase s) = toLowerCase (trimEnd s).
Proof.
  induction s as [|c s IH]; simpl; [reflexivity|].
  rewrite IH, isWhiteSpace_toLowerChar.
  destruct (trimEnd s); simpl; [|reflexivity].
  destruct (isWhiteSpace c); reflexivity.
Qed.

Lemma trim_toLowerCase (s : string) : trim (toLowerCase s) = toLowerCase (trim s).
Proof. unfold trim. now rewrite trimStart_toLowerCase, trimEnd_toLowerCase. Qed.

Lemma trimStart_headOk (s : string) : headOk (trimStart s) = true.
Proof.
  induction s as [|c s IH]; simpl; [reflexivity|].
  destruct (isWhiteSpace c) eqn:E; [exact IH|].
  simpl. now rewrite E.
Qed.

Lemma trimStart_id (s : string) : headOk s = true -> trimStart s = s.
Proof.
  destruct s as [|c s]; simpl; [reflexivity|].
  now destruct (isWhiteSpace c).
Qed.

Lemma trimEnd_headOk (s : string) : headOk s = true -> headOk (trimEnd s) = true.
Proof.
  destruct s as [|c s]; simpl; [reflexivity|].
  intros H. destruct (trimEnd s); simpl; [|exact H].
  destruct (isWhiteSpace c) eqn:Ec; [discriminate|].
  simpl. now rewrite Ec.
Qed.

Lemma trimEnd_lastOk (s : string) : lastOk (trimEnd s) = true.
Proof.
  induction s as [|c s IH]; simpl; [reflexivity|].
  destruct (trimEnd s) as [|a r] eqn:E.
  - destruct (isWhiteSpace c) eqn:Ec; simpl; [reflexivity | now rewrite Ec].
  - exact IH.
Qed.

Lemma trimEnd_id (s : string) : lastOk s = true -> trimEnd s = s.
Proof.
  induction s as [|c s IH]; [reflexivity|].
  intros H. cbn [trimEnd]. destruct s as [|a r].
  - simpl in *. now destruct (isWhiteSpace c).
  - rewrite IH by exact H. reflexivity.
Qed.

Lemma trim_id (s : string) : headOk s = true -> lastOk s = true -> trim s = s.
Proof.
  intros Hh Hl. unfold trim. rewrite (trimStart_id _ Hh). now apply trimEnd_id.
Qed.

Lemma trim_headOk (s : string) : headOk (trim s) = true.
Proof. apply trimEnd_headOk, trimStart_headOk. Qed.

Lemma trim_lastOk (s : string) : lastOk (trim s) = true.
Proof. apply trimEnd_lastOk. Qed.

Lemma trim_idem (s : string) : trim (trim s) = trim s.
Proof. apply trim_id; [apply trim_headOk | apply trim_lastOk]. Qed.

Lemma replaceWsRuns_toLowerCase (b : bool) (s : string) :
  replaceWsRuns b (toLowerCase s) = toLowerCase (replaceWsRuns b s).
Proof.
  revert b. induction s as [|c s IH]; intros b; simpl; [reflexivity|].
  rewrite isWhiteSpace_toLowerChar.
  destruct (isWhiteSpace c), b; simpl; now rewrite IH.
Qed.

Lemma replaceWsRuns_singleSpaces (b : bool) (s : string) :
  singleSpaces b (replaceWsRuns b s) = true.
Proof.
  revert b. induction s as [|c s IH]; intros b; simpl; [reflexivity|].
  destruct (isWhiteSpace c) eqn:Ec.
  - destruct b; [apply IH|]. simpl. apply IH.
  - simpl. rewrite Ec. apply IH.
Qed.

Lemma replaceWsRuns_id (b : bool) (s : string) :
  singleSpaces b s = true -> replaceWsRuns b s = s.
Proof.
  revert b. induction s as [|c s IH]; intros b; simpl; [reflexivity|].
  destruct (isWhiteSpace c).
  - intros H. apply andb_prop in H as [H H3]. apply andb_prop in H as [H1 H2].
    apply Ascii.eqb_eq in H1. subst c.
    destruct b; [discriminate|]. now rewrite IH.
  - intros H. now rewrite IH.
Qed.

Lemma collapseWhitespace_idem (s : string) :
  collapseWhitespace (collapseWhitespace s) = collapseWhitespace s.
Proof. apply replaceWsRuns_id, replaceWsRuns_singleSpaces. Qed.

Lemma replaceWsRuns_headOk (s : string) :
  headOk s = true -> headOk (replaceWsRuns false s) = true.
Proof.
  destruct s as [|c s]; simpl; [reflexivity|].
  destruct (isWhiteSpace c) eqn:Ec; [discriminate|].
  simpl. now rewrite Ec.
Qed.

Lemma replaceWsRuns_lastOk (b : bool) (s : string) :
  s <> EmptyString -> lastOk s = true ->
  replaceWsRuns b s <> EmptyString /\ lastOk (replaceWsRuns b s) = true.
Proof.
  revert b. induction s as [|c s IH]; intros b Hne Hl; [congruence|].
  destruct s as [|a r].
  - simpl in Hl. simpl. destruct (isWhiteSpace c) eqn:Ec; [discriminate|].
    split; [discriminate|]. simpl. now rewrite Ec.
  - assert (Hs : forall b', replaceWsRuns b' (String a r) <> EmptyString
                            /\ lastOk (replaceWsRuns b' (String a r)) = true).
    { intros b'. apply IH; [discriminate | exact Hl]. }
    clear IH Hl Hne. remember (String a r) as s' eqn:Es'. clear Es'. simpl.
    destruct (isWhiteSpace c).
    + destruct b; [apply Hs|].
      destruct (Hs true) as [Hn Ho]. split; [discriminate|].
      simpl. destruct (replaceWsRuns true s'); [congruence | exact Ho].
    + destruct (Hs false) as [Hn Ho]. split; [discriminate|].
      simpl. destruct (replaceWsRuns false s'); [congruence | exact Ho].
Qed.

Lemma trim_collapseWhitespace (s : string) :
  trim (collapseWhitespace (trim s)) = collapseWhitespace (trim s).
Proof.
  destruct (trim s) as [|c u] eqn:E; [reflexivity|].
  apply trim_id.
  - apply replaceWsRuns_headOk. rewrite <- E. apply trim_headOk.
  - apply replaceWsRuns_lastOk; [discriminate|]. rewrite <- E. apply trim_lastOk.
Qed.

Lemma nonEmpty_false (s : string) : nonEmpty s = false -> s = "".
Proof. unfold nonEmpty. destruct s; [reflexivity | discriminate]. Qed.

(** ** Identity normaliser *)

Lemma normalizeEmail_not_string (x : JsValue) :
  isString x = false -> normalizeEmail x = JNull.
Proof. intros H. unfold normalizeEmail. rewrite H. now rewrite orb_true_r. Qed.

Lemma normalizeName_not_string (x : JsValue) :
  isString x = false -> normalizeName x = JNull.
Proof. intros H. unfold normalizeName. rewrite H. now rewrite orb_true_r. Qed.

Lemma normalizeEmail_string (s : string) :
  normalizeEmail (JStr s) =
  if nonEmpty (toLowerCase (trim s)) then JStr (toLowerCase (trim s)) else JNull.
Proof.
  unfold normalizeEmail, jsOr, nonEmpty. simpl.
  destruct s as [|c s]; [reflexivity|]. reflexivity.
Qed.

Lemma normalizeName_string (s : string) :
  normalizeName (JStr s) =
  if nonEmpty (collapseWhitespace (toLowerCase (trim s)))
  then JStr (collapseWhitespace (toLowerCase (trim s))) else JNull.
Proof.
  unfold normalizeName, jsOr, nonEmpty. simpl.
  destruct s as [|c s]; [reflexivity|]. reflexivity.
Qed.

Lemma normalizeEmail_idem (x : JsValue) :
  normalizeEmail (normalizeEmail x) = normalizeEmail x.
Proof.
  destruct (isString x) eqn:Hs;
    [| now rewrite (normalizeEmail_not_string x Hs)].
  destruct x as [| |b|z|s|l|o]; try discriminate.
  rewrite normalizeEmail_string.
  destruct (nonEmpty (toLowerCase (trim s))) eqn:E; [|reflexivity].
  rewrite normalizeEmail_string.
  rewrite trim_toLowerCase, trim_idem, toLowerCase_idem, E. reflexivity.
Qed.

Lemma normalizeName_idem (x : JsValue) :
  normalizeName (normalizeName x) = normalizeName x.
Proof.
  destruct (isString x) eqn:Hs;
    [| now rewrite (normalizeName_not_string x Hs)].
  destruct x as [| |b|z|s|l|o]; try discriminate.
  rewrite normalizeName_string.
  destruct (nonEmpty (collapseWhitespace (toLowerCase (trim s)))) eqn:E; [|reflexivity].
  rewrite normalizeName_string.
  assert (Hfix : collapseWhitespace
                   (toLowerCase (trim (collapseWhitespace (toLowerCase (trim s)))))
                 = collapseWhitespace (toLowerCase (trim s))).
  { rewrite <- (trim_toLowerCase s), trim_collapseWhitespace.
    unfold collapseWhitespace. rewrite <- replaceWsRuns_toLowerCase.
    rewrite <- trim_toLowerCase, toLowerCase_idem.
    apply collapseWhitespace_idem. }
  rewrite Hfix, E. reflexivity.
Qed.

(** C7. [normalizeEmail] and [normalizeName] are idempotent on every
    JavaScript value, and both return [null] on a value that is not a
    string and on the empty string.  (Both are total: they are functions
    of the model.) *)
Theorem normalizers_idempotent_and_null (x : JsValue) :
  normalizeEmail (normalizeEmail x) = normalizeEmail x
  /\ normalizeName (normalizeName x) = normalizeName x
  /\ (isString x = false \/ x = JStr "" ->
      normalizeEmail x = JNull /\ normalizeName x = JNull).
Proof.
  split; [apply normalizeEmail_idem|]. split; [apply normalizeName_idem|].
  intros [Hs| ->]; [|split; reflexivity].
  split; [now apply normalizeEmail_not_string | now apply normalizeName_not_string].
Qed.

(** ** Duplicate resolver *)

Section Resolver.

Variables (db : Db) (ne nd nn : JsValue).

Lemma selectByEmail_some (row : string * option string) :
  selectByEmail db ne = Some row ->
  exists r, In r (prospects db) /\ sqlEq (pr_normalizedEmail r) (sqlBind ne) = true
            /\ row = (pr_id r, pr_suppressedAt r).
Proof.
  unfold selectByEmail. intros H.
  destruct (List.find _ _) as [r|] eqn:E; [|discriminate].
  apply find_some in E as [Hin Heq]. exists r. now inversion H.
Qed.

Lemma selectByEmail_none (r : Prospect) :
  selectByEmail db ne = None -> In r (prospects db) ->
  sqlEq (pr_normalizedEmail r) (sqlBind ne) = false.
Proof.
  unfold selectByEmail. intros H Hin.
  destruct (List.find _ _) as [r'|] eqn:E; [discriminate|].
  exact (find_none _ _ E r Hin).
Qed.

Lemma selectByDomainName_some (row : string * option string) :
  selectByDomainName db nd nn = Some row ->
  exists r, In r (prospects db)
            /\ sqlEq (pr_normalizedDomain r) (sqlBind nd) = true
            /\ sqlEq (pr_normalizedContactName r) (sqlBind nn) = true
            /\ row = (pr_id r, pr_suppressedAt r).
Proof.
  unfold selectByDomainName. intros H.
  destruct (List.find _ _) as [r|] eqn:E; [|discriminate].
  apply find_some in E as [Hin Heq]. apply andb_prop in Heq as [H1 H2].
  exists r. now inversion H.
Qed.

Lemma selectByDomainName_none (r : Prospect) :
  selectByDomainName db nd nn = None -> In r (prospects db) ->
  sqlEq (pr_normalizedDomain r) (sqlBind nd)
  && sqlEq (pr_normalizedContactName r) (sqlBind nn) = false.
Proof.
  unfold selectByDomainName. intros H Hin.
  destruct (List.find _ _) as [r'|] eqn:E; [discriminate|].
  exact (find_none _ _ E r Hin).
Qed.

(** A row returned by the resolver is a row of the table that matches. *)
Lemma checkDuplicateProspect_some (row : string * option string) :
  checkDuplicateProspect db ne nd nn = Some row ->
  exists r, In r (prospects db) /\ identityMatches ne nd nn r = true
            /\ row = (pr_id r, pr_suppressedAt r).
Proof.
  unfold checkDuplicateProspect, identityMatches, emailMatches, domainNameMatches.
  intros H.
  assert (Hdn : (if truthy nd && truthy nn then selectByDomainName db nd nn else None)
                = Some row ->
                exists r, In r (prospects db)
                  /\ truthy nd && truthy nn
                     && sqlEq (pr_normalizedDomain r) (sqlBind nd)
                     && sqlEq (pr_normalizedContactName r) (sqlBind nn) = true
                  /\ row = (pr_id r, pr_suppressedAt r)).
  { destruct (truthy nd && truthy nn); [|discriminate]. intros H'.
    apply selectByDomainName_some in H' as (r & Hin & H1 & H2 & ->).
    exists r. simpl. now rewrite H1, H2. }
  destruct (truthy ne).
  - destruct (selectByEmail db ne) as [row'|] eqn:E.
    + inversion H; subst row'.
      apply selectByEmail_some in E as (r & Hin & H1 & ->).
      exists r. simpl. now rewrite H1.
    + apply Hdn in H as (r & Hin & H1 & ->). exists r. rewrite H1.
      now rewrite orb_true_r.
  - apply Hdn in H as (r & Hin & H1 & ->). exists r. now rewrite H1.
Qed.

(** The resolver finds nothing exactly when no row matches. *)
Lemma checkDuplicateProspect_none (r : Prospect) :
  checkDuplicateProspect db ne nd nn = None -> In r (prospects db) ->
  identityMatches ne nd nn r = false.
Proof.
  unfold checkDuplicateProspect, identityMatches, emailMatches, domainNameMatches.
  intros H Hin.
  assert (Hdn : (if truthy nd && truthy nn then selectByDomainName db nd nn else None)
                = None ->
                truthy nd && truthy nn
                && sqlEq (pr_normalizedDomain r) (sqlBind nd)
                && sqlEq (pr_normalizedContactName r) (sqlBind nn) = false).
  { destruct (truthy nd && truthy nn); [|reflexivity]. intros H'.
    simpl. now apply selectByDomainName_none. }
  destruct (truthy ne); simpl.
  - destruct (selectByEmail db ne) as [row'|] eqn:E; [discriminate|].
    rewrite (selectByEmail_none r E Hin). simpl. now apply Hdn.
  - now apply Hdn.
Qed.

Lemma checkDuplicateProspect_match (r : Prospect) :
  In r (prospects db) -> identityMatches ne nd nn r = true ->
  exists existing, In existing (prospects db)
    /\ identityMatches ne nd nn existing = true
    /\ checkDuplicateProspect db ne nd nn
       = Some (pr_id existing, pr_suppressedAt existing).
Proof.
  intros Hin Hm.
  destruct (checkDuplicateProspect db ne nd nn) as [row|] eqn:E.
  - apply checkDuplicateProspect_some in E as (r' & Hin' & Hm' & ->).
    now exists r'.
  - rewrite (checkDuplicateProspect_none r E Hin) in Hm. discriminate.
Qed.

End Resolver.

(** ** Single create *)

Section SingleCreate.

Variable URL_hostname : string -> option string.

Lemma postProspect_duplicate (id now : string) (body : JsValue) (db : Db)
    (row : string * option string) :
  checkDuplicateProspect db (bodyEmail body) (bodyDomain URL_hostname body) (bodyContactName body)
  = Some row ->
  postProspect URL_hostname id now body db = (respond 409 (BDuplicate (fst row)), db).
Proof.
  intros H. unfold postProspect. cbv zeta.
  unfold bodyEmail, bodyDomain, bodyContactName in H. now rewrite H.
Qed.

Lemma postProspect_conflict (id now : string) (body : JsValue) (db : Db) (r : Prospect) :
  In r (prospects db) -> candidateMatches URL_hostname body r = true ->
  exists existing, In existing (prospects db)
    /\ candidateMatches URL_hostname body existing = true
    /\ postProspect URL_hostname id now body db
       = (respond 409 (BDuplicate (pr_id existing)), db).
Proof.
  intros Hin Hm.
  destruct (checkDuplicateProspect_match db _ _ _ r Hin Hm) as (ex & Hin' & Hm' & Hc).
  exists ex. split; [exact Hin'|]. split; [exact Hm'|].
  now rewrite (postProspect_duplicate id now body db _ Hc).
Qed.

(** C2. A single create whose identity key material matches an existing
    row, suppressed or not, answers 409 with the identifier of an existing
    row that matches and leaves the tables unchanged; in particular a row
    whose normalized email is [a@b.com] makes a create with the email
    [A@B.com ] (capitals, trailing blank) answer 409. *)
Theorem single_create_conflict (id now : string) (body : JsValue) (db : Db) :
  (forall r, In r (prospects db) -> candidateMatches URL_hostname body r = true ->
     exists existing, In existing (prospects db)
       /\ candidateMatches URL_hostname body existing = true
       /\ postProspect URL_hostname id now body db
          = (respond 409 (BDuplicate (pr_id existing)), db))
  /\ (forall r, In r (prospects db) ->
        pr_normalizedEmail r = Some "a@b.com" ->
        getProp (jsOr body (JObj [])) "email" = JStr "A@B.com " ->
        res_status (fst (postProspect URL_hostname id now body db)) = 409
        /\ snd (postProspect URL_hostname id now body db) = db).
Proof.
  split; [intros r; apply postProspect_conflict|].
  intros r Hin He Hb.
  assert (Hm : candidateMatches URL_hostname body r = true).
  { unfold candidateMatches, identityMatches, emailMatches, bodyEmail.
    rewrite Hb, He. reflexivity. }
  destruct (postProspect_conflict id now body db r Hin Hm) as (ex & _ & _ & ->).
  split; reflexivity.
Qed.

Lemma absentOrEmpty_falsy (v : JsValue) : absentOrEmpty v = true -> truthy v = false.
Proof.
  destruct v as [| |b|z|s|l|o]; simpl; try discriminate; try reflexivity.
  now intros ->.
Qed.

Lemma normalizeEmail_falsy (v : JsValue) : truthy v = false -> normalizeEmail v = JNull.
Proof. intros H. unfold normalizeEmail. now rewrite H. Qed.

Lemma normalizeName_falsy (v : JsValue) : truthy v = false -> normalizeName v = JNull.
Proof. intros H. unfold normalizeName. now rewrite H. Qed.

Lemma extractDomain_falsy (website email : JsValue) :
  truthy website = false -> truthy email = false ->
  extractDomainFromWebsiteOrEmail URL_hostname website email = JNull.
Proof. intros Hw He. unfold extractDomainFromWebsiteOrEmail. now rewrite Hw, He. Qed.

Lemma sqlBind_jsOr_falsy (v : JsValue) :
  truthy v = false -> sqlBind (jsOr v JNull) = None.
Proof. intros H. unfold jsOr. now rewrite H. Qed.

Lemma find_app_fresh (f : Prospect -> bool) (l : list Prospect) (x : Prospect) :
  List.find f l = None -> f x = true -> List.find f (l ++ [x])%list = Some x.
Proof.
  induction l as [|y l IH]; simpl; intros Hn Hx; [now rewrite Hx|].
  destruct (f y); [discriminate | now apply IH].
Qed.

Lemma postProspect_anonymous (id now : string) (body : JsValue) (db : Db) :
  absentOrEmpty (getProp (jsOr body (JObj [])) "email") = true ->
  absentOrEmpty (getProp (jsOr body (JObj [])) "contactName") = true ->
  absentOrEmpty (getProp (jsOr body (JObj [])) "website") = true ->
  getProspectById db id = None ->
  postProspect URL_hostname id now body db
  = (respond 201 (BRow (Some (anonymousRow id now body))),
     mkDb (prospects db ++ [anonymousRow id now body]) (prospect_notes db)).
Proof.
  intros He Hc Hw Hfresh.
  apply absentOrEmpty_falsy in He, Hc, Hw.
  unfold postProspect. cbv zeta.
  rewrite (normalizeEmail_falsy _ He), (normalizeName_falsy _ Hc),
    (extractDomain_falsy _ _ Hw He).
  rewrite (sqlBind_jsOr_falsy _ He), (sqlBind_jsOr_falsy _ Hc),
    (sqlBind_jsOr_falsy _ Hw).
  cbn [checkDuplicateProspect truthy sqlBind].
  fold (anonymousRow id now body).
  unfold insertProspect. cbn [pr_id anonymousRow]. rewrite Hfresh.
  unfold getProspectById. cbn [prospects].
  rewrite find_app_fresh; [reflexivity | exact Hfresh |].
  unfold hasId. cbn [pr_id anonymousRow]. apply String.eqb_refl.
Qed.

Lemma find_app_none (f : Prospect -> bool) (l : list Prospect) (x : Prospect) :
  List.find f l = None -> f x = false -> List.find f (l ++ [x])%list = None.
Proof.
  induction l as [|y l IH]; simpl; intros Hn Hx; [now rewrite Hx|].
  destruct (f y); [discriminate | now apply IH].
Qed.

(** C10. A single create whose email, contact name and website are absent
    or empty (whatever the company name) is not rejected: with a fresh
    identifier it answers 201 and appends a row whose three identity
    columns are NULL, and a repetition of the same request appends a
    second such row. *)
Theorem single_create_without_identity
    (id1 id2 now1 now2 : string) (body : JsValue) (db : Db) :
  absentOrEmpty (getProp (jsOr body (JObj [])) "email") = true ->
  absentOrEmpty (getProp (jsOr body (JObj [])) "contactName") = true ->
  absentOrEmpty (getProp (jsOr body (JObj [])) "website") = true ->
  getProspectById db id1 = None ->
  getProspectById db id2 = None ->
  id1 <> id2 ->
  exists row1 row2 db1 db2,
    postProspect URL_hostname id1 now1 body db = (respond 201 (BRow (Some row1)), db1)
    /\ postProspect URL_hostname id2 now2 body db1 = (respond 201 (BRow (Some row2)), db2)
    /\ prospects db1 = (prospects db ++ [row1])%list
    /\ prospects db2 = (prospects db ++ [row1; row2])%list
    /\ pr_id row1 = id1 /\ pr_id row2 = id2
    /\ pr_normalizedEmail row1 = None /\ pr_normalizedDomain row1 = None
    /\ pr_normalizedContactName row1 = None
    /\ pr_normalizedEmail row2 = None /\ pr_normalizedDomain row2 = None
    /\ pr_normalizedContactName row2 = None.
Proof.
  intros He Hc Hw Hf1 Hf2 Hne.
  exists (anonymousRow id1 now1 body), (anonymousRow id2 now2 body).
  exists (mkDb (prospects db ++ [anonymousRow id1 now1 body]) (prospect_notes db)).
  exists (mkDb (prospects db ++ [anonymousRow id1 now1 body; anonymousRow id2 now2 body])
               (prospect_notes db)).
  split; [now apply postProspect_anonymous|].
  split.
  - rewrite postProspect_anonymous; try assumption.
    + cbn [prospects prospect_notes]. now rewrite <- app_assoc.
    + unfold getProspectById. cbn [prospects].
      apply find_app_none; [exact Hf2|].
      unfold hasId. cbn [pr_id anonymousRow]. now apply String.eqb_neq.
  - repeat split; reflexivity.
Qed.

(** C1 (the code departs from it). The candidate [otherJane] has a
    normalized email that no row of [janeDb] carries, and collides with the
    existing row on the pair (domain, contact name) only.  The single
    create answers 409 with the identifier of the existing row and inserts
    nothing; the bulk import admits no row and answers 400. *)
Theorem domain_name_collision_blocks_unique_email (id now sourceId : string)
    (genId : nat -> string) :
  bodyEmail otherJane = JStr "j.doe@acme.com"
  /\ emailMatches (bodyEmail otherJane) janeRow = false
  /\ domainNameMatches (bodyDomain URL_hostname otherJane) (bodyContactName otherJane) janeRow = true
  /\ postProspect URL_hostname id now otherJane janeDb
     = (respond 409 (BDuplicate "pros_jane"), janeDb)
  /\ validProspectsOf URL_hostname genId sourceId [otherJane] janeDb = []
  /\ postBulk URL_hostname genId now sourceId
       (JObj [("prospects", JArr [otherJane])]) janeDb
     = (respond 400 (BError "No valid prospects to import"), janeDb).
Proof. repeat split; vm_compute; reflexivity. Qed.

End SingleCreate.

Lemma single_create_without_identity_witness :
  exists row1 row2 db1 db2,
    postProspect hostnameOfSimpleUrl "pros_a" "t1" (JObj [("companyName", JStr "")])
                 (mkDb [] [])
    = (respond 201 (BRow (Some row1)), db1)
    /\ postProspect hostnameOfSimpleUrl "pros_b" "t2" (JObj [("companyName", JStr "")]) db1
       = (respond 201 (BRow (Some row2)), db2)
    /\ prospects db1 = [row1]
    /\ prospects db2 = [row1; row2].
Proof.
  destruct (single_create_without_identity hostnameOfSimpleUrl "pros_a" "pros_b" "t1" "t2"
              (JObj [("companyName", JStr "")]) (mkDb [] []))
    as (r1 & r2 & d1 & d2 & H1 & H2 & H3 & H4 & _);
    try reflexivity; try discriminate.
  exists r1, r2, d1, d2. repeat split; assumption.
Defined.

(** ** Bulk import: the snapshot *)

Lemma snapshotRow_fst (ex : gmap string string) (su : gset string) (row : Prospect) :
  fst (snapshotRow (ex, su) row)
  = addKey (rowKeyDomain row) (pr_id row) (addKey (rowKeyEmail row) (pr_id row) ex).
Proof.
  unfold snapshotRow, rowKeyEmail, rowKeyDomain.
  destruct (truthyText (pr_normalizedEmail row));
    destruct (truthyText (pr_normalizedDomain row)
              && truthyText (pr_normalizedContactName row)); reflexivity.
Qed.

Lemma snapshotRow_snd (ex : gmap string string) (su : gset string) (row : Prospect) :
  snd (snapshotRow (ex, su) row)
  = if truthyText (pr_suppressedAt row)
    then setAdd (rowKeyDomain row) (setAdd (rowKeyEmail row) su)
    else su.
Proof.
  unfold snapshotRow, rowKeyEmail, rowKeyDomain.
  destruct (truthyText (pr_normalizedEmail row));
    destruct (truthyText (pr_normalizedDomain row)
              && truthyText (pr_normalizedContactName row));
    destruct (truthyText (pr_suppressedAt row)); reflexivity.
Qed.

Lemma addKey_mono (key : option string) (i k : string) (m : gmap string string) :
  is_Some (m !! k) -> is_Some (addKey key i m !! k).
Proof.
  destruct key as [k'|]; simpl; [|trivial].
  intros H. apply lookup_insert_is_Some'. now right.
Qed.

Lemma addKey_here (k i : string) (m : gmap string string) :
  is_Some (addKey (Some k) i m !! k).
Proof. simpl. rewrite lookup_insert_eq. eauto. Qed.

Lemma setAdd_mono (key : option string) (k : string) (s : gset string) :
  k ∈ s -> k ∈ setAdd key s.
Proof. destruct key; simpl; set_solver. Qed.

Lemma setAdd_here (k : string) (s : gset string) : k ∈ setAdd (Some k) s.
Proof. simpl. set_solver. Qed.

Lemma snapshot_mono (rows : list Prospect) (acc : gmap string string * gset string)
    (k : string) :
  (is_Some (fst acc !! k) -> is_Some (fst (fold_left snapshotRow rows acc) !! k))
  /\ (k ∈ snd acc -> k ∈ snd (fold_left snapshotRow rows acc)).
Proof.
  revert acc. induction rows as [|row rows IH]; intros [ex su]; simpl; [tauto|].
  destruct (IH (snapshotRow (ex, su) row)) as [IH1 IH2]. split; intros H.
  - apply IH1. rewrite snapshotRow_fst. now do 2 apply addKey_mono.
  - apply IH2. rewrite snapshotRow_snd.
    destruct (truthyText (pr_suppressedAt row)); [|exact H].
    now do 2 apply setAdd_mono.
Qed.

(** Every key of every existing row is in [existingLookup], and in
    [suppressedLookup] when the row is suppressed. *)
Lemma snapshot_complete (rows : list Prospect) (acc : gmap string string * gset string)
    (r : Prospect) (k : string) :
  In r rows -> rowKeyEmail r = Some k \/ rowKeyDomain r = Some k ->
  is_Some (fst (fold_left snapshotRow rows acc) !! k)
  /\ (truthyText (pr_suppressedAt r) = true ->
      k ∈ snd (fold_left snapshotRow rows acc)).
Proof.
  revert acc. induction rows as [|row rows IH]; intros [ex su]; simpl; [tauto|].
  intros [->|Hin] Hk; [|now apply IH].
  destruct (snapshot_mono rows (snapshotRow (ex, su) r) k) as [M1 M2].
  split.
  - apply M1. rewrite snapshotRow_fst. destruct Hk as [Hk|Hk]; rewrite Hk.
    + apply addKey_mono, addKey_here.
    + apply addKey_here.
  - intros Hs. apply M2. rewrite snapshotRow_snd, Hs.
    destruct Hk as [Hk|Hk]; rewrite Hk.
    + apply setAdd_mono, setAdd_here.
    + apply setAdd_here.
Qed.

(** ** Bulk import: the loop *)

Lemma normalizeEmail_normalized (x : JsValue) : isNormalized (normalizeEmail x) = true.
Proof.
  unfold normalizeEmail, jsOr.
  destruct (negb (truthy x) || negb (isString x)); [reflexivity|].
  now destruct (truthy _).
Qed.

Lemma normalizeName_normalized (x : JsValue) : isNormalized (normalizeName x) = true.
Proof.
  unfold normalizeName, jsOr.
  destruct (negb (truthy x) || negb (isString x)); [reflexivity|].
  now destruct (truthy _).
Qed.

Lemma extractDomain_normalized (U : string -> option string) (website email : JsValue) :
  isNormalized (extractDomainFromWebsiteOrEmail U website email) = true.
Proof.
  unfold extractDomainFromWebsiteOrEmail.
  repeat match goal with
         | |- context [if ?b then _ else _] => destruct b
         | |- context [match ?o with Some _ => _ | None => _ end] => destruct o
         end; reflexivity.
Qed.

Lemma mapHas_false (k : string) (m : gmap string string) :
  mapHas (Some k) m = false -> m !! k = None.
Proof.
  simpl. intros H. apply bool_decide_eq_false in H.
  destruct (m !! k) eqn:E; [|reflexivity]. exfalso. apply H. eauto.
Qed.

Lemma setHas_false (k : string) (s : gset string) :
  setHas (Some k) s = false -> k ∉ s.
Proof. simpl. intros H. now apply bool_decide_eq_false in H. Qed.

Section BulkLoop.

Variable URL_hostname : string -> option string.
Variable genId : nat -> string.
Variable sourceId : string.
Variable existingLookup : gmap string string.
Variable suppressedLookup : gset string.

Local Abbreviation step :=
  (bulkStep URL_hostname genId sourceId existingLookup suppressedLookup).

Lemma LoopInv_init : LoopInv genId existingLookup suppressedLookup (∅, []).
Proof.
  split; simpl; try tauto.
  - intros i j p q k _ H. now rewrite lookup_nil in H.
  - intros i p H. now rewrite lookup_nil in H.
Qed.

(** What the test before [validProspects.push] establishes. *)
Lemma admits_keys (seen : gset string) (raw : JsValue) (k : string) :
  admits URL_hostname existingLookup suppressedLookup seen raw = true ->
  keyEmail raw = Some k \/ keyDomain URL_hostname raw = Some k ->
  existingLookup !! k = None /\ (k ∉ suppressedLookup) /\ (k ∉ seen).
Proof.
  unfold admits, duplicateKey, suppressedHit. intros H Hk.
  destruct (negb (truthy raw) || negb (typeofObject raw)); [discriminate|].
  destruct (negb (hasIdentifier raw)); [discriminate|].
  destruct (_ || _) eqn:E in H; [discriminate|].
  apply orb_false_elim in E as [E1 E2].
  apply orb_false_elim in E1 as [E1 E4].
  apply orb_false_elim in E1 as [E1 E3].
  apply orb_false_elim in E1 as [E1 E1'].
  apply orb_false_elim in E2 as [E2 E2'].
  destruct Hk as [Hk|Hk]; rewrite Hk in *;
    auto using mapHas_false, setHas_false.
Qed.

Lemma buildValid_keys (id : string) (raw : JsValue) (k : string) :
  vpHasKey (buildValid URL_hostname id sourceId raw) k
  <-> keyEmail raw = Some k \/ keyDomain URL_hostname raw = Some k.
Proof. reflexivity. Qed.

Lemma buildValid_normalized (id : string) (raw : JsValue) :
  vpNormalized (buildValid URL_hostname id sourceId raw).
Proof.
  repeat split; simpl;
    auto using normalizeEmail_normalized, normalizeName_normalized,
      extractDomain_normalized.
Qed.

Lemma step_admitted (seen : gset string) (valid : list ValidProspect) (raw : JsValue) :
  admits URL_hostname existingLookup suppressedLookup seen raw = true ->
  step (seen, valid) raw
  = (setAdd (keyDomain URL_hostname raw) (setAdd (keyEmail raw) seen),
     (valid ++ [buildValid URL_hostname (genId (List.length valid)) sourceId raw])%list).
Proof. intros H. unfold bulkStep. now rewrite H. Qed.

Lemma step_skipped (st : gset string * list ValidProspect) (raw : JsValue) :
  admits URL_hostname existingLookup suppressedLookup (fst st) raw = false ->
  step st raw = st.
Proof. destruct st as [seen valid]. intros H. unfold bulkStep. simpl in H. now rewrite H. Qed.

Lemma setAdd_elem (key1 key2 : option string) (s : gset string) (k : string) :
  key1 = Some k \/ key2 = Some k -> k ∈ setAdd key2 (setAdd key1 s).
Proof.
  intros [->| ->]; [apply setAdd_mono, setAdd_here | apply setAdd_here].
Qed.

Lemma LoopInv_step (st : gset string * list ValidProspect) (raw : JsValue) :
  LoopInv genId existingLookup suppressedLookup st -> LoopInv genId existingLookup suppressedLookup (step st raw).
Proof.
  intros I. destruct st as [seen valid].
  destruct (admits URL_hostname existingLookup suppressedLookup seen raw) eqn:A;
    [|now rewrite step_skipped].
  rewrite (step_admitted _ _ _ A).
  set (pnew := buildValid URL_hostname (genId (List.length valid)) sourceId raw).
  destruct I as [Iseen Ifree Idist Ishape Iids]. simpl in *.
  split; simpl.
  - intros p k Hin Hk. apply in_app_or in Hin as [Hin|[<-|[]]].
    + do 2 apply setAdd_mono. eauto.
    + apply setAdd_elem. now apply buildValid_keys in Hk.
  - intros p k Hin Hk. apply in_app_or in Hin as [Hin|[<-|[]]]; [eauto|].
    apply buildValid_keys in Hk.
    destruct (admits_keys seen raw k A Hk) as (H1 & H2 & _). now split.
  - intros i j p q k Hij Hp Hq Hkp Hkq.
    apply lookup_app_Some in Hq as [Hq|[Hle Hq]].
    + assert (Hi : i < List.length valid).
      { apply lookup_lt_Some in Hq. lia. }
      rewrite lookup_app_l in Hp by exact Hi. eauto.
    + destruct (j - List.length valid) as [|n] eqn:En; [|destruct n; discriminate].
      simpl in Hq. inversion Hq; subst q.
      assert (Hi : i < List.length valid) by lia.
      rewrite lookup_app_l in Hp by exact Hi.
      apply buildValid_keys in Hkq.
      destruct (admits_keys seen raw k A Hkq) as (_ & _ & Hns).
      apply Hns. apply (Iseen p k); [|exact Hkp].
      apply list_elem_of_In, list_elem_of_lookup. eauto.
  - intros p Hin. apply in_app_or in Hin as [Hin|[<-|[]]]; [eauto|].
    apply buildValid_normalized.
  - intros i p Hp. apply lookup_app_Some in Hp as [Hp|[Hle Hp]]; [eauto|].
    destruct (i - List.length valid) as [|n] eqn:En; [|destruct n; discriminate].
    simpl in Hp. inversion Hp; subst p. simpl.
    f_equal. lia.
Qed.

Lemma LoopInv_fold (rows : list JsValue) (st : gset string * list ValidProspect) :
  LoopInv genId existingLookup suppressedLookup st -> LoopInv genId existingLookup suppressedLookup (fold_left step rows st).
Proof.
  revert st. induction rows as [|raw rows IH]; intros st I; simpl; [exact I|].
  now apply IH, LoopInv_step.
Qed.

Lemma LoopInv_bulkLoop (rows : list JsValue) :
  LoopInv genId existingLookup suppressedLookup (bulkLoop URL_hostname genId sourceId existingLookup suppressedLookup rows).
Proof. apply LoopInv_fold, LoopInv_init. Qed.

End BulkLoop.

(** ** Bulk import: admitted rows *)

Lemma addKey_inv (key : option string) (i k : string) (m : gmap string string) :
  is_Some (addKey key i m !! k) -> key = Some k \/ is_Some (m !! k).
Proof.
  destruct key as [k'|]; simpl; [|now right].
  intros H. apply lookup_insert_is_Some' in H as [->|H]; [now left | now right].
Qed.

Lemma setAdd_inv (key : option string) (k : string) (s : gset string) :
  k ∈ setAdd key s -> key = Some k \/ k ∈ s.
Proof.
  destruct key as [k'|]; simpl; [|now right].
  intros H. apply elem_of_union in H as [H|H]; [|now right].
  apply elem_of_singleton in H. subst. now left.
Qed.

(** Every key of the snapshot is a key of some existing row. *)
Lemma snapshot_sound (rows : list Prospect) (acc : gmap string string * gset string)
    (k : string) :
  (is_Some (fst (fold_left snapshotRow rows acc) !! k) ->
   is_Some (fst acc !! k) \/ exists r, In r rows /\ rowHasKey r k)
  /\ (k ∈ snd (fold_left snapshotRow rows acc) ->
      k ∈ snd acc \/ exists r, In r rows /\ rowHasKey r k).
Proof.
  revert acc. induction rows as [|row rows IH]; intros [ex su]; simpl; [tauto|].
  destruct (IH (snapshotRow (ex, su) row)) as [IH1 IH2]. split; intros H.
  - apply IH1 in H as [H|(r & Hin & Hk)]; [|right; exists r; tauto].
    rewrite snapshotRow_fst in H.
    apply addKey_inv in H as [H|H]; [right; exists row; split; [tauto | now right]|].
    apply addKey_inv in H as [H|H]; [right; exists row; split; [tauto | now left]|].
    now left.
  - apply IH2 in H as [H|(r & Hin & Hk)]; [|right; exists r; tauto].
    rewrite snapshotRow_snd in H.
    destruct (truthyText (pr_suppressedAt row)); [|now left].
    apply setAdd_inv in H as [H|H]; [right; exists row; split; [tauto | now right]|].
    apply setAdd_inv in H as [H|H]; [right; exists row; split; [tauto | now left]|].
    now left.
Qed.

Lemma rowOfValid_keyEmail (now : string) (p : ValidProspect) :
  vpNormalized p -> rowKeyEmail (rowOfValid now p) = vpKeyEmail p.
Proof.
  intros (H & _ & _). unfold rowKeyEmail, vpKeyEmail, keyEmailOf. simpl.
  destruct (vp_normalizedEmail p); try discriminate; reflexivity.
Qed.

Lemma rowOfValid_keyDomain (now : string) (p : ValidProspect) :
  vpNormalized p -> rowKeyDomain (rowOfValid now p) = vpKeyDomain p.
Proof.
  intros (_ & H1 & H2). unfold rowKeyDomain, vpKeyDomain, keyDomainOf. simpl.
  destruct (vp_normalizedDomain p); try discriminate;
    destruct (vp_normalizedContactName p); try discriminate; reflexivity.
Qed.

Lemma rowOfValid_hasKey (now : string) (p : ValidProspect) (k : string) :
  vpNormalized p -> rowHasKey (rowOfValid now p) k -> vpHasKey p k.
Proof.
  intros Hn. unfold rowHasKey, vpHasKey.
  now rewrite rowOfValid_keyEmail, rowOfValid_keyDomain.
Qed.

(** Two rows with the same non-empty normalized email, or with the same
    pair of non-empty normalized domain and contact name, share a key. *)
Lemma sharesKey_email (r1 r2 : Prospect) (e : string) :
  pr_normalizedEmail r1 = Some e -> pr_normalizedEmail r2 = Some e -> e <> "" ->
  sharesKey r1 r2.
Proof.
  intros H1 H2 Hne. exists (emailKey e).
  unfold rowHasKey, rowKeyEmail. rewrite H1, H2. simpl.
  destruct e; [congruence|]. simpl. split; now left.
Qed.

Lemma sharesKey_domainName (r1 r2 : Prospect) (d n : string) :
  pr_normalizedDomain r1 = Some d -> pr_normalizedDomain r2 = Some d ->
  pr_normalizedContactName r1 = Some n -> pr_normalizedContactName r2 = Some n ->
  d <> "" -> n <> "" ->
  sharesKey r1 r2.
Proof.
  intros H1 H2 H3 H4 Hd Hn. exists (dnKey d n).
  unfold rowHasKey, rowKeyDomain. rewrite H1, H2, H3, H4. simpl.
  destruct d; [congruence|]. destruct n; [congruence|]. simpl. split; now right.
Qed.

Lemma normalizeEmail_truthy (v : JsValue) :
  truthy (normalizeEmail v) = true ->
  truthy v = true /\ nonEmpty (trim (String_ v)) = true.
Proof.
  destruct (isString v) eqn:Hs;
    [|rewrite (normalizeEmail_not_string v Hs); discriminate].
  destruct v as [| |b|z|s|l|o]; try discriminate.
  rewrite normalizeEmail_string.
  destruct (nonEmpty (toLowerCase (trim s))) eqn:E; [|discriminate].
  intros _. simpl. destruct (trim s) eqn:Et; [discriminate|].
  split; [|reflexivity]. destruct s; [discriminate | reflexivity].
Qed.

Lemma validProspectsOf_inv (U : string -> option string) (genId : nat -> string)
    (sourceId : string) (rows : list JsValue) (db : Db) :
  exists seen,
    LoopInv genId (fst (loadSnapshot (prospects db))) (snd (loadSnapshot (prospects db)))
            (seen, validProspectsOf U genId sourceId rows db).
Proof.
  unfold validProspectsOf.
  destruct (loadSnapshot (prospects db)) as [ex su] eqn:E. simpl.
  pose proof (LoopInv_bulkLoop U genId sourceId ex su rows) as I.
  destruct (bulkLoop U genId sourceId ex su rows) as [seen valid].
  now exists seen.
Qed.

Lemma mapHas_none (key : option string) (m : gmap string string) :
  (forall k, key = Some k -> ~ is_Some (m !! k)) -> mapHas key m = false.
Proof.
  destruct key as [k|]; simpl; [|reflexivity].
  intros H. apply bool_decide_eq_false. now apply H.
Qed.

Lemma setHas_none (key : option string) (s : gset string) :
  (forall k, key = Some k -> k ∉ s) -> setHas key s = false.
Proof.
  destruct key as [k|]; simpl; [|reflexivity].
  intros H. apply bool_decide_eq_false. now apply H.
Qed.

Lemma loadSnapshot_sound (rows : list Prospect) (k : string) :
  (is_Some (fst (loadSnapshot rows) !! k) -> exists r, In r rows /\ rowHasKey r k)
  /\ (k ∈ snd (loadSnapshot rows) -> exists r, In r rows /\ rowHasKey r k).
Proof.
  destruct (snapshot_sound rows (∅, ∅) k) as [H1 H2]. split; intros H.
  - apply H1 in H as [H|H]; [|exact H]. simpl in H.
    rewrite lookup_empty in H. now destruct H.
  - apply H2 in H as [H|H]; [|exact H]. simpl in H. set_solver.
Qed.

Lemma duplicateKey_seen (U : string -> option string) (ex : gmap string string)
    (seen : gset string) (raw : JsValue) (k : string) :
  keyEmail raw = Some k -> k ∈ seen -> duplicateKey U ex seen raw = true.
Proof.
  intros Hk Hin. unfold duplicateKey. rewrite Hk.
  assert (Hs : setHas (Some k) seen = true) by (simpl; now apply bool_decide_eq_true).
  rewrite Hs. now rewrite orb_true_r.
Qed.

(** A row none of whose keys is a key of an existing row passes the test
    against the snapshot. *)
Lemma admits_first (U : string -> option string) (db : Db)
    (props : list (string * JsValue)) :
  truthy (normalizeEmail (getProp (JObj props) "email")) = true ->
  (forall r k, In r (prospects db) ->
     keyEmail (JObj props) = Some k \/ keyDomain U (JObj props) = Some k ->
     ~ rowHasKey r k) ->
  admits U (fst (loadSnapshot (prospects db))) (snd (loadSnapshot (prospects db)))
         ∅ (JObj props) = true.
Proof.
  intros He Hfree. unfold admits. cbn [truthy typeofObject negb orb].
  assert (Hid : hasIdentifier (JObj props) = true).
  { unfold hasIdentifier. apply normalizeEmail_truthy in He as [H1 H2].
    rewrite H1, H2. now rewrite !orb_true_r. }
  rewrite Hid. cbn [negb].
  assert (Hex : forall key, key = keyEmail (JObj props) \/ key = keyDomain U (JObj props) ->
                mapHas key (fst (loadSnapshot (prospects db))) = false
                /\ setHas key (snd (loadSnapshot (prospects db))) = false
                /\ setHas key (∅ : gset string) = false).
  { intros key Hkey. split; [|split].
    - apply mapHas_none. intros k -> Hs.
      apply loadSnapshot_sound in Hs as (r & Hin & Hk).
      apply (Hfree r k Hin); [|exact Hk]. destruct Hkey as [<-|<-]; tauto.
    - apply setHas_none. intros k -> Hs.
      apply loadSnapshot_sound in Hs as (r & Hin & Hk).
      apply (Hfree r k Hin); [|exact Hk]. destruct Hkey as [<-|<-]; tauto.
    - apply setHas_none. intros k _. set_solver. }
  destruct (Hex _ (or_introl eq_refl)) as (A1 & A2 & A3).
  destruct (Hex _ (or_intror eq_refl)) as (B1 & B2 & B3).
  unfold duplicateKey, suppressedHit. now rewrite A1, A2, A3, B1, B2, B3.
Qed.

(** C4. The rows one bulk import admits share no identity key with one
    another and none with a row that existed before; and of two rows with
    the same normalized email, the first of which matches no existing row,
    exactly the first is admitted. *)
Theorem bulk_admits_unique_keys (URL_hostname : string -> option string)
    (genId : nat -> string) (now sourceId : string) (rows : list JsValue) (db : Db) :
  (forall i j r1 r2, i < j ->
     admittedRows URL_hostname genId now sourceId rows db !! i = Some r1 ->
     admittedRows URL_hostname genId now sourceId rows db !! j = Some r2 ->
     ~ sharesKey r1 r2)
  /\ (forall r1 r2,
        In r1 (admittedRows URL_hostname genId now sourceId rows db) ->
        In r2 (prospects db) ->
        ~ sharesKey r1 r2)
  /\ (forall props r2,
        truthy (normalizeEmail (getProp (JObj props) "email")) = true ->
        normalizeEmail (getProp r2 "email")
        = normalizeEmail (getProp (JObj props) "email") ->
        (forall r k, In r (prospects db) ->
           keyEmail (JObj props) = Some k \/ keyDomain URL_hostname (JObj props) = Some k ->
           ~ rowHasKey r k) ->
        validProspectsOf URL_hostname genId sourceId [JObj props; r2] db
        = [buildValid URL_hostname (genId 0) sourceId (JObj props)]).
Proof.
  destruct (validProspectsOf_inv URL_hostname genId sourceId rows db) as [seen I].
  split; [|split].
  - intros i j r1 r2 Hij H1 H2 (k & K1 & K2).
    unfold admittedRows in H1, H2. rewrite list_lookup_fmap in H1, H2.
    destruct (validProspectsOf URL_hostname genId sourceId rows db !! i) as [p|] eqn:Ep;
      [|discriminate].
    destruct (validProspectsOf URL_hostname genId sourceId rows db !! j) as [q|] eqn:Eq;
      [|discriminate].
    inversion H1; inversion H2; subst r1 r2.
    assert (Hp : In p (validProspectsOf URL_hostname genId sourceId rows db)).
    { apply list_elem_of_In, list_elem_of_lookup. eauto. }
    assert (Hq : In q (validProspectsOf URL_hostname genId sourceId rows db)).
    { apply list_elem_of_In, list_elem_of_lookup. eauto. }
    apply (inv_distinct _ _ _ _ I i j p q k Hij Ep Eq).
    + apply (rowOfValid_hasKey now); [apply (inv_shape _ _ _ _ I p Hp) | exact K1].
    + apply (rowOfValid_hasKey now); [apply (inv_shape _ _ _ _ I q Hq) | exact K2].
  - intros r1 r2 H1 H2 (k & K1 & K2).
    unfold admittedRows in H1. apply in_map_iff in H1 as (p & <- & Hp).
    apply rowOfValid_hasKey in K1; [|apply (inv_shape _ _ _ _ I p Hp)].
    destruct (inv_free _ _ _ _ I p k Hp K1) as [Hnone _].
    destruct (snapshot_complete (prospects db) (∅, ∅) r2 k H2 K2) as [Hsome _].
    fold (loadSnapshot (prospects db)) in Hsome.
    rewrite Hnone in Hsome. now destruct Hsome.
  - intros props r2 He Heq Hfree.
    pose proof (admits_first URL_hostname db props He Hfree) as A.
    unfold validProspectsOf.
    destruct (loadSnapshot (prospects db)) as [ex su]. simpl in A.
    unfold bulkLoop. cbn [fold_left].
    unfold bulkStep at 2. rewrite A. cbn [List.length].
    unfold bulkStep, admits.
    assert (Hdup : duplicateKey URL_hostname ex
                     (setAdd (keyDomain URL_hostname (JObj props))
                             (setAdd (keyEmail (JObj props)) ∅)) r2 = true).
    { apply (duplicateKey_seen _ _ _ _
               (emailKey (String_ (normalizeEmail (getProp (JObj props) "email"))))).
      - unfold keyEmail, keyEmailOf. now rewrite Heq, He.
      - apply setAdd_mono. unfold keyEmail, keyEmailOf. rewrite He.
        apply setAdd_here. }
    rewrite Hdup. simpl orb.
    now destruct (negb (truthy r2) || negb (typeofObject r2)),
      (negb (hasIdentifier r2)).
Qed.

(** ** Bulk import: the response *)

(** C3 (the code departs from it). [POST /sources/:sourceId/prospects/bulk]
    sets no response header at all, on any request and on any branch: the
    counts of received, valid, inserted and skipped rows that [README.md]
    documents as [X-LeadGen-Import-*] headers are neither computed nor
    sent. *)
Theorem bulk_import_sets_no_header (URL_hostname : string -> option string)
    (genId : nat -> string) (now sourceId : string) (body : JsValue) (db : Db) :
  res_headers (fst (postBulk URL_hostname genId now sourceId body db)) = [].
Proof.
  unfold postBulk.
  destruct (getProp (jsOr body (JObj [])) "prospects") as [| |b|z|s|[|raw rows]|o];
    try reflexivity.
  now destruct (validProspectsOf URL_hostname genId sourceId (raw :: rows) db).
Qed.


(** ** Order of query results *)

Lemma ltb_asym (a b : string) : String.ltb a b = true -> String.ltb b a = false.
Proof.
  unfold String.ltb. rewrite (String.compare_antisym a b).
  now destruct (String.compare b a).
Qed.

Lemma ltb_irrefl (a : string) : String.ltb a a = false.
Proof.
  destruct (String.ltb a a) eqn:E; [|reflexivity].
  now rewrite (ltb_asym a a E) in E.
Qed.

Lemma keyLt_asym (a b : option string) : keyLt a b = true -> keyLt b a = false.
Proof.
  destruct a as [x|], b as [y|]; simpl; try congruence. apply ltb_asym.
Qed.

Section SortBy.

Context {A : Type} (follows : A -> A -> bool).

Lemma insertBy_Permutation (r : A) (l : list A) :
  Permutation (insertBy follows r l) (r :: l).
Proof.
  induction l as [|x l IH]; simpl; [reflexivity|].
  destruct (follows r x); [|reflexivity].
  rewrite IH. apply perm_swap.
Qed.

Lemma sortBy_Permutation (l : list A) : Permutation (sortBy follows l) l.
Proof.
  unfold sortBy. induction l as [|x l IH]; simpl; [reflexivity|].
  rewrite insertBy_Permutation. now apply perm_skip.
Qed.

Lemma sortBy_In (x : A) (l : list A) : In x (sortBy follows l) <-> In x l.
Proof.
  split; apply Permutation_in;
    [apply sortBy_Permutation | symmetry; apply sortBy_Permutation].
Qed.

(** Rows that never follow one another keep their storage order. *)
Lemma insertBy_filter (P : A -> bool) (r : A) (l : list A) :
  (forall a b, P a = true -> P b = true -> follows a b = false) ->
  List.filter P (insertBy follows r l) = List.filter P (r :: l).
Proof.
  intros Htie. induction l as [|x l IH]; [reflexivity|].
  cbn [insertBy]. destruct (follows r x) eqn:E; [|reflexivity].
  cbn [List.filter] in *. rewrite IH.
  destruct (P r) eqn:Hr, (P x) eqn:Hx; try reflexivity.
  now rewrite (Htie r x Hr Hx) in E.
Qed.

Lemma sortBy_filter (P : A -> bool) (l : list A) :
  (forall a b, P a = true -> P b = true -> follows a b = false) ->
  List.filter P (sortBy follows l) = List.filter P l.
Proof.
  intros Htie. unfold sortBy. induction l as [|x l IH]; [reflexivity|].
  cbn [fold_right]. rewrite (insertBy_filter P x _ Htie).
  cbn [List.filter]. now rewrite IH.
Qed.

(** A row that all others follow comes first. *)
Lemma sortBy_last_first (r : A) (l : list A) :
  (forall x, In x l -> follows x r = true) ->
  sortBy follows (l ++ [r]) = r :: sortBy follows l.
Proof.
  unfold sortBy. induction l as [|x l IH]; intros H; [reflexivity|].
  cbn [app fold_right]. rewrite IH by (intros y Hy; apply H; now right).
  cbn [insertBy]. now rewrite (H x) by now left.
Qed.

Hypothesis follows_asym : forall a b, follows a b = true -> follows b a = false.

Lemma insertBy_orderedBy (r : A) (l : list A) :
  orderedBy follows l = true -> orderedBy follows (insertBy follows r l) = true.
Proof.
  induction l as [|x l IH]; [reflexivity|].
  intros H. cbn [insertBy].
  destruct (follows r x) eqn:E.
  - destruct l as [|y l].
    + cbn [insertBy orderedBy]. now rewrite (follows_asym _ _ E).
    + cbn [orderedBy] in H. apply andb_prop in H as [Hxy Hl].
      specialize (IH Hl). cbn [insertBy] in *.
      destruct (follows r y).
      * cbn [orderedBy] in *. now rewrite Hxy, IH.
      * cbn [orderedBy] in *. now rewrite (follows_asym _ _ E), IH.
  - change (orderedBy follows (r :: x :: l))
      with (negb (follows r x) && orderedBy follows (x :: l)).
    now rewrite E, H.
Qed.

Lemma sortBy_orderedBy (l : list A) : orderedBy follows (sortBy follows l) = true.
Proof.
  unfold sortBy. induction l as [|x l IH]; [reflexivity|].
  cbn [fold_right]. now apply insertBy_orderedBy.
Qed.

End SortBy.

Lemma orderedBy_adjacent {A : Type} (follows : A -> A -> bool) (l : list A) (i : nat)
    (a b : A) :
  orderedBy follows l = true -> l !! i = Some a -> l !! (S i) = Some b ->
  follows a b = false.
Proof.
  revert i. induction l as [|x l IH]; intros i Hs H1 H2; [discriminate|].
  destruct l as [|y l]; [discriminate|].
  cbn [orderedBy] in Hs. apply andb_prop in Hs as [Hxy Hl].
  destruct i as [|i].
  - simpl in H1, H2. inversion H1; inversion H2; subst.
    now apply negb_true_iff in Hxy.
  - apply (IH i Hl); assumption.
Qed.

Lemma orderByCreatedAtDesc_sortBy (l : list Prospect) :
  orderByCreatedAtDesc l
  = sortBy (fun r x => String.ltb (pr_createdAt r) (pr_createdAt x)) l.
Proof.
  unfold orderByCreatedAtDesc, sortBy. induction l as [|x l IH]; [reflexivity|].
  cbn [fold_right]. rewrite IH. generalize (fold_right
    (insertBy (fun r x0 : Prospect => String.ltb (pr_createdAt r) (pr_createdAt x0))) [] l).
  intros sorted. induction sorted as [|y sorted IHs]; [reflexivity|].
  cbn [insertDesc insertBy]. now rewrite IHs.
Qed.

Lemma fold_stmtRun (now : string) (l : list ValidProspect) (db : Db) :
  List.NoDup (map vp_id l) ->
  (forall p, In p l -> getProspectById db (vp_id p) = None) ->
  fold_left (stmtRun now) l db
  = mkDb (prospects db ++ map (rowOfValid now) l) (prospect_notes db).
Proof.
  revert db. induction l as [|p l IH]; intros db Hnd Hfresh; simpl.
  - rewrite app_nil_r. now destruct db.
  - inversion Hnd as [|x l' Hnotin Hnd']; subst.
    unfold stmtRun at 2, insertProspect. cbn [pr_id rowOfValid].
    rewrite (Hfresh p) by now left.
    rewrite IH; [cbn [prospects prospect_notes]; now rewrite <- app_assoc | exact Hnd' |].
    intros q Hq. unfold getProspectById. cbn [prospects].
    apply find_app_none; [apply Hfresh; now right|].
    unfold hasId. cbn [pr_id rowOfValid]. apply String.eqb_neq.
    intros Heq. apply Hnotin. rewrite Heq. now apply in_map.
Qed.

Lemma filter_none {A : Type} (f : A -> bool) (l : list A) :
  (forall x, In x l -> f x = false) -> List.filter f l = [].
Proof.
  induction l as [|x l IH]; intros H; simpl; [reflexivity|].
  rewrite (H x) by now left. apply IH. intros y Hy. apply H. now right.
Qed.




Lemma validProspectsOf_skipped (U : string -> option string) (genId : nat -> string)
    (sourceId : string) (raw : JsValue) (db : Db) :
  (forall seen, admits U (fst (loadSnapshot (prospects db)))
                  (snd (loadSnapshot (prospects db))) seen raw = false) ->
  validProspectsOf U genId sourceId [raw] db = [].
Proof.
  intros H. unfold validProspectsOf.
  destruct (loadSnapshot (prospects db)) as [ex su]. simpl in H.
  unfold bulkLoop. cbn [fold_left]. unfold bulkStep. now rewrite H.
Qed.


Section SuppressedMatch.

Variable URL_hostname : string -> option string.
Variable genId : nat -> string.
Variables (now sourceId : string).

(** With an existing suppressed row whose normalized domain is
    [acme.com] and whose normalized contact name is [jane doe], a bulk row
    with the website [https://www.ACME.com], the contact name
    [Jane   Doe] and no email hits the suppressed lookup and is skipped:
    its iteration changes neither [seen] nor [validProspects], and a batch
    made of this row alone inserts nothing.  ([new URL] is taken to return
    the host name in lower case, as the WHATWG parser does.) *)
Lemma bulk_skips_suppressed_match (db : Db) (r : Prospect) (raw : JsValue) :
  URL_hostname "https://www.ACME.com" = Some "www.acme.com" ->
  In r (prospects db) ->
  pr_normalizedDomain r = Some "acme.com" ->
  pr_normalizedContactName r = Some "jane doe" ->
  truthyText (pr_suppressedAt r) = true ->
  getProp raw "website" = JStr "https://www.ACME.com" ->
  getProp raw "contactName" = JStr "Jane   Doe" ->
  absentOrEmpty (getProp raw "email") = true ->
  keyDomain URL_hostname raw = Some "dn:acme.com:jane doe"
  /\ suppressedHit URL_hostname (snd (loadSnapshot (prospects db))) raw = true
  /\ (forall st,
        bulkStep URL_hostname genId sourceId (fst (loadSnapshot (prospects db)))
                 (snd (loadSnapshot (prospects db))) st raw = st)
  /\ postBulk URL_hostname genId now sourceId (JObj [("prospects", JArr [raw])]) db
     = (respond 400 (BError "No valid prospects to import"), db).
Proof.
  intros Hurl Hin Hd Hn Hs Hw Hc He.
  assert (Hk : keyDomain URL_hostname raw = Some "dn:acme.com:jane doe").
  { unfold keyDomain, extractDomainFromWebsiteOrEmail. rewrite Hw, Hc.
    cbn [truthy isString asString andb negb String.eqb Ascii.eqb Bool.eqb].
    change (trim "https://www.ACME.com") with "https://www.ACME.com".
    change (nonEmpty "https://www.ACME.com") with true.
    change (startsWith "https://www.ACME.com" "http") with true.
    cbv iota. rewrite Hurl. reflexivity. }
  assert (Hrow : rowHasKey r "dn:acme.com:jane doe").
  { right. unfold rowKeyDomain. now rewrite Hd, Hn. }
  destruct (snapshot_complete (prospects db) (∅, ∅) r _ Hin Hrow) as [_ Hsu].
  fold (loadSnapshot (prospects db)) in Hsu. specialize (Hsu Hs).
  assert (Hhit : suppressedHit URL_hostname (snd (loadSnapshot (prospects db))) raw = true).
  { unfold suppressedHit. rewrite Hk.
    assert (H : setHas (Some "dn:acme.com:jane doe") (snd (loadSnapshot (prospects db)))
                = true) by (simpl; now apply bool_decide_eq_true).
    rewrite H. apply orb_true_r. }
  assert (Hadm : forall seen,
             admits URL_hostname (fst (loadSnapshot (prospects db)))
               (snd (loadSnapshot (prospects db))) seen raw = false).
  { intros seen. unfold admits. rewrite Hhit, orb_true_r.
    now destruct (negb (truthy raw) || negb (typeofObject raw)),
      (negb (hasIdentifier raw)). }
  split; [exact Hk|]. split; [exact Hhit|]. split.
  - intros [seen valid]. unfold bulkStep. now rewrite Hadm.
  - unfold postBulk. cbn [jsOr truthy getProp assoc String.eqb Ascii.eqb Bool.eqb].
    now rewrite (validProspectsOf_skipped URL_hostname genId sourceId raw db Hadm).
Qed.

End SuppressedMatch.

(** C5 (the code departs from it). On a table that holds the suppressed
    row of Jane Doe, a batch made of the row with the website
    [https://www.ACME.com] and the contact name [Jane   Doe] is skipped and
    nothing is inserted, but under no category: the key of the row is in
    the suppressed lookup and in the lookup of existing rows alike, the
    loop leaves the iteration by its one [continue] for both, and the
    response (400, no header) is the one the same batch gets when the row
    of Jane Doe is not suppressed. *)
Theorem suppressed_skip_reports_no_category :
  keyDomain hostnameOfSimpleUrl acmeRow = Some "dn:acme.com:jane doe"
  /\ suppressedHit hostnameOfSimpleUrl (snd (loadSnapshot [suppressedJane])) acmeRow = true
  /\ duplicateKey hostnameOfSimpleUrl (fst (loadSnapshot [suppressedJane])) ∅ acmeRow = true
  /\ postBulk hostnameOfSimpleUrl (fun _ => "pros_new") "2025-03-01 08:00:00" "src_1"
       (JObj [("prospects", JArr [acmeRow])]) (mkDb [suppressedJane] [])
     = (mkResponse 400 [] (BError "No valid prospects to import"),
        mkDb [suppressedJane] [])
  /\ fst (postBulk hostnameOfSimpleUrl (fun _ => "pros_new") "2025-03-01 08:00:00" "src_1"
            (JObj [("prospects", JArr [acmeRow])])
            (mkDb [withSuppressedAt None suppressedJane] []))
     = fst (postBulk hostnameOfSimpleUrl (fun _ => "pros_new") "2025-03-01 08:00:00" "src_1"
              (JObj [("prospects", JArr [acmeRow])]) (mkDb [suppressedJane] [])).
Proof. vm_compute. repeat split. Qed.

(** ** The list query *)

Lemma In_insertDesc (r x : Prospect) (l : list Prospect) :
  In x (insertDesc r l) <-> x = r \/ In x l.
Proof.
  induction l as [|y l IH]; simpl; [intuition|].
  destruct (String.ltb (pr_createdAt r) (pr_createdAt y)); simpl.
  - rewrite IH. intuition.
  - intuition.
Qed.

Lemma In_orderByCreatedAtDesc (x : Prospect) (l : list Prospect) :
  In x (orderByCreatedAtDesc l) <-> In x l.
Proof.
  unfold orderByCreatedAtDesc. induction l as [|y l IH]; simpl; [tauto|].
  rewrite In_insertDesc, IH. intuition.
Qed.

Lemma listProspects_In (q : JsValue) (db : Db) (r : Prospect) :
  In r (listProspects q db) <-> In r (prospects db) /\ whereClauses q r = true.
Proof.
  unfold listProspects. rewrite In_orderByCreatedAtDesc. apply filter_In.
Qed.

(** C9. Every row [GET /prospects] returns has a NULL [archivedAt] unless
    the query has [archived=1], in which case it has a non-NULL one, and
    the same holds of [suppressedAt] and [suppressed=1], each flag deciding
    its own column only.  In particular a query without flags returns no
    archived and no suppressed row. *)
Theorem list_respects_flags (q : JsValue) (db : Db) (r : Prospect) :
  In r (listProspects q db) ->
  (isOne (getProp q "archived") = false -> pr_archivedAt r = None)
  /\ (isOne (getProp q "archived") = true -> pr_archivedAt r <> None)
  /\ (isOne (getProp q "suppressed") = false -> pr_suppressedAt r = None)
  /\ (isOne (getProp q "suppressed") = true -> pr_suppressedAt r <> None).
Proof.
  intros Hin. apply listProspects_In in Hin as [_ Hw].
  unfold whereClauses in Hw. cbv zeta in Hw.
  repeat (apply andb_prop in Hw as [Hw ?]).
  destruct (isOne (getProp q "archived")), (isOne (getProp q "suppressed"));
    destruct (pr_archivedAt r), (pr_suppressedAt r);
    try discriminate; repeat split; congruence.
Qed.

Lemma list_respects_flags_witness :
  listProspects (JObj [("archived", JStr "1")]) mixedDb
  = [plainRow "pros_2" "2025-01-02 09:00:00" (Some "2025-01-05 09:00:00") None]
  /\ pr_archivedAt (plainRow "pros_2" "2025-01-02 09:00:00"
                             (Some "2025-01-05 09:00:00") None) <> None.
Proof.
  split; [reflexivity|].
  apply (list_respects_flags (JObj [("archived", JStr "1")]) mixedDb); [|reflexivity].
  left. reflexivity.
Defined.

(** ** Archive and delete *)

Lemma filter_hasId_shorter (i : string) (l : list Prospect) (p : Prospect) :
  List.find (hasId i) l = Some p ->
  Nat.eqb (List.length l - List.length (List.filter (fun r => negb (hasId i r)) l)) 0
  = false.
Proof.
  intros H. apply Nat.eqb_neq.
  assert (Hlen : forall l' : list Prospect,
            List.length (List.filter (fun r => negb (hasId i r)) l') <= List.length l').
  { induction l' as [|y l' IH]; simpl; [lia|]. destruct (negb (hasId i y)); simpl; lia. }
  induction l as [|x l IH]; simpl in *; [discriminate|].
  destruct (hasId i x); simpl.
  - specialize (Hlen l). lia.
  - specialize (IH H). specialize (Hlen l). lia.
Qed.

(** Deleting a prospect that is not archived answers 400 and changes
    nothing. *)
Lemma deleteProspect_not_archived (i : string) (db : Db) (p : Prospect) :
  getProspectById db i = Some p -> truthyText (pr_archivedAt p) = false ->
  deleteProspect i db
  = (respond 400 (BError "Prospect must be archived before deletion"), db).
Proof. intros H Ha. unfold deleteProspect. now rewrite H, Ha. Qed.

(** Deleting an archived prospect answers 200 and removes its row; the
    table of notes is left as it was. *)
Lemma deleteProspect_archived (i : string) (db : Db) (p : Prospect) :
  getProspectById db i = Some p -> truthyText (pr_archivedAt p) = true ->
  deleteProspect i db
  = (respond 200 (BDeleted i),
     mkDb (List.filter (fun r => negb (hasId i r)) (prospects db)) (prospect_notes db)).
Proof.
  intros H Ha. unfold deleteProspect. rewrite H, Ha. cbn [negb].
  unfold deleteProspectRows, foreign_keys. cbn [andb].
  unfold getProspectById in H. now rewrite (filter_hasId_shorter i _ p H).
Qed.

(** A successful delete answers 200 only for an archived prospect. *)
Lemma deleteProspect_200_archived (i : string) (db : Db) :
  res_status (fst (deleteProspect i db)) = 200 ->
  exists p, getProspectById db i = Some p /\ pr_archivedAt p <> None.
Proof.
  unfold deleteProspect. destruct (getProspectById db i) as [p|]; [|discriminate].
  destruct (truthyText (pr_archivedAt p)) eqn:E; [|discriminate].
  intros _. exists p. split; [reflexivity|]. now destruct (pr_archivedAt p).
Qed.

(** What the schema declares: under enforcement of the foreign keys the
    statement removes the notes of the deleted prospect. *)
Lemma deleteProspectRows_cascade (i : string) (db : Db) (p : Prospect) :
  getProspectById db i = Some p ->
  List.filter (fun n => String.eqb (note_prospectId n) i)
    (prospect_notes (fst (deleteProspectRows true i db))) = [].
Proof.
  intros H. unfold deleteProspectRows. cbn [andb fst prospect_notes].
  unfold getProspectById in H. rewrite (filter_hasId_shorter i _ p H). cbn [negb].
  apply filter_none. intros n Hn. apply filter_In in Hn as [_ Hn].
  now apply negb_true_iff in Hn.
Qed.

(** C8 (the code departs from it). On [notedDb]: deleting the prospect
    before it is archived answers 400 and changes nothing; after
    [PATCH /prospects/pros_jane/archive] the delete answers 200 and the
    row of the prospect is gone, but its note is still in
    [prospect_notes]: the cascade the schema declares does not run. *)
Theorem delete_leaves_notes (datetime : string -> option string) :
  deleteProspect "pros_jane" notedDb
  = (respond 400 (BError "Prospect must be archived before deletion"), notedDb)
  /\ res_status (fst (patchArchive "2025-03-01 08:00:00" "pros_jane" notedDb)) = 200
  /\ fst (deleteProspect "pros_jane"
            (snd (patchArchive "2025-03-01 08:00:00" "pros_jane" notedDb)))
     = respond 200 (BDeleted "pros_jane")
  /\ prospects (snd (deleteProspect "pros_jane"
                       (snd (patchArchive "2025-03-01 08:00:00" "pros_jane" notedDb))))
     = []
  /\ getProspectNotes datetime
       (snd (deleteProspect "pros_jane"
               (snd (patchArchive "2025-03-01 08:00:00" "pros_jane" notedDb))))
       "pros_jane"
     = [janeNote].
Proof. repeat split. Qed.

(** ** Examples *)

Example normalizeEmail_example : normalizeEmail (JStr "A@B.com ") = JStr "a@b.com".
Proof. reflexivity. Qed.

Example normalizeName_example : normalizeName (JStr "  Jane   Doe ") = JStr "jane doe".
Proof. reflexivity. Qed.

Example normalizeName_blank : normalizeName (JStr "   ") = JNull.
Proof. reflexivity. Qed.

Example extractDomain_website :
  extractDomainFromWebsiteOrEmail hostnameOfSimpleUrl (JStr "https://www.ACME.com") JUndefined
  = JStr "acme.com".
Proof. reflexivity. Qed.

Example extractDomain_email :
  extractDomainFromWebsiteOrEmail hostnameOfSimpleUrl JUndefined (JStr "x@www.Foo.com")
  = JStr "foo.com".
Proof. reflexivity. Qed.

(** A create with the email of Jane Doe in other letters is refused. *)
Example single_create_same_email :
  postProspect hostnameOfSimpleUrl "pros_new" "2025-03-01 08:00:00"
    (JObj [("email", JStr " JANE@acme.com")]) janeDb
  = (respond 409 (BDuplicate "pros_jane"), janeDb).
Proof. vm_compute. reflexivity. Qed.

(** A batch of three rows, the second repeating the email of the first:
    the first and the third are inserted. *)
Example bulk_two_of_three :
  map pr_email
    (prospects
       (snd (postBulk hostnameOfSimpleUrl
               (fun n => "pros_" +:+ string_of_Z (Z.of_nat n)) "2025-03-01 08:00:00" "src_1"
               (JObj [("prospects",
                       JArr [JObj [("email", JStr "a@x.com")];
                             JObj [("email", JStr "A@x.com ")];
                             JObj [("email", JStr "b@x.com")]])])
               janeDb)))
  = [Some "jane@acme.com"; Some "a@x.com"; Some "b@x.com"].
Proof. vm_compute. reflexivity. Qed.

(** The response of a bulk import lists the inserted rows by identifier,
    whatever the order of their insertion. *)
Example bulk_answers_by_id :
  match res_body
          (fst (postBulk hostnameOfSimpleUrl
                  (fun n => match n with O => "pros_b" | _ => "pros_a" end)
                  "2025-03-01 08:00:00" "src_1"
                  (JObj [("prospects",
                          JArr [JObj [("email", JStr "first@x.com")];
                                JObj [("email", JStr "second@x.com")]])])
                  janeDb)) with
  | BRows rows => map pr_email rows
  | _ => []
  end
  = [Some "second@x.com"; Some "first@x.com"].
Proof. vm_compute. reflexivity. Qed.

(** Two prospects created in the same second are listed in the order of
    the table, behind a newer one. *)
Example list_ties_in_table_order :
  map pr_id
    (listProspects (JObj [])
       (mkDb [plainRow "pros_1" "2025-01-01 09:00:00" None None;
              plainRow "pros_2" "2025-01-01 09:00:00" None None;
              plainRow "pros_3" "2025-01-02 09:00:00" None None] []))
  = ["pros_3"; "pros_1"; "pros_2"].
Proof. vm_compute. reflexivity. Qed.

(** A note added later is listed first. *)
Example newer_note_listed_first :
  map note_id
    (getProspectNotes Some
       (snd (postNote "note_2" "2025-01-03 10:00:00" "pros_jane"
               (JObj [("content", JStr " Left a voicemail ")]) notedDb))
       "pros_jane")
  = ["note_2"; "note_1"].
Proof. vm_compute. reflexivity. Qed.

(** * Further properties *)

(** ** Canonical form of the normalized values *)

Lemma trimStart_allWhite (pad s : string) :
  allWhite pad = true -> trimStart (pad +:+ s) = trimStart s.
Proof.
  induction pad as [|c pad IH]; simpl; [reflexivity|].
  intros H. apply andb_prop in H as [Hc Hp]. rewrite Hc. now apply IH.
Qed.

Lemma trimEnd_allWhite_only (pad : string) : allWhite pad = true -> trimEnd pad = "".
Proof.
  induction pad as [|c pad IH]; simpl; [reflexivity|].
  intros H. apply andb_prop in H as [Hc Hp]. now rewrite (IH Hp), Hc.
Qed.

Lemma trimEnd_allWhite (s pad : string) :
  allWhite pad = true -> trimEnd (s +:+ pad) = trimEnd s.
Proof.
  intros Hp. induction s as [|c s IH]; simpl; [now apply trimEnd_allWhite_only|].
  now rewrite IH.
Qed.

Lemma trimStart_app (s pad : string) :
  trimStart s <> "" -> trimStart (s +:+ pad) = trimStart s +:+ pad.
Proof.
  induction s as [|c s IH]; simpl; [congruence|].
  destruct (isWhiteSpace c); [exact IH | reflexivity].
Qed.

Lemma trimStart_empty_allWhite (s : string) : trimStart s = "" -> allWhite s = true.
Proof.
  induction s as [|c s IH]; simpl; [reflexivity|].
  destruct (isWhiteSpace c); [exact IH | discriminate].
Qed.

Lemma allWhite_app (s t : string) :
  allWhite s = true -> allWhite t = true -> allWhite (s +:+ t) = true.
Proof.
  induction s as [|c s IH]; simpl; [tauto|].
  intros H Ht. apply andb_prop in H as [Hc Hs]. rewrite Hc. now apply IH.
Qed.

Lemma trimStart_allWhite_only (s : string) : allWhite s = true -> trimStart s = "".
Proof.
  induction s as [|c s IH]; simpl; [reflexivity|].
  intros H. apply andb_prop in H as [Hc Hs]. rewrite Hc. now apply IH.
Qed.

Lemma trim_padding (pad1 s pad2 : string) :
  allWhite pad1 = true -> allWhite pad2 = true ->
  trim (pad1 +:+ s +:+ pad2) = trim s.
Proof.
  intros H1 H2. unfold trim. rewrite (trimStart_allWhite _ _ H1).
  destruct (trimStart s) as [|c u] eqn:E.
  - rewrite trimStart_allWhite_only; [reflexivity|].
    apply allWhite_app; [now apply trimStart_empty_allWhite | exact H2].
  - rewrite trimStart_app by (rewrite E; discriminate).
    rewrite E. now apply trimEnd_allWhite.
Qed.

Lemma toLowerCase_nonEmpty (s : string) : nonEmpty (toLowerCase s) = nonEmpty s.
Proof. now destruct s. Qed.

Lemma normalizeEmail_JStr_inv (x : JsValue) (t : string) :
  normalizeEmail x = JStr t ->
  exists s, x = JStr s /\ t = toLowerCase (trim s) /\ t <> "".
Proof.
  destruct (isString x) eqn:Hs;
    [|rewrite (normalizeEmail_not_string x Hs); discriminate].
  destruct x as [| |b|z|s|l|o]; try discriminate.
  rewrite normalizeEmail_string.
  destruct (nonEmpty (toLowerCase (trim s))) eqn:E; [|discriminate].
  intros H. inversion H; subst t. exists s. repeat split.
  intros H0. now rewrite H0 in E.
Qed.

Lemma normalizeName_JStr_inv (x : JsValue) (t : string) :
  normalizeName x = JStr t ->
  exists s, x = JStr s /\ t = collapseWhitespace (toLowerCase (trim s)) /\ t <> "".
Proof.
  destruct (isString x) eqn:Hs;
    [|rewrite (normalizeName_not_string x Hs); discriminate].
  destruct x as [| |b|z|s|l|o]; try discriminate.
  rewrite normalizeName_string.
  destruct (nonEmpty (collapseWhitespace (toLowerCase (trim s)))) eqn:E; [|discriminate].
  intros H. inversion H; subst t. exists s. repeat split.
  intros H0. now rewrite H0 in E.
Qed.

(** X1. A normalized email is never the empty string, carries no white
    space at either end and is in lower case; a normalized name moreover
    has every run of white space reduced to one SPACE. *)
Theorem normalized_values_canonical (x : JsValue) :
  (forall t, normalizeEmail x = JStr t ->
     t <> "" /\ trim t = t /\ toLowerCase t = t)
  /\ (forall t, normalizeName x = JStr t ->
        t <> "" /\ trim t = t /\ toLowerCase t = t
        /\ collapseWhitespace t = t /\ singleSpaces false t = true).
Proof.
  split; intros t H.
  - apply normalizeEmail_JStr_inv in H as (s & -> & -> & Hne).
    split; [exact Hne|]. split.
    + now rewrite trim_toLowerCase, trim_idem.
    + apply toLowerCase_idem.
  - apply normalizeName_JStr_inv in H as (s & -> & -> & Hne).
    split; [exact Hne|]. split; [|split; [|split]].
    + rewrite <- trim_toLowerCase. apply trim_collapseWhitespace.
    + unfold collapseWhitespace. rewrite <- replaceWsRuns_toLowerCase.
      now rewrite toLowerCase_idem.
    + apply collapseWhitespace_idem.
    + apply replaceWsRuns_singleSpaces.
Qed.

(** X2. Padding an email or a name with white space on either side, or
    changing the case of its letters, does not change its normalized
    value. *)
Theorem normalizers_ignore_padding_and_case (pad1 pad2 s s' : string) :
  allWhite pad1 = true -> allWhite pad2 = true ->
  toLowerCase s' = toLowerCase s ->
  normalizeEmail (JStr (pad1 +:+ s' +:+ pad2)) = normalizeEmail (JStr s)
  /\ normalizeName (JStr (pad1 +:+ s' +:+ pad2)) = normalizeName (JStr s).
Proof.
  intros H1 H2 Hc.
  rewrite !normalizeEmail_string, !normalizeName_string.
  rewrite (trim_padding _ _ _ H1 H2).
  rewrite <- !trim_toLowerCase, Hc. split; reflexivity.
Qed.

Lemma normalizers_ignore_padding_and_case_witness :
  normalizeEmail (JStr "  Jane@ACME.com ") = normalizeEmail (JStr "jane@acme.com")
  /\ normalizeName (JStr "  Jane@ACME.com ") = normalizeName (JStr "jane@acme.com").
Proof.
  exact (normalizers_ignore_padding_and_case "  " " " "jane@acme.com" "Jane@ACME.com"
           eq_refl eq_refl eq_refl).
Defined.

(** ** The extracted domain *)

(** X3. The extracted domain is [null] or a string in lower case.  A
    website that is not a string with a non-blank [trim()] plays no role:
    the result is the one the email alone gives, and it is [null] when the
    email is not a string containing [@]. *)
Theorem extracted_domain_shape (URL_hostname : string -> option string)
    (website email : JsValue) :
  (extractDomainFromWebsiteOrEmail URL_hostname website email = JNull
   \/ exists t, extractDomainFromWebsiteOrEmail URL_hostname website email = JStr t
                /\ toLowerCase t = t)
  /\ (usable website = false ->
      extractDomainFromWebsiteOrEmail URL_hostname website email
      = extractDomainFromWebsiteOrEmail URL_hostname JUndefined email)
  /\ (usable website = false ->
      truthy email && isString email && includesChar "@" (asString email) = false ->
      extractDomainFromWebsiteOrEmail URL_hostname website email = JNull).
Proof.
  assert (Hshape : forall v : JsValue,
            (v = JNull \/ exists t, v = JStr (toLowerCase t)) ->
            v = JNull \/ exists t, v = JStr t /\ toLowerCase t = t).
  { intros v [->|[t ->]]; [now left|]. right. exists (toLowerCase t).
    split; [reflexivity | apply toLowerCase_idem]. }
  assert (Hweb : usable website = false ->
            extractDomainFromWebsiteOrEmail URL_hostname website email
            = extractDomainFromWebsiteOrEmail URL_hostname JUndefined email).
  { unfold usable, extractDomainFromWebsiteOrEmail. cbn [truthy andb].
    destruct (truthy website && isString website); [|reflexivity].
    simpl. now intros ->. }
  split; [|split; [exact Hweb|]].
  - apply Hshape. unfold extractDomainFromWebsiteOrEmail.
    repeat match goal with
           | |- context [if ?b then _ else _] => destruct b
           | |- context [match ?o with Some _ => _ | None => _ end] => destruct o
           end; eauto.
  - intros Hw He. rewrite (Hweb Hw).
    unfold extractDomainFromWebsiteOrEmail. cbn [truthy andb]. now rewrite He.
Qed.

(** ** The key shapes of the bulk import *)

Lemma append_colon_inj (d1 d2 n1 n2 : string) :
  colonFree d1 = true -> colonFree d2 = true ->
  d1 +:+ ":" +:+ n1 = d2 +:+ ":" +:+ n2 -> d1 = d2 /\ n1 = n2.
Proof.
  unfold colonFree. revert d2.
  induction d1 as [|c d1 IH]; intros [|c' d2]; simpl; intros H1 H2 Heq.
  - now inversion Heq.
  - inversion Heq; subst c'. simpl in H2. discriminate.
  - inversion Heq; subst c. simpl in H1. discriminate.
  - inversion Heq as [[Hc Hrest]]; subst c'.
    apply negb_true_iff in H1, H2. apply orb_false_elim in H1 as [_ H1].
    apply orb_false_elim in H2 as [_ H2].
    destruct (IH d2) as [-> ->]; [now rewrite H1 | now rewrite H2 | exact Hrest|].
    now split.
Qed.

(** X4. The keys of the dedupe lookups are unambiguous as far as this
    goes: two email keys are equal only for equal emails, an email key is
    never a domain+name key, and two domain+name keys are equal only for
    equal pairs when neither domain contains a colon.  With a colon in a
    domain two different pairs can produce one key. *)
Theorem lookup_keys_unambiguous :
  (forall e1 e2, emailKey e1 = emailKey e2 -> e1 = e2)
  /\ (forall e d n, emailKey e <> dnKey d n)
  /\ (forall d1 n1 d2 n2,
        colonFree d1 = true -> colonFree d2 = true ->
        dnKey d1 n1 = dnKey d2 n2 -> d1 = d2 /\ n1 = n2)
  /\ dnKey "a" "b:c" = dnKey "a:b" "c".
Proof.
  split; [|split; [|split]].
  - intros e1 e2 H. now inversion H.
  - intros e d n H. inversion H.
  - intros d1 n1 d2 n2 H1 H2 H. unfold dnKey in H. inversion H.
    now apply append_colon_inj.
  - reflexivity.
Qed.

(** ** Single create and bulk import against each other *)

Lemma sqlBind_truthy_normalized (v : JsValue) :
  isNormalized v = true -> truthy v = true ->
  exists s, v = JStr s /\ sqlBind v = Some s /\ String_ v = s /\ nonEmpty s = true.
Proof.
  destruct v as [| |b|z|s|l|o]; try discriminate. intros _ H. now exists s.
Qed.

Lemma sqlEq_Some (column : option string) (s : string) :
  sqlEq column (Some s) = true -> column = Some s.
Proof.
  destruct column as [c|]; simpl; [|discriminate].
  intros H. apply String.eqb_eq in H. now subst.
Qed.

(** A row that matches the key material of a candidate shares a key with
    it, in the shapes of the bulk import. *)
Lemma identityMatches_key (U : string -> option string) (raw : JsValue) (r : Prospect) :
  identityMatches (normalizeEmail (getProp raw "email"))
    (extractDomainFromWebsiteOrEmail U (getProp raw "website") (getProp raw "email"))
    (normalizeName (getProp raw "contactName")) r = true ->
  exists k, rowHasKey r k /\ (keyEmail raw = Some k \/ keyDomain U raw = Some k).
Proof.
  unfold identityMatches, emailMatches, domainNameMatches. intros H.
  apply orb_prop in H as [H|H].
  - apply andb_prop in H as [Ht He].
    destruct (sqlBind_truthy_normalized _ (normalizeEmail_normalized _) Ht)
      as (s & Hv & Hb & Hs & Hne).
    rewrite Hb in He. apply sqlEq_Some in He.
    exists (emailKey s). split.
    + left. unfold rowKeyEmail. rewrite He. simpl. now rewrite Hne.
    + left. unfold keyEmail, keyEmailOf. now rewrite Ht, Hs.
  - apply andb_prop in H as [H Hn]. apply andb_prop in H as [H Hd].
    apply andb_prop in H as [Htd Htn].
    destruct (sqlBind_truthy_normalized _ (extractDomain_normalized U _ _) Htd)
      as (d & Hvd & Hbd & Hsd & Hned).
    destruct (sqlBind_truthy_normalized _ (normalizeName_normalized _) Htn)
      as (n & Hvn & Hbn & Hsn & Hnen).
    rewrite Hbd in Hd. rewrite Hbn in Hn.
    apply sqlEq_Some in Hd, Hn.
    exists (dnKey d n). split.
    + right. unfold rowKeyDomain. rewrite Hd, Hn. simpl. now rewrite Hned, Hnen.
    + right. unfold keyDomain, keyDomainOf. now rewrite Htd, Htn, Hsd, Hsn.
Qed.

Lemma admits_existing_key (U : string -> option string) (db : Db) (r : Prospect)
    (k : string) (raw : JsValue) (seen : gset string) :
  In r (prospects db) -> rowHasKey r k ->
  keyEmail raw = Some k \/ keyDomain U raw = Some k ->
  admits U (fst (loadSnapshot (prospects db))) (snd (loadSnapshot (prospects db)))
         seen raw = false.
Proof.
  intros Hin Hr Hk.
  destruct (snapshot_complete (prospects db) (∅, ∅) r k Hin Hr) as [Hsome _].
  fold (loadSnapshot (prospects db)) in Hsome.
  assert (Hm : mapHas (Some k) (fst (loadSnapshot (prospects db))) = true)
    by (simpl; now apply bool_decide_eq_true).
  assert (Hdup : duplicateKey U (fst (loadSnapshot (prospects db))) seen raw = true).
  { unfold duplicateKey. destruct Hk as [-> | ->]; rewrite Hm.
    - reflexivity.
    - now rewrite orb_true_r. }
  unfold admits. rewrite Hdup.
  now destruct (negb (truthy raw) || negb (typeofObject raw)), (negb (hasIdentifier raw)).
Qed.

(** X5. Whatever the single create refuses as a duplicate, the bulk import
    refuses too: if [POST /prospects] answers 409 for an object, a batch
    made of this object admits no row and answers 400, inserting
    nothing. *)
Theorem single_conflict_implies_bulk_skip (URL_hostname : string -> option string)
    (genId : nat -> string) (id now sourceId : string)
    (props : list (string * JsValue)) (db : Db) :
  res_status (fst (postProspect URL_hostname id now (JObj props) db)) = 409 ->
  validProspectsOf URL_hostname genId sourceId [JObj props] db = []
  /\ postBulk URL_hostname genId now sourceId (JObj [("prospects", JArr [JObj props])]) db
     = (respond 400 (BError "No valid prospects to import"), db).
Proof.
  intros H.
  assert (Hdup : exists row,
             checkDuplicateProspect db (bodyEmail (JObj props))
               (bodyDomain URL_hostname (JObj props)) (bodyContactName (JObj props))
             = Some row).
  { unfold postProspect in H. cbv zeta in H.
    unfold bodyEmail, bodyDomain, bodyContactName.
    destruct (checkDuplicateProspect db _ _ _) as [row|]; [now exists row|].
    destruct (insertProspect _ db); discriminate. }
  destruct Hdup as [row Hrow].
  apply checkDuplicateProspect_some in Hrow as (r & Hin & Hm & _).
  apply (identityMatches_key URL_hostname (JObj props)) in Hm as (k & Hr & Hk).
  assert (Hv : validProspectsOf URL_hostname genId sourceId [JObj props] db = []).
  { apply validProspectsOf_skipped. intros seen.
    now apply (admits_existing_key URL_hostname db r k). }
  split; [exact Hv|]. unfold postBulk. cbn [jsOr truthy getProp assoc String.eqb Ascii.eqb Bool.eqb].
  now rewrite Hv.
Qed.

Lemma single_conflict_implies_bulk_skip_witness :
  validProspectsOf hostnameOfSimpleUrl (fun _ => "pros_new") "src_1"
    [JObj [("contactName", JStr "Jane Doe"); ("email", JStr "j.doe@acme.com")]] janeDb = [].
Proof.
  exact (proj1 (single_conflict_implies_bulk_skip hostnameOfSimpleUrl (fun _ => "pros_new")
                  "pros_x" "2025-03-01 08:00:00" "src_1"
                  [("contactName", JStr "Jane Doe"); ("email", JStr "j.doe@acme.com")]
                  janeDb eq_refl)).
Defined.

(** ** Create, then create again *)

Lemma find_app_first {A : Type} (f : A -> bool) (l : list A) (x : A) :
  (forall y, In y l -> f y = false) -> f x = true ->
  List.find f (l ++ [x])%list = Some x.
Proof.
  induction l as [|y l IH]; simpl; intros Hn Hx; [now rewrite Hx|].
  rewrite (Hn y) by now left. apply IH; [|exact Hx]. intros z Hz. apply Hn. now right.
Qed.

Lemma postProspect_201_inv (U : string -> option string) (id now : string)
    (body : JsValue) (db : Db) :
  res_status (fst (postProspect U id now body db)) = 201 ->
  checkDuplicateProspect db (bodyEmail body) (bodyDomain U body) (bodyContactName body)
  = None
  /\ getProspectById db id = None
  /\ exists row,
       postProspect U id now body db
       = (respond 201 (BRow (Some row)), mkDb (prospects db ++ [row]) (prospect_notes db))
       /\ pr_id row = id
       /\ pr_normalizedEmail row = sqlBind (bodyEmail body)
       /\ pr_normalizedDomain row = sqlBind (bodyDomain U body)
       /\ pr_normalizedContactName row = sqlBind (bodyContactName body)
       /\ pr_archivedAt row = None /\ pr_suppressedAt row = None
       /\ pr_createdAt row = now.
Proof.
  unfold postProspect, bodyEmail, bodyDomain, bodyContactName. cbv zeta.
  destruct (checkDuplicateProspect db _ _ _) as [row|]; [discriminate|].
  unfold insertProspect. cbn [pr_id].
  destruct (getProspectById db id) eqn:Hf; [discriminate|].
  intros _. split; [reflexivity|]. split; [reflexivity|].
  eexists. split.
  - unfold getProspectById at 1. cbn [prospects].
    rewrite find_app_fresh; [reflexivity | exact Hf |].
    unfold hasId. cbn [pr_id]. apply String.eqb_refl.
  - repeat split.
Qed.

Lemma sqlEq_refl_truthy (v : JsValue) :
  isNormalized v = true -> truthy v = true -> sqlEq (sqlBind v) (sqlBind v) = true.
Proof.
  intros Hn Ht. destruct (sqlBind_truthy_normalized v Hn Ht) as (s & _ & -> & _).
  simpl. apply String.eqb_refl.
Qed.

(** X6. A create that succeeded makes the same request a duplicate: when
    the candidate has an email key or a domain+name pair and the first
    [POST /prospects] answered 201, the repetition answers 409 with the
    identifier of the row just created, and inserts nothing. *)
Theorem create_twice_conflicts (URL_hostname : string -> option string)
    (id1 id2 now1 now2 : string) (body : JsValue) (db : Db) :
  truthy (bodyEmail body)
  || (truthy (bodyDomain URL_hostname body) && truthy (bodyContactName body)) = true ->
  res_status (fst (postProspect URL_hostname id1 now1 body db)) = 201 ->
  postProspect URL_hostname id2 now2 body
    (snd (postProspect URL_hostname id1 now1 body db))
  = (respond 409 (BDuplicate id1), snd (postProspect URL_hostname id1 now1 body db)).
Proof.
  intros Hkey H201.
  destruct (postProspect_201_inv _ _ _ _ _ H201)
    as (Hnone & Hfresh & row & -> & Hid & He & Hd & Hn & _).
  cbn [snd].
  apply (postProspect_duplicate URL_hostname id2 now2 body _ (id1, pr_suppressedAt row)).
  assert (Hold : forall r, In r (prospects db) ->
            identityMatches (bodyEmail body) (bodyDomain URL_hostname body)
              (bodyContactName body) r = false).
  { intros r Hin. now apply (checkDuplicateProspect_none db _ _ _ r Hnone). }
  unfold checkDuplicateProspect, selectByEmail, selectByDomainName. cbn [prospects].
  destruct (truthy (bodyEmail body)) eqn:Te.
  - rewrite (find_app_first _ (prospects db) row); [now rewrite Hid | |].
    + intros r Hin. pose proof (Hold r Hin) as Hm.
      unfold identityMatches, emailMatches in Hm. rewrite Te in Hm.
      now apply orb_false_elim in Hm as [Hm _].
    + rewrite He. apply sqlEq_refl_truthy; [apply normalizeEmail_normalized | exact Te].
  - simpl in Hkey. rewrite Hkey.
    apply andb_prop in Hkey as [Td Tn].
    rewrite (find_app_first _ (prospects db) row); [now rewrite Hid | |].
    + intros r Hin. pose proof (Hold r Hin) as Hm.
      unfold identityMatches, domainNameMatches in Hm. rewrite Td, Tn in Hm.
      now apply orb_false_elim in Hm as [_ Hm].
    + rewrite Hd, Hn.
      rewrite sqlEq_refl_truthy;
        [| apply extractDomain_normalized | exact Td].
      apply sqlEq_refl_truthy; [apply normalizeName_normalized | exact Tn].
Qed.

Lemma create_twice_conflicts_witness :
  postProspect hostnameOfSimpleUrl "pros_b" "t2" (JObj [("email", JStr "new@x.com")])
    (snd (postProspect hostnameOfSimpleUrl "pros_a" "t1"
            (JObj [("email", JStr "new@x.com")]) janeDb))
  = (respond 409 (BDuplicate "pros_a"),
     snd (postProspect hostnameOfSimpleUrl "pros_a" "t1"
            (JObj [("email", JStr "new@x.com")]) janeDb)).
Proof.
  exact (create_twice_conflicts hostnameOfSimpleUrl "pros_a" "pros_b" "t1" "t2"
           (JObj [("email", JStr "new@x.com")]) janeDb eq_refl eq_refl).
Defined.

(** ** The lifecycle flags and the dedupe *)

Lemma lifecycleSet_keepsIdentity (a : Lifecycle) : keepsIdentity (lifecycleSet a).
Proof. destruct a; intros r; repeat split. Qed.

Lemma applyLifecycle_snd (a : Lifecycle) (i : string) (db : Db) :
  snd (applyLifecycle a i db)
  = mkDb (map (fun r => if hasId i r then lifecycleSet a r else r) (prospects db))
         (prospect_notes db).
Proof.
  destruct a; simpl; unfold patchArchive, patchRestore, patchSuppress, patchUnsuppress,
    patchFlag, updateArchivedAt, updateProspects;
    now destruct (Nat.eqb _ 0).
Qed.

Lemma keepsIdentity_at (f : Prospect -> Prospect) (i : string) :
  keepsIdentity f -> keepsIdentity (fun r => if hasId i r then f r else r).
Proof. intros H r. destruct (hasId i r); [apply H | repeat split]. Qed.

Lemma rowKeys_keepsIdentity (f : Prospect -> Prospect) (r : Prospect) :
  keepsIdentity f ->
  rowKeyEmail (f r) = rowKeyEmail r /\ rowKeyDomain (f r) = rowKeyDomain r
  /\ pr_id (f r) = pr_id r.
Proof.
  intros H. destruct (H r) as (Hi & He & Hd & Hn).
  unfold rowKeyEmail, rowKeyDomain. now rewrite He, Hd, Hn, Hi.
Qed.

Lemma snapshot_fst_map (f : Prospect -> Prospect) (rows : list Prospect)
    (acc acc' : gmap string string * gset string) :
  keepsIdentity f -> fst acc = fst acc' ->
  fst (fold_left snapshotRow (map f rows) acc) = fst (fold_left snapshotRow rows acc').
Proof.
  intros Hf. revert acc acc'.
  induction rows as [|r rows IH]; intros [ex su] [ex' su'] H;
    cbn [map fold_left]; [exact H|].
  apply IH. rewrite !snapshotRow_fst. cbn [fst] in H.
  destruct (rowKeys_keepsIdentity f r Hf) as (-> & -> & ->). now subst.
Qed.

(** Every key of the suppressed lookup is a key of the existing lookup. *)
Lemma suppressed_covered (rows : list Prospect) (k : string) :
  k ∈ snd (loadSnapshot rows) -> is_Some (fst (loadSnapshot rows) !! k).
Proof.
  intros H. apply loadSnapshot_sound in H as (r & Hin & Hk).
  now destruct (snapshot_complete rows (∅, ∅) r k Hin Hk) as [Hs _].
Qed.

Lemma suppressedHit_duplicateKey (U : string -> option string)
    (ex : gmap string string) (su seen : gset string) (raw : JsValue) :
  (forall k, k ∈ su -> is_Some (ex !! k)) ->
  suppressedHit U su raw = true -> duplicateKey U ex seen raw = true.
Proof.
  intros Hcov H. unfold suppressedHit in H. unfold duplicateKey.
  assert (Hkey : forall key, setHas key su = true -> mapHas key ex = true).
  { intros [k|]; simpl; [|discriminate]. intros Hk.
    apply bool_decide_eq_true in Hk. apply bool_decide_eq_true. now apply Hcov. }
  apply orb_prop in H as [H|H]; rewrite (Hkey _ H); [reflexivity|].
  now rewrite orb_true_r.
Qed.

Lemma admits_covered (U : string -> option string) (ex : gmap string string)
    (su1 su2 seen : gset string) (raw : JsValue) :
  (forall k, k ∈ su1 -> is_Some (ex !! k)) ->
  (forall k, k ∈ su2 -> is_Some (ex !! k)) ->
  admits U ex su1 seen raw = admits U ex su2 seen raw.
Proof.
  intros H1 H2. unfold admits.
  destruct (negb (truthy raw) || negb (typeofObject raw)); [reflexivity|].
  destruct (negb (hasIdentifier raw)); [reflexivity|].
  destruct (duplicateKey U ex seen raw) eqn:D; [reflexivity|]. simpl.
  destruct (suppressedHit U su1 raw) eqn:S1.
  - now rewrite (suppressedHit_duplicateKey U ex su1 seen raw H1 S1) in D.
  - destruct (suppressedHit U su2 raw) eqn:S2; [|reflexivity].
    now rewrite (suppressedHit_duplicateKey U ex su2 seen raw H2 S2) in D.
Qed.

Lemma bulkLoop_covered (U : string -> option string) (genId : nat -> string)
    (sourceId : string) (ex : gmap string string) (su1 su2 : gset string)
    (rows : list JsValue) :
  (forall k, k ∈ su1 -> is_Some (ex !! k)) ->
  (forall k, k ∈ su2 -> is_Some (ex !! k)) ->
  bulkLoop U genId sourceId ex su1 rows = bulkLoop U genId sourceId ex su2 rows.
Proof.
  intros H1 H2. unfold bulkLoop. generalize (∅ : gset string, @nil ValidProspect).
  induction rows as [|raw rows IH]; intros st; simpl; [reflexivity|].
  rewrite <- IH. f_equal. destruct st as [seen valid]. unfold bulkStep.
  now rewrite (admits_covered U ex su1 su2 seen raw H1 H2).
Qed.

(** X7. In the bulk import the suppressed lookup decides nothing: a row
    that hits it also hits the lookup of existing rows.  Hence archiving,
    restoring, suppressing or unsuppressing a prospect never changes which
    rows a batch admits; a suppressed contact stays excluded after it is
    unsuppressed, because its row still exists. *)
Theorem lifecycle_does_not_change_bulk (URL_hostname : string -> option string)
    (genId : nat -> string) (sourceId : string) (rows : list JsValue)
    (a : Lifecycle) (i : string) (db : Db) (seen : gset string) (raw : JsValue) :
  (suppressedHit URL_hostname (snd (loadSnapshot (prospects db))) raw = true ->
   duplicateKey URL_hostname (fst (loadSnapshot (prospects db))) seen raw = true)
  /\ validProspectsOf URL_hostname genId sourceId rows (snd (applyLifecycle a i db))
     = validProspectsOf URL_hostname genId sourceId rows db.
Proof.
  split.
  - apply suppressedHit_duplicateKey. intros k. apply suppressed_covered.
  - rewrite applyLifecycle_snd. unfold validProspectsOf. cbn [prospects].
    set (f := fun r => if hasId i r then lifecycleSet a r else r).
    assert (Hex : fst (loadSnapshot (map f (prospects db)))
                  = fst (loadSnapshot (prospects db))).
    { apply snapshot_fst_map; [|reflexivity].
      apply keepsIdentity_at, lifecycleSet_keepsIdentity. }
    pose proof (suppressed_covered (map f (prospects db))) as C1.
    pose proof (suppressed_covered (prospects db)) as C2.
    destruct (loadSnapshot (map f (prospects db))) as [ex1 su1].
    destruct (loadSnapshot (prospects db)) as [ex2 su2].
    simpl in *. subst ex1.
    now rewrite (bulkLoop_covered URL_hostname genId sourceId ex2 su1 su2 rows C1 C2).
Qed.

Lemma find_map_keeps {A : Type} (P : A -> bool) (f : A -> A) (l : list A) :
  (forall x, P (f x) = P x) ->
  List.find P (map f l) = option_map f (List.find P l).
Proof.
  intros H. induction l as [|x l IH]; simpl; [reflexivity|].
  rewrite H. now destruct (P x).
Qed.

Lemma checkDuplicate_keepsIdentity (f : Prospect -> Prospect) (db : Db)
    (ne nd nn : JsValue) :
  keepsIdentity f ->
  option_map fst (checkDuplicateProspect (mkDb (map f (prospects db)) (prospect_notes db))
                    ne nd nn)
  = option_map fst (checkDuplicateProspect db ne nd nn).
Proof.
  intros Hf.
  assert (He : option_map fst (selectByEmail (mkDb (map f (prospects db)) (prospect_notes db)) ne)
               = option_map fst (selectByEmail db ne)).
  { unfold selectByEmail. cbn [prospects]. rewrite find_map_keeps.
    - destruct (List.find _ (prospects db)) as [r|]; simpl; [|reflexivity].
      now destruct (Hf r) as (-> & _).
    - intros r. now destruct (Hf r) as (_ & -> & _). }
  assert (Hd : option_map fst (selectByDomainName
                                 (mkDb (map f (prospects db)) (prospect_notes db)) nd nn)
               = option_map fst (selectByDomainName db nd nn)).
  { unfold selectByDomainName. cbn [prospects]. rewrite find_map_keeps.
    - destruct (List.find _ (prospects db)) as [r|]; simpl; [|reflexivity].
      now destruct (Hf r) as (-> & _).
    - intros r. now destruct (Hf r) as (_ & _ & -> & ->). }
  unfold checkDuplicateProspect.
  destruct (truthy ne); [|now destruct (truthy nd && truthy nn)].
  destruct (selectByEmail (mkDb _ _) ne) as [row1|],
    (selectByEmail db ne) as [row2|]; simpl in He; try discriminate;
    [exact He|].
  now destruct (truthy nd && truthy nn).
Qed.

Lemma getProspectById_keepsIdentity (f : Prospect -> Prospect) (db : Db) (i : string) :
  keepsIdentity f ->
  getProspectById (mkDb (map f (prospects db)) (prospect_notes db)) i
  = option_map f (getProspectById db i).
Proof.
  intros Hf. unfold getProspectById. cbn [prospects]. apply find_map_keeps.
  intros r. unfold hasId. now destruct (Hf r) as (-> & _).
Qed.

(** X8. The lifecycle flags play no role in the single create either: after
    archiving, restoring, suppressing or unsuppressing any prospect,
    [POST /prospects] gives the same response to the same request as
    before; in particular an archived or suppressed row keeps blocking its
    identity with 409. *)
Theorem lifecycle_does_not_change_single_create (URL_hostname : string -> option string)
    (id now : string) (body : JsValue) (a : Lifecycle) (i : string) (db : Db) :
  fst (postProspect URL_hostname id now body (snd (applyLifecycle a i db)))
  = fst (postProspect URL_hostname id now body db).
Proof.
  rewrite applyLifecycle_snd.
  set (f := fun r => if hasId i r then lifecycleSet a r else r).
  assert (Hf : keepsIdentity f) by apply keepsIdentity_at, lifecycleSet_keepsIdentity.
  pose proof (checkDuplicate_keepsIdentity f db (bodyEmail body)
                (bodyDomain URL_hostname body) (bodyContactName body) Hf) as Hc.
  unfold postProspect. cbv zeta.
  unfold bodyEmail, bodyDomain, bodyContactName in Hc.
  destruct (checkDuplicateProspect (mkDb _ _) _ _ _) as [row1|],
    (checkDuplicateProspect db _ _ _) as [row2|]; simpl in Hc; try discriminate.
  - inversion Hc. simpl. now f_equal.
  - unfold insertProspect. cbn [pr_id].
    rewrite (getProspectById_keepsIdentity f db id Hf).
    destruct (getProspectById db id) eqn:Hfresh; [reflexivity|]. simpl.
    unfold getProspectById in *. cbn [prospects].
    rewrite !find_app_fresh; try reflexivity; try exact Hfresh;
      try (unfold hasId; cbn [pr_id]; apply String.eqb_refl).
    rewrite find_map_keeps, Hfresh; [reflexivity|].
    intros r. unfold hasId. now destruct (Hf r) as (-> & _).
Qed.

(** ** The lifecycle actions *)

Lemma db_eta (db : Db) : mkDb (prospects db) (prospect_notes db) = db.
Proof. now destruct db. Qed.

Lemma map_id_on {A : Type} (f : A -> A) (l : list A) :
  (forall x, In x l -> f x = x) -> map f l = l.
Proof.
  induction l as [|x l IH]; intros H; simpl; [reflexivity|].
  rewrite (H x) by now left. f_equal. apply IH. intros y Hy. apply H. now right.
Qed.

Lemma getProspectById_none_hasId (db : Db) (i : string) (r : Prospect) :
  getProspectById db i = None -> In r (prospects db) -> hasId i r = false.
Proof. unfold getProspectById. intros H Hin. exact (find_none _ _ H r Hin). Qed.

Lemma updateProspects_unknown (set : Prospect -> Prospect) (i : string) (db : Db) :
  getProspectById db i = None -> updateProspects set i db = (db, 0).
Proof.
  intros H. unfold updateProspects. f_equal.
  - rewrite map_id_on; [apply db_eta|].
    intros r Hr. now rewrite (getProspectById_none_hasId db i r H Hr).
  - rewrite filter_none; [reflexivity|].
    intros r Hr. exact (getProspectById_none_hasId db i r H Hr).
Qed.

Lemma updateArchivedAt_eq (now i : string) (db : Db) :
  updateArchivedAt now i db = updateProspects (setArchivedAt now) i db.
Proof. reflexivity. Qed.

Lemma patchArchive_eq (now i : string) (db : Db) :
  patchArchive now i db = patchFlag (setArchivedAt now) i db.
Proof. reflexivity. Qed.

Lemma filter_hasId_found (i : string) (l : list Prospect) (p : Prospect) :
  List.find (hasId i) l = Some p ->
  Nat.eqb (List.length (List.filter (hasId i) l)) 0 = false.
Proof.
  induction l as [|x l IH]; simpl; [discriminate|].
  destruct (hasId i x); [reflexivity | exact IH].
Qed.

Lemma find_map_hasId (set : Prospect -> Prospect) (i : string) (l : list Prospect) :
  (forall r, pr_id (set r) = pr_id r) ->
  List.find (hasId i) (map (fun r => if hasId i r then set r else r) l)
  = option_map set (List.find (hasId i) l).
Proof.
  intros Hid. induction l as [|x l IH]; simpl; [reflexivity|].
  destruct (hasId i x) eqn:E.
  - unfold hasId at 1. rewrite Hid. unfold hasId in E. now rewrite E.
  - now rewrite E.
Qed.

Lemma patchFlag_found (set : Prospect -> Prospect) (i : string) (db : Db) (p : Prospect) :
  (forall r, pr_id (set r) = pr_id r) ->
  getProspectById db i = Some p ->
  patchFlag set i db
  = (respond 200 (BRow (Some (set p))),
     mkDb (map (fun r => if hasId i r then set r else r) (prospects db))
          (prospect_notes db)).
Proof.
  intros Hid H. unfold patchFlag, updateProspects.
  unfold getProspectById in *. rewrite (filter_hasId_found i _ p H).
  cbn [prospects]. now rewrite (find_map_hasId set i _ Hid), H.
Qed.

(** X9. A lifecycle action, a status patch or a delete on an identifier no
    prospect carries answers 404 and leaves the tables as they were. *)
Theorem unknown_prospect_404 (i : string) (db : Db) (a : Lifecycle) (status : string) :
  getProspectById db i = None ->
  existsb (String.eqb status) allowedStatuses = true ->
  applyLifecycle a i db = (respond 404 (BError "Prospect not found"), db)
  /\ patchProspect i (JObj [("status", JStr status)]) db
     = (respond 404 (BError "Prospect not found"), db)
  /\ deleteProspect i db = (respond 404 (BError "Prospect not found"), db).
Proof.
  intros H Hs. split; [|split].
  - destruct a; unfold applyLifecycle; rewrite ?patchArchive_eq;
      unfold patchRestore, patchSuppress, patchUnsuppress, patchFlag;
      now rewrite (updateProspects_unknown _ i db H).
  - unfold patchProspect. cbn [jsOr truthy getProp assoc String.eqb Ascii.eqb Bool.eqb].
    cbn [isString negb orb includesValue]. rewrite Hs.
    assert (Ht : negb (status =? "")%string = true).
    { destruct status; [discriminate | reflexivity]. }
    rewrite Ht. cbn [negb]. unfold updateProspectStatus.
    now rewrite (updateProspects_unknown _ i db H).
  - unfold deleteProspect. now rewrite H.
Qed.

Lemma unknown_prospect_404_witness :
  applyLifecycle (Suppress "2025-03-01 08:00:00") "pros_nobody" janeDb
  = (respond 404 (BError "Prospect not found"), janeDb).
Proof.
  exact (proj1 (unknown_prospect_404 "pros_nobody" janeDb (Suppress "2025-03-01 08:00:00")
                  "qualified" eq_refl eq_refl)).
Defined.

Ltac as_lifecycle :=
  repeat match goal with
         | |- context [patchArchive ?n ?i ?d] =>
             change (patchArchive n i d) with (applyLifecycle (Archive n) i d)
         | |- context [patchRestore ?i ?d] =>
             change (patchRestore i d) with (applyLifecycle Restore i d)
         | |- context [patchSuppress ?n ?i ?d] =>
             change (patchSuppress n i d) with (applyLifecycle (Suppress n) i d)
         | |- context [patchUnsuppress ?i ?d] =>
             change (patchUnsuppress i d) with (applyLifecycle Unsuppress i d)
         end;
  rewrite !applyLifecycle_snd.

(** X10. Archive followed by restore, and suppress followed by unsuppress,
    give back the tables exactly as they were, provided the prospect was
    not archived, respectively not suppressed, to begin with. *)
Theorem lifecycle_round_trips (now i : string) (db : Db) :
  ((forall r, In r (prospects db) -> pr_id r = i -> pr_archivedAt r = None) ->
   snd (patchRestore i (snd (patchArchive now i db))) = db)
  /\ ((forall r, In r (prospects db) -> pr_id r = i -> pr_suppressedAt r = None) ->
      snd (patchUnsuppress i (snd (patchSuppress now i db))) = db).
Proof.
  split; intros H.
  - as_lifecycle.
    cbn [prospects prospect_notes lifecycleSet]. rewrite map_map.
    rewrite map_id_on; [apply db_eta|].
    intros r Hr. destruct (hasId i r) eqn:E.
    + unfold hasId at 1. cbn [pr_id setArchivedAt]. unfold hasId in E. rewrite E.
      apply String.eqb_eq in E. specialize (H r Hr E).
      destruct r; simpl in *; now subst.
    + now rewrite E.
  - as_lifecycle.
    cbn [prospects prospect_notes lifecycleSet]. rewrite map_map.
    rewrite map_id_on; [apply db_eta|].
    intros r Hr. destruct (hasId i r) eqn:E.
    + unfold hasId at 1. cbn [pr_id withSuppressedAt]. unfold hasId in E. rewrite E.
      apply String.eqb_eq in E. specialize (H r Hr E).
      destruct r; simpl in *; now subst.
    + now rewrite E.
Qed.

(** X11. The two flags are independent: archiving and suppressing, of the
    same or of different prospects, give the same tables in either order,
    an archive or restore changes no [suppressedAt], and a suppress or
    unsuppress changes no [archivedAt]. *)
Theorem lifecycle_flags_independent (t1 t2 i j : string) (db : Db) (a : Lifecycle) :
  snd (patchSuppress t2 j (snd (patchArchive t1 i db)))
  = snd (patchArchive t1 i (snd (patchSuppress t2 j db)))
  /\ match a with
     | Archive _ | Restore =>
         map pr_suppressedAt (prospects (snd (applyLifecycle a i db)))
         = map pr_suppressedAt (prospects db)
     | Suppress _ | Unsuppress =>
         map pr_archivedAt (prospects (snd (applyLifecycle a i db)))
         = map pr_archivedAt (prospects db)
     end.
Proof.
  split.
  - as_lifecycle.
    cbn [prospects prospect_notes lifecycleSet]. rewrite !map_map. f_equal.
    apply map_ext. intros r.
    destruct (hasId i r) eqn:Ei, (hasId j r) eqn:Ej;
      unfold hasId in *; cbn [pr_id setArchivedAt withSuppressedAt];
      rewrite ?Ei, ?Ej; reflexivity.
  - destruct a; rewrite applyLifecycle_snd; cbn [prospects lifecycleSet];
      rewrite map_map; apply map_ext; intros r; now destruct (hasId i r).
Qed.

Lemma whereClauses_flags (q : JsValue) (r : Prospect) :
  whereClauses q r = true ->
  isNull (pr_archivedAt r) = negb (isOne (getProp q "archived"))
  /\ isNull (pr_suppressedAt r) = negb (isOne (getProp q "suppressed")).
Proof.
  unfold whereClauses. cbv zeta. intros Hw.
  repeat (apply andb_prop in Hw as [Hw ?]).
  destruct (isOne (getProp q "archived")), (isOne (getProp q "suppressed"));
    destruct (pr_archivedAt r), (pr_suppressedAt r); try discriminate; now split.
Qed.

(** X12. What a lifecycle action does to the lists: once archived a
    prospect is returned only by queries with [archived=1], once restored
    only by queries without it, once suppressed only by queries with
    [suppressed=1], once unsuppressed only by queries without it. *)
Theorem lifecycle_moves_between_lists (a : Lifecycle) (i : string) (db : Db)
    (q : JsValue) (r : Prospect) :
  In r (listProspects q (snd (applyLifecycle a i db))) ->
  pr_id r = i ->
  match a with
  | Archive _ => isOne (getProp q "archived") = true
  | Restore => isOne (getProp q "archived") = false
  | Suppress _ => isOne (getProp q "suppressed") = true
  | Unsuppress => isOne (getProp q "suppressed") = false
  end.
Proof.
  intros Hin Hid. apply listProspects_In in Hin as [Hin Hw].
  rewrite applyLifecycle_snd in Hin. cbn [prospects] in Hin.
  apply in_map_iff in Hin as (r0 & Hr & _).
  destruct (lifecycleSet_keepsIdentity a r0) as (Hid0 & _).
  assert (Hr' : r = lifecycleSet a r0).
  { destruct (hasId i r0) eqn:E; [now symmetry|].
    subst r. unfold hasId in E. apply String.eqb_neq in E. contradiction. }
  apply whereClauses_flags in Hw as [Ha Hs]. rewrite Hr' in Ha, Hs.
  destruct a; simpl in Ha, Hs.
  - now destruct (isOne (getProp q "archived")).
  - now destruct (isOne (getProp q "archived")).
  - now destruct (isOne (getProp q "suppressed")).
  - now destruct (isOne (getProp q "suppressed")).
Qed.

Lemma lifecycle_moves_between_lists_witness :
  isOne (getProp (JObj [("archived", JStr "1")]) "archived") = true.
Proof.
  apply (lifecycle_moves_between_lists (Archive "2025-03-01 08:00:00") "pros_1" mixedDb
           (JObj [("archived", JStr "1")])
           (plainRow "pros_1" "2025-01-01 09:00:00" (Some "2025-03-01 08:00:00") None)).
  - right. left. reflexivity.
  - reflexivity.
Defined.

(** X13. [PATCH /prospects/:id] accepts exactly the four statuses: any
    other value, a missing one or one that is not a string answers 400
    without a change; an accepted one, whatever the current status of the
    prospect, answers 200 with the row carrying the new status and changes
    nothing but the [status] of the rows with this identifier. *)
Theorem status_patch_behaviour (i : string) (body : JsValue) (db : Db) :
  (includesValue allowedStatuses (getProp (jsOr body (JObj [])) "status") = false ->
   res_status (fst (patchProspect i body db)) = 400
   /\ snd (patchProspect i body db) = db)
  /\ (forall p,
        includesValue allowedStatuses (getProp (jsOr body (JObj [])) "status") = true ->
        getProspectById db i = Some p ->
        patchProspect i body db
        = (respond 200
             (BRow (Some (withStatus (sqlBind (getProp (jsOr body (JObj [])) "status")) p))),
           mkDb (map (fun r =>
                        if hasId i r
                        then withStatus (sqlBind (getProp (jsOr body (JObj [])) "status")) r
                        else r)
                     (prospects db))
                (prospect_notes db))).
Proof.
  unfold patchProspect. cbv zeta.
  set (status := getProp (jsOr body (JObj [])) "status").
  split.
  - intros H. rewrite H. cbn [negb].
    now destruct (negb (truthy status) || negb (isString status)).
  - intros p H Hp. rewrite H. cbn [negb].
    assert (Hs : negb (truthy status) || negb (isString status) = false).
    { destruct status as [| |b|z|s|l|o]; try discriminate.
      destruct s; [discriminate | reflexivity]. }
    rewrite Hs. unfold updateProspectStatus, updateProspects.
    unfold getProspectById in *. rewrite (filter_hasId_found i _ p Hp).
    cbn [prospects].
    now rewrite (find_map_hasId (withStatus (sqlBind status)) i _ (fun r => eq_refl)), Hp.
Qed.

(** X14. A delete that answers 200 removes the rows with this identifier
    and no other row; afterwards the identifier is unknown, and deleting
    it again answers 404. *)
Theorem delete_removes_only_that_prospect (i : string) (db : Db) :
  res_status (fst (deleteProspect i db)) = 200 ->
  getProspectById (snd (deleteProspect i db)) i = None
  /\ (forall r, In r (prospects (snd (deleteProspect i db)))
                <-> In r (prospects db) /\ pr_id r <> i)
  /\ deleteProspect i (snd (deleteProspect i db))
     = (respond 404 (BError "Prospect not found"), snd (deleteProspect i db)).
Proof.
  intros H.
  assert (Hdb : snd (deleteProspect i db)
                = mkDb (List.filter (fun r => negb (hasId i r)) (prospects db))
                       (prospect_notes db)).
  { unfold deleteProspect in *. destruct (getProspectById db i) as [p|] eqn:Hp;
      [|discriminate].
    destruct (truthyText (pr_archivedAt p)); [|discriminate]. cbn [negb] in *.
    unfold deleteProspectRows, foreign_keys in *. cbn [andb] in *.
    unfold getProspectById in Hp. now rewrite (filter_hasId_shorter i _ p Hp). }
  rewrite Hdb.
  assert (Hnone : getProspectById
                    (mkDb (List.filter (fun r => negb (hasId i r)) (prospects db))
                          (prospect_notes db)) i = None).
  { unfold getProspectById. cbn [prospects].
    destruct (List.find _ _) as [r|] eqn:E; [|reflexivity].
    apply find_some in E as [Hin Hr]. apply filter_In in Hin as [_ Hn].
    now rewrite Hr in Hn. }
  split; [exact Hnone|]. split.
  - intros r. cbn [prospects]. rewrite filter_In. unfold hasId.
    rewrite negb_true_iff, String.eqb_neq. reflexivity.
  - unfold deleteProspect. now rewrite Hnone.
Qed.

Lemma delete_removes_only_that_prospect_witness :
  getProspectById
    (snd (deleteProspect "pros_2" mixedDb)) "pros_2" = None.
Proof.
  exact (proj1 (delete_removes_only_that_prospect "pros_2" mixedDb eq_refl)).
Defined.

(** ** Notes *)

(** X15. [POST /prospects/:id/notes] refuses a content that is missing, not
    a string or blank with 400 and no change.  Otherwise (the generated
    note identifier being unused) it answers 201 with the note, whose
    content is the trimmed text.  [GET /prospects/:id/notes] then lists
    the former notes of the identifier and the new one, ordered by
    [datetime(createdAt)] descending; the new note comes first when every
    former note of the identifier is older.  The notes of other
    identifiers and the prospects are untouched.  No prospect needs to
    carry the identifier. *)
Theorem note_added_and_listed (datetime : string -> option string)
    (id now prospectId : string) (body : JsValue) (db : Db) :
  (usable (getProp (jsOr body (JObj [])) "content") = false ->
   postNote id now prospectId body db = (Failed 400 "content is required", db))
  /\ (usable (getProp (jsOr body (JObj [])) "content") = true ->
      existsb (fun n => String.eqb (note_id n) id) (prospect_notes db) = false ->
      exists db',
        postNote id now prospectId body db
        = (Json 201
             (Some (mkNoteView id prospectId
                      (trim (asString (getProp (jsOr body (JObj [])) "content"))) now)),
           db')
        /\ prospects db' = prospects db
        /\ Permutation (getProspectNotes datetime db' prospectId)
             (mkNote id prospectId None
                (trim (asString (getProp (jsOr body (JObj [])) "content"))) now
              :: getProspectNotes datetime db prospectId)
        /\ (forall i n1 n2,
              getProspectNotes datetime db' prospectId !! i = Some n1 ->
              getProspectNotes datetime db' prospectId !! (S i) = Some n2 ->
              keyLt (datetime (note_createdAt n1)) (datetime (note_createdAt n2)) = false)
        /\ ((forall n, In n (getProspectNotes datetime db prospectId) ->
                keyLt (datetime (note_createdAt n)) (datetime now) = true) ->
            getProspectNotes datetime db' prospectId
            = mkNote id prospectId None
                (trim (asString (getProp (jsOr body (JObj [])) "content"))) now
              :: getProspectNotes datetime db prospectId)
        /\ (forall other, other <> prospectId ->
              getProspectNotes datetime db' other = getProspectNotes datetime db other)).
Proof.
  unfold postNote, usable. cbv zeta.
  set (content := getProp (jsOr body (JObj [])) "content").
  split.
  - intros H.
    destruct (truthy content), (isString content), (nonEmpty (trim (asString content)));
      try discriminate; reflexivity.
  - intros H Hfresh. apply andb_prop in H as [H H3]. apply andb_prop in H as [H1 H2].
    rewrite H1, H2, H3. cbn [negb orb].
    unfold addProspectNote. rewrite Hfresh. cbn [prospect_notes].
    set (new := mkNote id prospectId None (trim (asString content)) now).
    exists (mkDb (prospects db) (prospect_notes db ++ [new])).
    assert (Hmine : getProspectNotes datetime
                      (mkDb (prospects db) (prospect_notes db ++ [new])) prospectId
                    = sortBy (fun n x => keyLt (datetime (note_createdAt n))
                                               (datetime (note_createdAt x)))
                        (List.filter
                           (fun n => String.eqb (note_prospectId n) prospectId)
                           (prospect_notes db) ++ [new])).
    { unfold getProspectNotes. cbn [prospect_notes]. rewrite List.filter_app.
      cbn [List.filter]. unfold new at 1. cbn [note_prospectId].
      now rewrite String.eqb_refl. }
    split; [|split; [reflexivity|split; [|split; [|split]]]].
    + f_equal. f_equal.
      assert (Hfind : forall (l : list ProspectNote) (n : ProspectNote),
                existsb (fun m => String.eqb (note_id m) (note_id n)) l = false ->
                List.find (fun m => String.eqb (note_id m) (note_id n)) (l ++ [n])%list
                = Some n).
      { intros l n. induction l as [|x l IH]; simpl.
        - now rewrite String.eqb_refl.
        - intros Hx. apply orb_false_elim in Hx as [Hx Hl]. rewrite Hx. now apply IH. }
      pose proof (Hfind (prospect_notes db) new Hfresh) as Hf.
      cbn [note_id new] in Hf. now rewrite Hf.
    + rewrite Hmine, sortBy_Permutation. unfold getProspectNotes.
      rewrite sortBy_Permutation. symmetry. apply Permutation_cons_append.
    + intros i n1 n2. rewrite Hmine.
      apply (orderedBy_adjacent
               (fun n x => keyLt (datetime (note_createdAt n))
                                 (datetime (note_createdAt x)))).
      apply sortBy_orderedBy. intros a b. apply keyLt_asym.
    + intros Holder. rewrite Hmine. unfold getProspectNotes.
      apply sortBy_last_first. intros x Hx. apply Holder.
      unfold getProspectNotes. now apply sortBy_In.
    + intros other Hne. unfold getProspectNotes. cbn [prospect_notes].
      rewrite List.filter_app. cbn [List.filter]. unfold new at 1.
      cbn [note_prospectId].
      assert (He : (prospectId =? other)%string = false)
        by (apply String.eqb_neq; congruence).
      rewrite He. now rewrite app_nil_r.
Qed.

(** ** Social posts *)

Lemma updateSocialPostStatus_find (c : bool) (nowIso i j status : string)
    (posts : list SocialPost) (p : SocialPost) :
  List.find (postHasId i) posts = Some p ->
  exists p',
    List.find (postHasId i) (snd (updateSocialPostStatus c nowIso j status posts)) = Some p'
    /\ (truthyText (sp_sentAt p) = true -> sp_sentAt p' = sp_sentAt p)
    /\ (i <> j -> p' = p).
Proof.
  intros Hp. unfold updateSocialPostStatus.
  destruct (negb (existsb (String.eqb status) validStatuses)); [now exists p|].
  destruct (List.find (postHasId j) posts) as [existing|] eqn:Hj; [|now exists p].
  destruct c; cbn [negb snd]; [|now exists p].
  rewrite find_map_keeps, Hp.
  - cbn [option_map]. destruct (postHasId j p) eqn:Ejp.
    + eexists. split; [reflexivity|]. split.
      * intros Ht. cbn [sp_sentAt setPostStatus].
        assert (Hij : i = j).
        { apply find_some in Hp as [_ Hi]. unfold postHasId in *.
          apply String.eqb_eq in Hi, Ejp. congruence. }
        subst j. rewrite Hp in Hj. inversion Hj; subst existing.
        rewrite Ht. now rewrite andb_false_r.
      * intros Hne. exfalso. apply Hne.
        apply find_some in Hp as [_ Hi]. unfold postHasId in *.
        apply String.eqb_eq in Hi, Ejp. congruence.
    + exists p. now repeat split.
  - intros x. now destruct (postHasId j x).
Qed.

(** X16. [sentAt] is written once: after any sequence of status updates,
    valid or not, on this or on other posts, a post whose [sentAt] was set
    still has the same [sentAt]. *)
Theorem sentAt_is_never_overwritten (sentAtColumn : bool)
    (updates : list (string * string * string))
    (posts : list SocialPost) (i : string) (p : SocialPost) :
  List.find (postHasId i) posts = Some p ->
  truthyText (sp_sentAt p) = true ->
  exists p', List.find (postHasId i) (runStatusUpdates sentAtColumn updates posts) = Some p'
             /\ sp_sentAt p' = sp_sentAt p.
Proof.
  unfold runStatusUpdates. revert posts p.
  induction updates as [|[[nowIso j] status] updates IH]; intros posts p Hp Ht; simpl.
  - now exists p.
  - destruct (updateSocialPostStatus_find sentAtColumn nowIso i j status posts p Hp)
      as (p1 & H1 & Hs & _).
    specialize (Hs Ht).
    destruct (IH _ p1 H1) as (p' & H' & Hs'); [now rewrite Hs|].
    exists p'. split; [exact H'|]. now rewrite Hs'.
Qed.

Lemma sentAt_is_never_overwritten_witness :
  exists p', List.find (postHasId "post_1")
               (runStatusUpdates true
                                 [("2025-02-01T00:00:00.000Z", "post_1", "draft");
                                  ("2025-02-02T00:00:00.000Z", "post_1", "sent")]
                                 [sentPost]) = Some p'
             /\ sp_sentAt p' = Some "2025-01-02T10:00:00.000Z".
Proof.
  exact (sentAt_is_never_overwritten true
           [("2025-02-01T00:00:00.000Z", "post_1", "draft");
            ("2025-02-02T00:00:00.000Z", "post_1", "sent")]
           [sentPost] "post_1" sentPost eq_refl eq_refl).
Defined.

(** X17. [PATCH /social-posts/:id]: a status outside draft, scheduled, sent
    and archived answers 400 and an unknown identifier 404, both without a
    change.  On a table with the column [sentAt], the first update to
    [sent] of a post without [sentAt] stamps it with the current time, any
    other accepted update of such a post leaves [sentAt] NULL, and only the
    post with this identifier changes.  On the table as [db.js] creates
    it (no column [sentAt]) an accepted status for an existing post answers
    500 and changes nothing. *)
Theorem social_post_status_update (sentAtColumn : bool) (nowIso i status : string)
    (posts : list SocialPost) :
  (existsb (String.eqb status) validStatuses = false ->
   status <> "" ->
   patchSocialPost sentAtColumn nowIso i (JObj [("status", JStr status)]) posts
   = (Failed 400 "Invalid status value for social post", posts))
  /\ (existsb (String.eqb status) validStatuses = true ->
      List.find (postHasId i) posts = None ->
      patchSocialPost sentAtColumn nowIso i (JObj [("status", JStr status)]) posts
      = (Failed 404 "Social post not found", posts))
  /\ (forall p,
        existsb (String.eqb status) validStatuses = true ->
        List.find (postHasId i) posts = Some p ->
        truthyText (sp_sentAt p) = false ->
        patchSocialPost true nowIso i (JObj [("status", JStr status)]) posts
        = (Json 200
             (setPostStatus status
                (if String.eqb status "sent" then Some nowIso else None) p),
           map (fun x =>
                  if postHasId i x
                  then setPostStatus status
                         (if String.eqb status "sent" then Some nowIso else None) x
                  else x) posts))
  /\ (forall p,
        existsb (String.eqb status) validStatuses = true ->
        List.find (postHasId i) posts = Some p ->
        patchSocialPost false nowIso i (JObj [("status", JStr status)]) posts
        = (Failed 500 "Internal server error", posts)).
Proof.
  assert (Hbody : forall s, s <> "" ->
            negb (truthy (getProp (jsOr (JObj [("status", JStr s)]) (JObj [])) "status"))
            || negb (isString (getProp (jsOr (JObj [("status", JStr s)]) (JObj [])) "status"))
            = false).
  { intros s Hs. simpl. destruct s; [congruence | reflexivity]. }
  assert (Hvalid : existsb (String.eqb status) validStatuses = true -> status <> "").
  { intros H ->. discriminate. }
  unfold patchSocialPost. cbv zeta. split; [|split; [|split]].
  - intros H Hne. rewrite (Hbody status Hne). simpl asString.
    cbn [jsOr truthy getProp assoc String.eqb Ascii.eqb Bool.eqb asString].
    unfold updateSocialPostStatus. now rewrite H.
  - intros H Hnone. rewrite (Hbody status (Hvalid H)).
    cbn [jsOr truthy getProp assoc String.eqb Ascii.eqb Bool.eqb asString].
    unfold updateSocialPostStatus. now rewrite H, Hnone.
  - intros p H Hp Ht. rewrite (Hbody status (Hvalid H)).
    cbn [jsOr truthy getProp assoc String.eqb Ascii.eqb Bool.eqb asString].
    unfold updateSocialPostStatus. rewrite H, Hp. cbv zeta. rewrite Ht. cbn [negb andb].
    rewrite andb_true_r.
    rewrite find_map_keeps, Hp;
      [|intros x; destruct (postHasId i x) eqn:E; exact E].
    cbn [option_map]. apply find_some in Hp as [_ Hi]. now rewrite Hi.
  - intros p H Hp. rewrite (Hbody status (Hvalid H)).
    cbn [jsOr truthy getProp assoc String.eqb Ascii.eqb Bool.eqb asString].
    unfold updateSocialPostStatus. now rewrite H, Hp.
Qed.

(** ** Sources *)

Lemma icpFieldsOf_faithful (b : JsValue) (k : string) (old : option string) :
  In k icpKeys ->
  icpColumn (icpFieldsOf b) k old = icpColumn (jsOr b (JObj [])) k old.
Proof.
  intros Hk. unfold icpColumn, icpFieldsOf, icpKeys. cbv zeta.
  set (o := jsOr b (JObj [])).
  destruct Hk as [<-|[<-|[<-|[<-|[]]]]]; cbn [omap list_omap];
    destruct (hasOwn o "targetIndustry"), (hasOwn o "companySize"),
      (hasOwn o "roleFocus"), (hasOwn o "mainAngle"); reflexivity.
Qed.


Lemma icpFieldsOf_keys (b : JsValue) :
  existsb (hasOwn (icpFieldsOf b)) icpKeys = existsb (hasOwn (jsOr b (JObj []))) icpKeys
  /\ (existsb (hasOwn (jsOr b (JObj []))) icpKeys = false -> icpFieldsOf b = JObj [])
  /\ (existsb (hasOwn (jsOr b (JObj []))) icpKeys = true -> icpFieldsOf b <> JObj []).
Proof.
  unfold icpFieldsOf, icpKeys. cbv zeta. set (o := jsOr b (JObj [])).
  cbn [omap list_omap existsb].
  destruct (hasOwn o "targetIndustry"), (hasOwn o "companySize"),
    (hasOwn o "roleFocus"), (hasOwn o "mainAngle");
    repeat split; try reflexivity; try discriminate.
Qed.

Lemma setIcp_icpFieldsOf (b : JsValue) (s : Source) :
  setIcp (icpFieldsOf b) s = setIcp (jsOr b (JObj [])) s.
Proof.
  unfold setIcp. rewrite !icpFieldsOf_faithful; [reflexivity | | | |];
    unfold icpKeys; simpl; tauto.
Qed.

(** X18. [PATCH /sources/:id] changes the ICP columns named in the body and
    no other: a column whose key the body carries takes the value given
    ([null] included), every other column keeps its value.  A body without
    any of the four keys answers 400 and an unknown identifier 404, both
    without a change. *)
Theorem source_patch_behaviour (i : string) (body : JsValue) (sources : list Source) :
  (existsb (hasOwn (jsOr body (JObj []))) icpKeys = false ->
   patchSource i body sources = (Failed 400 "No ICP fields provided", sources))
  /\ (existsb (hasOwn (jsOr body (JObj []))) icpKeys = true ->
      List.find (sourceHasId i) sources = None ->
      patchSource i body sources = (Failed 404 "Source not found", sources))
  /\ (forall s,
        existsb (hasOwn (jsOr body (JObj []))) icpKeys = true ->
        List.find (sourceHasId i) sources = Some s ->
        patchSource i body sources
        = (Json 200 (setIcp (jsOr body (JObj [])) s),
           map (fun x => if sourceHasId i x then setIcp (jsOr body (JObj [])) x else x)
               sources)).
Proof.
  destruct (icpFieldsOf_keys body) as (Hk & Hnil & Hcons).
  unfold patchSource. cbv zeta. split; [|split].
  - intros H. now rewrite (Hnil H).
  - intros H Hnone. specialize (Hcons H).
    assert (Hup : updateSourceIcp i (icpFieldsOf body) sources = (None, sources)).
    { unfold updateSourceIcp. rewrite Hk, H. cbn [negb].
      rewrite filter_none by exact (find_none _ _ Hnone). cbn [List.length Nat.eqb].
      f_equal. apply map_id_on. intros x Hx. now rewrite (find_none _ _ Hnone x Hx). }
    rewrite Hup.
    destruct (icpFieldsOf body) as [| |b|z|s|l|[|kv o]]; try reflexivity. congruence.
  - intros s H Hs. specialize (Hcons H).
    assert (Hup : updateSourceIcp i (icpFieldsOf body) sources
                  = (Some (setIcp (jsOr body (JObj [])) s),
                     map (fun x => if sourceHasId i x
                                   then setIcp (jsOr body (JObj [])) x else x) sources)).
    { unfold updateSourceIcp. rewrite Hk, H. cbn [negb].
      assert (Hlen : Nat.eqb (List.length (List.filter (sourceHasId i) sources)) 0 = false).
      { clear -Hs. induction sources as [|x l IH]; simpl in *; [discriminate|].
        destruct (sourceHasId i x); [reflexivity | now apply IH]. }
      rewrite Hlen.
      assert (Hmap : map (fun x => if sourceHasId i x then setIcp (icpFieldsOf body) x else x)
                         sources
                     = map (fun x => if sourceHasId i x
                                     then setIcp (jsOr body (JObj [])) x else x) sources).
      { apply map_ext. intros x. now rewrite setIcp_icpFieldsOf. }
      rewrite Hmap. f_equal.
      rewrite find_map_keeps, Hs.
      - cbn [option_map]. apply find_some in Hs as [_ Hi]. now rewrite Hi.
      - intros x. destruct (sourceHasId i x) eqn:E; exact E. }
    rewrite Hup.
    destruct (icpFieldsOf body) as [| |b|z|s0|l|[|kv o]]; try reflexivity. congruence.
Qed.

(** ** Enrichment preview *)

Lemma heuristicScore_cases (p : Prospect) :
  exists (e ph w k : bool),
    e = nonBlank (orNull (pr_email p))
    /\ heuristicScore p
       = (40 + (if e then 20 else 0) + (if ph then 10 else 0)
          + (if w then 10 else 0) + (if k then 10 else 0))%Z.
Proof.
  unfold heuristicScore. cbv zeta.
  exists (nonBlank (orNull (pr_email p))), (nonBlank (pr_phone p)),
    (nonBlank (orNull (pr_website p))).
  exists ((includes (loweredTags p) "agency" || includes (loweredTags p) "marketing")
          || (includes (loweredTags p) "consult" || includes (loweredTags p) "advisory")
          || (includes (loweredTags p) "account" || includes (loweredTags p) "finance")).
  split; [reflexivity|].
  destruct (nonBlank (orNull (pr_email p))), (nonBlank (pr_phone p)),
    (nonBlank (orNull (pr_website p))),
    (includes (loweredTags p) "agency" || includes (loweredTags p) "marketing"),
    (includes (loweredTags p) "consult" || includes (loweredTags p) "advisory"),
    (includes (loweredTags p) "account" || includes (loweredTags p) "finance");
    reflexivity.
Qed.

(** X19. The heuristic fit score lies between 40 and 90, so the label
    [cold] is never given.  A prospect with an email is at least [warm],
    and only a prospect with an email can be [hot]. *)
Theorem heuristic_score_bounds (p : Prospect) :
  (40 <= pv_fitScore (buildHeuristicPreview p) <= 90)%Z
  /\ pv_fitLabel (buildHeuristicPreview p) <> "cold"
  /\ pv_fitLabel (buildHeuristicPreview p) = labelOfScore (pv_fitScore (buildHeuristicPreview p))
  /\ (nonBlank (orNull (pr_email p)) = true ->
      pv_fitLabel (buildHeuristicPreview p) = "warm"
      \/ pv_fitLabel (buildHeuristicPreview p) = "hot")
  /\ (pv_fitLabel (buildHeuristicPreview p) = "hot" ->
      nonBlank (orNull (pr_email p)) = true).
Proof.
  cbn [pv_fitScore pv_fitLabel buildHeuristicPreview].
  destruct (heuristicScore_cases p) as (e & ph & w & k & He & ->). rewrite <- He.
  destruct e, ph, w, k; cbn; repeat split; try lia; try discriminate; auto.
Qed.

Lemma enrichPreviewHeuristic_In (sourceId : string) (db : Db) (pv : Preview) :
  In pv (enrichPreviewHeuristic sourceId db)
  <-> exists r, In r (prospects db) /\ pr_sourceId r = Some sourceId
                /\ pr_suppressedAt r = None /\ pv = buildHeuristicPreview r.
Proof.
  unfold enrichPreviewHeuristic, enrichmentProspects. rewrite in_map_iff. split.
  - intros (r & <- & Hr). apply (proj1 (In_orderByCreatedAtDesc _ _)) in Hr.
    apply filter_In in Hr as [Hin Hc]. apply andb_prop in Hc as [Hs Hn].
    exists r. repeat split; [exact Hin | now apply sqlEq_Some |].
    now destruct (pr_suppressedAt r).
  - intros (r & Hin & Hs & Hn & ->). exists r. split; [reflexivity|].
    apply (proj2 (In_orderByCreatedAtDesc _ _)), filter_In. split; [exact Hin|].
    rewrite Hs, Hn. simpl. now rewrite String.eqb_refl.
Qed.

(** X20. Without an OpenAI client the enrichment preview holds exactly one
    entry for each prospect of the source that is not suppressed: a
    suppressed prospect is never previewed, an archived one is. *)
Theorem enrichment_skips_suppressed_only (sourceId : string) (db : Db) :
  (forall pv, In pv (enrichPreviewHeuristic sourceId db)
     <-> exists r, In r (prospects db) /\ pr_sourceId r = Some sourceId
                   /\ pr_suppressedAt r = None /\ pv = buildHeuristicPreview r)
  /\ List.length (enrichPreviewHeuristic sourceId db)
     = List.length (List.filter (fun r => sqlEq (pr_sourceId r) (Some sourceId)
                                          && isNull (pr_suppressedAt r))
                                (prospects db))
  /\ (forall r, In r (prospects db) -> pr_sourceId r = Some sourceId ->
        pr_suppressedAt r = None -> pr_archivedAt r <> None ->
        In (buildHeuristicPreview r) (enrichPreviewHeuristic sourceId db)).
Proof.
  split; [intros pv; apply enrichPreviewHeuristic_In|]. split.
  - unfold enrichPreviewHeuristic, enrichmentProspects. rewrite length_map.
    generalize (List.filter (fun r => sqlEq (pr_sourceId r) (Some sourceId)
                                      && isNull (pr_suppressedAt r)) (prospects db)).
    intros l. rewrite orderByCreatedAtDesc_sortBy.
    apply Permutation_length, sortBy_Permutation.
  - intros r Hin Hs Hn _. apply enrichPreviewHeuristic_In. now exists r.
Qed.

Lemma heuristic_score_fallback (p : Prospect) :
  (40 <= pv_fitScore (buildHeuristicPreview p) <= 90)%Z.
Proof.
  cbn [pv_fitScore buildHeuristicPreview].
  destruct (heuristicScore_cases p) as (e & ph & w & k & _ & ->).
  destruct e, ph, w, k; cbn; lia.
Qed.

(** X21. Whatever array the model answers, the merged preview has one entry
    per prospect, in the order of the prospects and under their own
    identifiers, and every fit score lies between 0 and 100. *)
Theorem merged_previews_follow_prospects (aiPreviews : list JsValue)
    (prospects : list Prospect) :
  map mp_prospectId (mergeAiPreviews aiPreviews prospects) = map pr_id prospects
  /\ (forall m, In m (mergeAiPreviews aiPreviews prospects) ->
        (0 <= mp_fitScore m <= 100)%Z).
Proof.
  unfold mergeAiPreviews. split.
  - rewrite map_map. apply map_ext. intros p. unfold mergePreview.
    now destruct (List.find _ aiPreviews).
  - intros m Hm. apply in_map_iff in Hm as (p & <- & _).
    pose proof (heuristic_score_fallback p) as Hf.
    unfold mergePreview. destruct (List.find _ aiPreviews) as [ai|]; cbn [mp_fitScore].
    + destruct (getProp ai "fitScore"); try lia.
    + lia.
Qed.

(** ** [buildUrlFromDomain] *)

Lemma lastOk_app (s d : string) : d <> "" -> lastOk (s +:+ d) = lastOk d.
Proof.
  intros Hd. induction s as [|c s IH]; [reflexivity|].
  change (String c s +:+ d) with (String c (s +:+ d)). rewrite <- IH.
  destruct (s +:+ d) eqn:E; [|reflexivity].
  exfalso. destruct s as [|a s]; [now apply Hd|].
  change (String a (s +:+ d) = "") in E. discriminate.
Qed.

Lemma prefix_app (p s : string) : String.prefix p (p +:+ s) = true.
Proof.
  induction p as [|c p IH]; [now destruct s|].
  change (String c p +:+ s) with (String c (p +:+ s)). cbn [String.prefix].
  now destruct (ascii_dec c c).
Qed.

(** X22. [buildUrlFromDomain] answers [null] for a falsy or blank domain;
    any URL it answers begins with [http://] or [https://] (in any case of
    the letters), carries no white space at its ends, and is returned
    unchanged when given back to the function. *)
Theorem build_url_is_stable (domain : JsValue) :
  (truthy domain = false -> buildUrlFromDomain domain = Some JNull)
  /\ (forall s, domain = JStr s -> trim s = "" -> buildUrlFromDomain domain = Some JNull)
  /\ (forall u, buildUrlFromDomain domain = Some (JStr u) ->
        hasHttpScheme u = true /\ trim u = u
        /\ buildUrlFromDomain (JStr u) = Some (JStr u)).
Proof.
  split; [|split].
  - intros H. unfold buildUrlFromDomain. now rewrite H.
  - intros s -> Ht. unfold buildUrlFromDomain.
    destruct (negb (truthy (JStr s))); [reflexivity|]. now rewrite Ht.
  - intros u H.
    assert (Hstable : forall d, d <> "" -> trim d = d -> hasHttpScheme d = true ->
              buildUrlFromDomain (JStr d) = Some (JStr d)).
    { intros d Hd Ht Hs. unfold buildUrlFromDomain. simpl truthy.
      destruct d as [|c d]; [congruence|]. cbn [String.eqb negb].
      rewrite Ht, Hs. reflexivity. }
    unfold buildUrlFromDomain in H.
    destruct (negb (truthy domain)); [discriminate|].
    destruct domain as [| |b|z|s|l|o]; try discriminate.
    destruct (nonEmpty (trim s)) eqn:Hne; [|discriminate]. cbn [negb] in H.
    assert (Hd : trim s <> "") by (intros E; now rewrite E in Hne).
    destruct (hasHttpScheme (trim s)) eqn:Hs; cbn [negb] in H; inversion H; subst u.
    + split; [exact Hs|]. split; [apply trim_idem|].
      apply Hstable; [exact Hd | apply trim_idem | exact Hs].
    + assert (Hscheme : hasHttpScheme ("https://" +:+ trim s) = true).
      { unfold hasHttpScheme.
        change (toLowerCase ("https://" +:+ trim s))
          with ("https://" +:+ toLowerCase (trim s)).
        rewrite (prefix_app "https://"). apply orb_true_r. }
      assert (Htrim : trim ("https://" +:+ trim s) = "https://" +:+ trim s).
      { apply trim_id; [reflexivity|].
        rewrite lastOk_app by exact Hd. apply trim_lastOk. }
      split; [exact Hscheme|]. split; [exact Htrim|].
      apply Hstable; [discriminate | exact Htrim | exact Hscheme].
Qed.

(** ** The list query, continued *)

(** X23. [GET /prospects] returns exactly the rows that satisfy every
    clause of the query, each as often as the table holds it (the result
    is a permutation of the matching rows), newest first: no returned row
    is older (by [createdAt]) than the row after it, and rows of the same
    [createdAt] come in the order of the table. *)
Theorem list_is_complete_and_ordered (q : JsValue) (db : Db) :
  Permutation (listProspects q db) (List.filter (whereClauses q) (prospects db))
  /\ (forall i r1 r2,
        listProspects q db !! i = Some r1 -> listProspects q db !! (S i) = Some r2 ->
        String.ltb (pr_createdAt r1) (pr_createdAt r2) = false)
  /\ (forall createdAt,
        List.filter (fun r => String.eqb (pr_createdAt r) createdAt) (listProspects q db)
        = List.filter (fun r => String.eqb (pr_createdAt r) createdAt)
            (List.filter (whereClauses q) (prospects db))).
Proof.
  unfold listProspects. rewrite orderByCreatedAtDesc_sortBy.
  split; [apply sortBy_Permutation|]. split.
  - intros i r1 r2.
    apply (orderedBy_adjacent
             (fun r x => String.ltb (pr_createdAt r) (pr_createdAt x))).
    apply sortBy_orderedBy. intros a b. apply ltb_asym.
  - intros createdAt. apply sortBy_filter. intros a b Ha Hb.
    apply String.eqb_eq in Ha, Hb. rewrite Ha, Hb. apply ltb_irrefl.
Qed.

(** ** Bulk import, continued *)

Lemma validProspectsOf_eq (U : string -> option string) (genId : nat -> string)
    (sourceId : string) (rows : list JsValue) (db : Db) :
  validProspectsOf U genId sourceId rows db
  = snd (bulkLoop U genId sourceId (fst (loadSnapshot (prospects db)))
           (snd (loadSnapshot (prospects db))) rows).
Proof. unfold validProspectsOf. now destruct (loadSnapshot (prospects db)). Qed.

Section BulkLoopMore.

Variable URL_hostname : string -> option string.
Variable genId : nat -> string.
Variable sourceId : string.
Variable existingLookup : gmap string string.
Variable suppressedLookup : gset string.

Local Abbreviation step :=
  (bulkStep URL_hostname genId sourceId existingLookup suppressedLookup).
Local Abbreviation admitsHere :=
  (admits URL_hostname existingLookup suppressedLookup).

Lemma admits_prechecks (seen : gset string) (raw : JsValue) :
  admitsHere seen raw = true ->
  truthy raw = true /\ typeofObject raw = true /\ hasIdentifier raw = true.
Proof.
  unfold admits.
  destruct (truthy raw), (typeofObject raw), (hasIdentifier raw);
    simpl; try discriminate; tauto.
Qed.

Lemma admits_keyless (seen : gset string) (raw : JsValue) :
  truthy raw = true -> typeofObject raw = true -> hasIdentifier raw = true ->
  keyEmail raw = None -> keyDomain URL_hostname raw = None ->
  admitsHere seen raw = true.
Proof.
  intros H1 H2 H3 He Hd. unfold admits, duplicateKey, suppressedHit.
  now rewrite H1, H2, H3, He, Hd.
Qed.

(** A row that passes the first two tests and is not admitted has a key in
    one of the three lookups. *)
Lemma admits_false_key (seen : gset string) (raw : JsValue) :
  truthy raw = true -> typeofObject raw = true -> hasIdentifier raw = true ->
  admitsHere seen raw = false ->
  exists k, (keyEmail raw = Some k \/ keyDomain URL_hostname raw = Some k)
            /\ (is_Some (existingLookup !! k) \/ k ∈ suppressedLookup \/ k ∈ seen).
Proof.
  intros H1 H2 H3. unfold admits. rewrite H1, H2, H3. cbn [negb orb].
  assert (Hm : forall key, mapHas key existingLookup = true ->
            exists k, key = Some k /\ is_Some (existingLookup !! k)).
  { intros [k|]; simpl; [|discriminate]. intros H. exists k.
    split; [reflexivity | now apply bool_decide_eq_true in H]. }
  assert (Hs : forall key (s : gset string), setHas key s = true ->
            exists k, key = Some k /\ k ∈ s).
  { intros [k|] s; simpl; [|discriminate]. intros H. exists k.
    split; [reflexivity | now apply bool_decide_eq_true in H]. }
  destruct (duplicateKey _ _ _ raw || suppressedHit _ _ raw) eqn:E; [|discriminate].
  intros _. unfold duplicateKey, suppressedHit in E.
  repeat match type of E with
         | (_ || _ = true) => apply orb_prop in E as [E|E]
         end;
    first [ apply Hm in E as (k & Hk & Hin) | apply Hs in E as (k & Hk & Hin) ];
    exists k; tauto.
Qed.

Lemma step_seen_mono (st : gset string * list ValidProspect) (raw : JsValue) (k : string) :
  k ∈ fst st -> k ∈ fst (step st raw).
Proof.
  destruct st as [seen valid]. unfold bulkStep.
  destruct (admitsHere seen raw); [|trivial].
  simpl. intros H. now do 2 apply setAdd_mono.
Qed.

Lemma fold_seen_mono (rows : list JsValue) (st : gset string * list ValidProspect)
    (k : string) :
  k ∈ fst st -> k ∈ fst (fold_left step rows st).
Proof.
  revert st. induction rows as [|raw rows IH]; intros st H; simpl; [exact H|].
  now apply IH, step_seen_mono.
Qed.

(** Every key in [seen] is a key of an admitted row. *)
Lemma fold_seen_sound (rows : list JsValue) (st : gset string * list ValidProspect) :
  (forall k, k ∈ fst st -> exists p, In p (snd st) /\ vpHasKey p k) ->
  forall k, k ∈ fst (fold_left step rows st) ->
    exists p, In p (snd (fold_left step rows st)) /\ vpHasKey p k.
Proof.
  revert st. induction rows as [|raw rows IH]; intros st H; simpl; [exact H|].
  apply IH. destruct st as [seen valid]. unfold bulkStep.
  destruct (admitsHere seen raw); [|exact H].
  cbn [fst snd] in *. intros k Hk.
  apply setAdd_inv in Hk as [Hk|Hk]; [|apply setAdd_inv in Hk as [Hk|Hk]].
  - eexists. split; [apply in_or_app; right; now left|]. now right.
  - eexists. split; [apply in_or_app; right; now left|]. now left.
  - destruct (H k Hk) as (p & Hp & Hkey). exists p. split; [|exact Hkey].
    apply in_or_app. now left.
Qed.

(** Every row of the batch that passes the first two tests and has a key
    leaves one of its keys in a lookup. *)
Lemma fold_leaves_key (rows : list JsValue) (st : gset string * list ValidProspect)
    (raw : JsValue) (k : string) :
  In raw rows ->
  truthy raw = true -> typeofObject raw = true -> hasIdentifier raw = true ->
  keyEmail raw = Some k \/ keyDomain URL_hostname raw = Some k ->
  exists k', (keyEmail raw = Some k' \/ keyDomain URL_hostname raw = Some k')
             /\ (is_Some (existingLookup !! k') \/ k' ∈ suppressedLookup
                 \/ k' ∈ fst (fold_left step rows st)).
Proof.
  revert st. induction rows as [|r0 rows IH]; intros st Hin H1 H2 H3 Hk; [destruct Hin|].
  destruct Hin as [->|Hin]; [|now apply IH].
  cbn [fold_left]. destruct st as [seen valid].
  destruct (admitsHere seen raw) eqn:A.
  - exists k. split; [exact Hk|]. right. right. apply fold_seen_mono.
    unfold bulkStep. rewrite A. cbn [fst]. now apply setAdd_elem.
  - destruct (admits_false_key seen raw H1 H2 H3 A) as (k' & Hk' & Hin').
    exists k'. split; [exact Hk'|].
    destruct Hin' as [Hin'|[Hin'|Hin']]; [tauto | tauto |].
    right. right. apply fold_seen_mono. unfold bulkStep. now rewrite A.
Qed.

(** Every admitted element was built from a row of the batch that passed
    the tests. *)
Lemma fold_built (P : JsValue -> Prop) (rows : list JsValue)
    (st : gset string * list ValidProspect) :
  (forall raw, In raw rows -> P raw) ->
  (forall p, In p (snd st) ->
     exists raw k seen, P raw /\ admitsHere seen raw = true
                        /\ p = buildValid URL_hostname (genId k) sourceId raw) ->
  forall p, In p (snd (fold_left step rows st)) ->
    exists raw k seen, P raw /\ admitsHere seen raw = true
                       /\ p = buildValid URL_hostname (genId k) sourceId raw.
Proof.
  revert st. induction rows as [|r0 rows IH]; intros st HP H; simpl; [exact H|].
  apply IH; [intros raw Hr; apply HP; now right|].
  destruct st as [seen valid]. unfold bulkStep.
  destruct (admitsHere seen r0) eqn:A; [|exact H].
  cbn [snd] in *. intros p Hp. apply in_app_or in Hp as [Hp|[<-|[]]]; [now apply H|].
  exists r0, (List.length valid), seen. split; [apply HP; now left|]. now split.
Qed.


Lemma fold_keyless (raw : JsValue) (n : nat) (seen : gset string)
    (valid : list ValidProspect) :
  truthy raw = true -> typeofObject raw = true -> hasIdentifier raw = true ->
  keyEmail raw = None -> keyDomain URL_hostname raw = None ->
  fold_left step (repeat raw n) (seen, valid)
  = (seen,
     (valid ++ map (fun k => buildValid URL_hostname (genId (List.length valid + k))
                               sourceId raw) (seq 0 n))%list).
Proof.
  intros H1 H2 H3 He Hd. revert valid.
  induction n as [|n IH]; intros valid; cbn [repeat fold_left seq map].
  - now rewrite app_nil_r.
  - unfold bulkStep at 2. rewrite (admits_keyless seen raw H1 H2 H3 He Hd).
    rewrite He, Hd. cbn [setAdd]. rewrite IH, <- app_assoc. f_equal. f_equal.
    cbn [app]. rewrite Nat.add_0_r. f_equal.
    rewrite <- seq_shift, map_map. apply map_ext. intros k.
    rewrite length_app. cbn [List.length]. do 2 f_equal. lia.
Qed.

End BulkLoopMore.


(** X24. A row with an identifier but without any key (no email, no pair of
    domain and contact name: say a company name only) is never deduped: a
    batch of [n] copies of it admits all [n], whatever the table holds. *)
Theorem keyless_rows_are_never_deduped (URL_hostname : string -> option string)
    (genId : nat -> string) (sourceId : string) (db : Db)
    (props : list (string * JsValue)) (n : nat) :
  hasIdentifier (JObj props) = true ->
  keyEmail (JObj props) = None ->
  keyDomain URL_hostname (JObj props) = None ->
  validProspectsOf URL_hostname genId sourceId (repeat (JObj props) n) db
  = map (fun k => buildValid URL_hostname (genId k) sourceId (JObj props)) (seq 0 n).
Proof.
  intros H He Hd. rewrite validProspectsOf_eq. unfold bulkLoop.
  now rewrite (fold_keyless URL_hostname genId sourceId _ _ (JObj props) n ∅ []
                 eq_refl eq_refl H He Hd).
Qed.

Lemma keyless_rows_are_never_deduped_witness :
  validProspectsOf hostnameOfSimpleUrl (fun k => "pros_" +:+ string_of_Z (Z.of_nat k))
    "src_1" (repeat (JObj [("companyName", JStr "Acme")]) 3) janeDb
  = map (fun k => buildValid hostnameOfSimpleUrl ("pros_" +:+ string_of_Z (Z.of_nat k))
                    "src_1" (JObj [("companyName", JStr "Acme")])) (seq 0 3).
Proof.
  exact (keyless_rows_are_never_deduped hostnameOfSimpleUrl
           (fun k => "pros_" +:+ string_of_Z (Z.of_nat k)) "src_1" janeDb
           [("companyName", JStr "Acme")] 3 eq_refl eq_refl eq_refl).
Defined.


Lemma postBulk_prospects (URL_hostname : string -> option string)
    (genId : nat -> string) (now sourceId : string) (rows : list JsValue) (db : Db) :
  List.NoDup (map vp_id (validProspectsOf URL_hostname genId sourceId rows db)) ->
  (forall p, In p (validProspectsOf URL_hostname genId sourceId rows db) ->
     getProspectById db (vp_id p) = None) ->
  prospects (snd (postBulk URL_hostname genId now sourceId
                    (JObj [("prospects", JArr rows)]) db))
  = (prospects db
     ++ map (rowOfValid now) (validProspectsOf URL_hostname genId sourceId rows db))%list.
Proof.
  intros Hnd Hfresh. unfold postBulk.
  cbn [jsOr truthy getProp assoc String.eqb Ascii.eqb Bool.eqb].
  destruct rows as [|raw rows].
  - rewrite validProspectsOf_eq. simpl. now rewrite app_nil_r.
  - destruct (validProspectsOf URL_hostname genId sourceId (raw :: rows) db)
      as [|p valid] eqn:E.
    + simpl. now rewrite app_nil_r.
    + cbn [snd]. now rewrite (fold_stmtRun now (p :: valid) db Hnd Hfresh).
Qed.

(** X26. Importing a batch a second time inserts no duplicate: after a bulk
    import (whose generated identifiers were distinct and unused), any row
    a further import of the same batch admits has neither an email key nor
    a domain+name key.  Rows without any key are admitted again (X24). *)
Theorem reimport_admits_only_keyless (URL_hostname : string -> option string)
    (genId genId' : nat -> string) (now sourceId sourceId' : string)
    (rows : list JsValue) (db : Db) (p : ValidProspect) :
  List.NoDup (map vp_id (validProspectsOf URL_hostname genId sourceId rows db)) ->
  (forall q, In q (validProspectsOf URL_hostname genId sourceId rows db) ->
     getProspectById db (vp_id q) = None) ->
  In p (validProspectsOf URL_hostname genId' sourceId' rows
          (snd (postBulk URL_hostname genId now sourceId
                  (JObj [("prospects", JArr rows)]) db))) ->
  vpKeyEmail p = None /\ vpKeyDomain p = None.
Proof.
  intros Hnd Hfresh Hp.
  pose proof (postBulk_prospects URL_hostname genId now sourceId rows db Hnd Hfresh) as Hdb1.
  set (db1 := snd (postBulk URL_hostname genId now sourceId
                     (JObj [("prospects", JArr rows)]) db)) in *.
  rewrite validProspectsOf_eq in Hp. unfold bulkLoop in Hp.
  apply (fold_built URL_hostname genId' sourceId' _ _ (fun raw => In raw rows)) in Hp
    as (raw & k2 & seen2 & Hin & A & ->); [|auto|intros p0 []].
  assert (Hnokey : forall k, ~ (keyEmail raw = Some k \/ keyDomain URL_hostname raw = Some k)).
  { intros k Hk.
    destruct (admits_prechecks _ _ _ _ _ A) as (H1 & H2 & H3).
    (* one key of the row was left in a lookup of the first import *)
    destruct (fold_leaves_key URL_hostname genId sourceId
                (fst (loadSnapshot (prospects db))) (snd (loadSnapshot (prospects db)))
                rows (∅, []) raw k Hin H1 H2 H3 Hk) as (k' & Hk' & Hleft).
    (* and is therefore the key of a row of the table after it *)
    assert (Hrow : exists r, In r (prospects db1) /\ rowHasKey r k').
    { rewrite Hdb1. destruct Hleft as [Hl|[Hl|Hl]].
      - apply loadSnapshot_sound in Hl as (r & Hr & Hkey).
        exists r. split; [apply in_or_app; now left | exact Hkey].
      - apply loadSnapshot_sound in Hl as (r & Hr & Hkey).
        exists r. split; [apply in_or_app; now left | exact Hkey].
      - apply (fold_seen_sound URL_hostname genId sourceId) in Hl
          as (q & Hq & Hkey); [|intros k0 Hk0; set_solver].
        fold (bulkLoop URL_hostname genId sourceId (fst (loadSnapshot (prospects db)))
                (snd (loadSnapshot (prospects db))) rows) in Hq.
        rewrite <- validProspectsOf_eq in Hq.
        destruct (validProspectsOf_inv URL_hostname genId sourceId rows db) as [seen I].
        exists (rowOfValid now q). split; [apply in_or_app; right; now apply in_map|].
        unfold rowHasKey.
        rewrite rowOfValid_keyEmail, rowOfValid_keyDomain
          by exact (inv_shape _ _ _ _ I q Hq).
        exact Hkey. }
    destruct Hrow as (r & Hr & Hkey).
    destruct (snapshot_complete (prospects db1) (∅, ∅) r k' Hr Hkey) as [Hsome _].
    fold (loadSnapshot (prospects db1)) in Hsome.
    destruct (admits_keys _ _ _ _ _ k' A Hk') as (Hnone & _).
    rewrite Hnone in Hsome. now destruct Hsome. }
  unfold vpKeyEmail, vpKeyDomain. cbn [vp_normalizedEmail vp_normalizedDomain
    vp_normalizedContactName buildValid].
  fold (keyEmail raw). fold (keyDomain URL_hostname raw).
  split.
  - destruct (keyEmail raw) as [k|] eqn:E; [|reflexivity].
    exfalso. apply (Hnokey k). now left.
  - destruct (keyDomain URL_hostname raw) as [k|] eqn:E; [|reflexivity].
    exfalso. apply (Hnokey k). now right.
Qed.

Lemma reimport_admits_only_keyless_witness :
  vpKeyEmail (buildValid hostnameOfSimpleUrl "b0" "src_2"
                (JObj [("companyName", JStr "Acme")])) = None
  /\ vpKeyDomain (buildValid hostnameOfSimpleUrl "b0" "src_2"
                    (JObj [("companyName", JStr "Acme")])) = None.
Proof.
  apply (reimport_admits_only_keyless hostnameOfSimpleUrl
           (fun k => "a" +:+ string_of_Z (Z.of_nat k))
           (fun k => "b" +:+ string_of_Z (Z.of_nat k)) "t1" "src_1" "src_2"
           [JObj [("email", JStr "new@x.com")]; JObj [("companyName", JStr "Acme")]]
           janeDb).
  - vm_compute. repeat constructor; [intros [H|[]]; discriminate | intros []].
  - intros q Hq. vm_compute in Hq. destruct Hq as [<-|[<-|[]]]; reflexivity.
  - vm_compute. now left.
Defined.
